(** * Currency converter widget: a shallow embedding of [converter.js]

    The script is a set of event handlers over one mutable [AppState]
    object and a handful of DOM elements.  The embedding keeps that shape:

    - JavaScript strings are sequences of UTF-16 code units ([list N]);
    - JavaScript numbers are IEEE 754 binary64 values, taken from the
      executable specification [SpecFloat] of the Standard Library;
      [parseFloat], [toFixed] and [toLocaleString] follow ECMA-262 and
      ECMA-402 on them;
    - the DOM elements, [AppState] and the browser run time (clock, timers,
      requests in flight, registered listeners) form one [World] record
      that every handler transforms;
    - a function that starts a request is split in two: what it does up to
      [fetch], and what its [then] and [catch] callbacks do once the
      request has an outcome.

    What is assumed of the browser:

    - the nine elements of [DOM] exist when the script is evaluated;
    - a disabled control receives no click, key or input event, and a
      dropdown changes only to one of its options;
    - a timer's callback runs when the clock reaches the time it was set
      for, timers running in the order they are due;
    - the callbacks of one promise chain run without another event in
      between (they share no state with anything else while they wait);
    - the rates of a payload are numbers, looked up by their own keys.

    Line numbers in comments refer to [src/converter.js]. *)

From Stdlib Require Import ZArith NArith Ascii String List Bool Lia.
From Stdlib Require Import DecimalString.
From Stdlib Require Import Floats.SpecFloat.
From stdpp Require Import base gmap list sorting.

Local Open Scope N_scope.

(* ===================================================================== *)
(** ** JavaScript strings *)
(* ===================================================================== *)

(** A string value is a finite sequence of UTF-16 code units. *)
Abbreviation jsstring := (list N).

(** The code units of an ASCII literal. *)
Definition str (s : string) : jsstring :=
  map N_of_ascii (list_ascii_of_string s).

(** [0-9] *)
Definition is_digit (c : N) : bool := (48 <=? c) && (c <=? 57).

(** The decimal separator, U+002E. *)
Definition dot : N := 46.

(** WhiteSpace and LineTerminator code points, as [String.prototype.trim]
    and [parseFloat] strip them. *)
Definition is_whitespace (c : N) : bool :=
  (c =? 9) || (c =? 10) || (c =? 11) || (c =? 12) || (c =? 13) || (c =? 32)
  || (c =? 160) || (c =? 5760) || ((8192 <=? c) && (c <=? 8202))
  || (c =? 8232) || (c =? 8233) || (c =? 8239) || (c =? 8287)
  || (c =? 12288) || (c =? 65279).

Fixpoint trimStart (s : jsstring) : jsstring :=
  match s with
  | c :: r => if is_whitespace c then trimStart r else s
  | [] => []
  end.

Definition trimEnd (s : jsstring) : jsstring := rev (trimStart (rev s)).

(** [s.trim()] *)
Definition trim (s : jsstring) : jsstring := trimEnd (trimStart s).

(** [!s] for a string: only the empty string is falsy. *)
Definition str_truthy (s : jsstring) : bool :=
  match s with [] => false | _ => true end.

(** [s.split(sep)] for a one-unit separator: never the empty array. *)
Fixpoint split (sep : N) (s : jsstring) : list jsstring :=
  match s with
  | [] => [[]]
  | c :: r =>
      if c =? sep then [] :: split sep r
      else match split sep r with
           | p :: ps => (c :: p) :: ps
           | [] => [[c]]
           end
  end.

(** [parts.join('')] *)
Definition join_empty (parts : list jsstring) : jsstring := concat parts.

(** [s.substring(0, n)] *)
Definition substring0 (n : nat) (s : jsstring) : jsstring := take n s.

(** [s.replace(/[^0-9.]/g, '')] *)
Definition strip_non_numeric (s : jsstring) : jsstring :=
  List.filter (fun c => is_digit c || (c =? dot)) s.

(** The decimal digits of a natural number, ["0"] for zero. *)
Definition decimal_digits (n : N) : jsstring :=
  str (NilZero.string_of_uint (N.to_uint n)).

(** Strict equality of two strings. *)
Definition str_eqb (a b : jsstring) : bool := bool_decide (a = b).

(** [a < b] on strings: code units compared lexicographically (the order
    of [Array.prototype.sort] without a comparator is [a <= b]). *)
Fixpoint str_leb (a b : jsstring) : bool :=
  match a, b with
  | [], _ => true
  | _ :: _, [] => false
  | x :: a', y :: b' => (x <? y) || ((x =? y) && str_leb a' b')
  end.

(* ===================================================================== *)
(** ** JavaScript numbers (IEEE 754 binary64) *)
(* ===================================================================== *)

Abbreviation number := spec_float.

Definition prec : Z := 53.
Definition emax : Z := 1024.

(** [NaN], and [0] as written in the source. *)
Definition NaN : number := S754_nan.
Definition zero : number := S754_zero false.

(** [x * y] *)
Definition mul (x y : number) : number := SFmul prec emax x y.

(** [isNaN(x)] for a number. *)
Definition isNaN (x : number) : bool :=
  match x with S754_nan => true | _ => false end.

(** [x <= y] *)
Definition leb (x y : number) : bool := SFleb x y.

(** A number in a boolean position: [NaN], [+0] and [-0] are falsy. *)
Definition num_truthy (x : number) : bool :=
  match x with
  | S754_nan | S754_zero _ => false
  | _ => true
  end.

(** The Number value for the real [(-1)^neg * m * 10^e]: round to nearest,
    ties to even, overflow to infinity. *)
Definition of_decimal (neg : bool) (m : N) (e : Z) : number :=
  match m with
  | N0 => S754_zero neg
  | Npos p =>
      if (0 <=? e)%Z
      then binary_normalize prec emax
             (cond_Zopp neg (Zpos p * 10 ^ e))%Z 0%Z neg
      else
        let '(q, e', l) :=
          SFdiv_core_binary prec emax (Zpos p) 0%Z (10 ^ (- e))%Z 0%Z in
        binary_round_aux prec emax neg q e' l
  end.

(** The longest prefix of decimal digits, and what follows it. *)
Fixpoint span_digits (s : jsstring) : jsstring * jsstring :=
  match s with
  | c :: r =>
      if is_digit c
      then let '(ds, rest) := span_digits r in (c :: ds, rest)
      else ([], s)
  | [] => ([], [])
  end.

(** The value of a digit string, most significant digit first. *)
Definition digits_value (ds : jsstring) : N :=
  fold_left (fun acc c => 10 * acc + (c - 48)) ds 0.

(** Whether [s] starts with [p], and the rest when it does. *)
Fixpoint strip_prefix (p s : jsstring) : option jsstring :=
  match p, s with
  | [], _ => Some s
  | x :: p', y :: s' => if x =? y then strip_prefix p' s' else None
  | _ :: _, [] => None
  end.

(** An optional sign. *)
Definition read_sign (s : jsstring) : bool * jsstring :=
  match s with
  | c :: r =>
      if c =? 45 then (true, r)
      else if c =? 43 then (false, r)
      else (false, s)
  | [] => (false, [])
  end.

(** ExponentPart, when one is there: [e] or [E], an optional sign and at
    least one digit; otherwise the literal ends before it.  The exponent
    and what follows the literal. *)
Definition read_exponent (s : jsstring) : Z * jsstring :=
  match s with
  | c :: r =>
      if (c =? 101) || (c =? 69) then
        let '(neg, r') := read_sign r in
        let '(ds, rest) := span_digits r' in
        match ds with
        | [] => (0%Z, s)
        | _ => (cond_Zopp neg (Z.of_N (digits_value ds)), rest)
        end
      else (0%Z, s)
  | [] => (0%Z, [])
  end.

(** The longest prefix of [s] that is a StrDecimalLiteral: its Number
    value and the rest of [s]; [None] when no prefix is one. *)
Definition read_literal (s : jsstring) : option (number * jsstring) :=
  let '(neg, s1) := read_sign s in
  match strip_prefix (str "Infinity") s1 with
  | Some rest => Some (S754_infinity neg, rest)
  | None =>
      let '(ip, s2) := span_digits s1 in
      let '(fp, s3) :=
        match s2 with
        | c :: r => if c =? dot then span_digits r else ([], s2)
        | [] => ([], [])
        end in
      match ip ++ fp with
      | [] => None
      | ds =>
          let '(ex, rest) := read_exponent s3 in
          Some (of_decimal neg (digits_value ds)
                  (ex - Z.of_nat (length fp))%Z,
                rest)
      end
  end.

(** [parseFloat(s)]: skip leading white space, read the longest prefix
    that is a StrDecimalLiteral and ignore what follows; [NaN] when there
    is no such prefix. *)
Definition parseFloat (s : jsstring) : number :=
  match read_literal (trimStart s) with
  | Some (x, _) => x
  | None => NaN
  end.

(** The integer nearest to [m * 2^e * 10^f], the larger one on a tie. *)
Definition scaled_round (m : positive) (e : Z) (f : nat) : N :=
  let p := (Zpos m * 10 ^ Z.of_nat f)%Z in
  Z.to_N (if (0 <=? e)%Z then p * 2 ^ e
          else (2 * p + 2 ^ (- e)) / 2 ^ (1 - e))%Z.

(** [m * 2^e >= 10^21] *)
Definition ge_1e21 (m : positive) (e : Z) : bool :=
  if (0 <=? e)%Z then (10 ^ 21 <=? Zpos m * 2 ^ e)%Z
  else (10 ^ 21 * 2 ^ (- e) <=? Zpos m)%Z.

(** [n] written with exactly [f] digits after the separator (none and no
    separator when [f = 0]), as the last steps of [toFixed] do. *)
Definition fixed_digits (n : N) (f : nat) : jsstring :=
  let m := decimal_digits n in
  match f with
  | O => m
  | _ =>
      let m := replicate (S f - length m) 48 ++ m in
      let k := length m in
      take (k - f) m ++ dot :: drop (k - f) m
  end.

(** Leading zero digits removed. *)
Fixpoint drop_zeros (l : jsstring) : jsstring :=
  match l with
  | c :: r => if c =? 48 then drop_zeros r else l
  | [] => []
  end.

(** Trailing zero digits removed. *)
Definition strip_trailing_zeros (ds : jsstring) : jsstring :=
  rev (drop_zeros (rev ds)).

(** The decimal a finite positive number [m * 2^e] is printed from: the
    shortest digit string that reads back as the same number, and the
    closest to it when several of that length do (an even last digit on
    a tie).  The result [(d, p)] stands for [d * 10^p].  The power [p] of
    the last digit is tried downwards; at each [p] only the two multiples
    of [10^p] around the number can read back as it. *)
Fixpoint shortest_from (fuel : nat) (p : Z) (m : positive) (e : Z)
    : N * Z :=
  let x := S754_finite false m e in
  let num := ((if 0 <=? e then Zpos m * 2 ^ e else Zpos m) *
              (if 0 <=? p then 1 else 10 ^ (- p)))%Z in
  let den := ((if 0 <=? e then 1 else 2 ^ (- e)) *
              (if 0 <=? p then 10 ^ p else 1))%Z in
  let lo := Z.to_N (num / den) in
  let hi := N.succ lo in
  let r := (num mod den)%Z in
  let ok_lo := SFeqb (of_decimal false lo p) x in
  let ok_hi := SFeqb (of_decimal false hi p) x in
  let d :=
    if ok_lo && ok_hi
    then if (2 * r <? den)%Z then lo
         else if (den <? 2 * r)%Z then hi
         else if N.even lo then lo else hi
    else if ok_lo then lo else hi in
  match fuel with
  | O => (d, p)
  | S fuel' =>
      if ok_lo || ok_hi then (d, p) else shortest_from fuel' (p - 1) m e
  end.

(** The search starts at the number of integer digits, a power of ten
    above the number; 17 digits always read back, and no magnitude is
    below [10^-324]. *)
Definition shortest_decimal (m : positive) (e : Z) : N * Z :=
  let X := Z.to_N (if (0 <=? e)%Z then Zpos m * 2 ^ e
                   else Zpos m / 2 ^ (- e))%Z in
  shortest_from 360 (Z.of_nat (length (decimal_digits X))) m e.

(** Number::toString for a finite number at or above [10^21]: its
    shortest decimal in exponent notation. *)
Definition toString_large (m : positive) (e : Z) : jsstring :=
  let '(d, p) := shortest_decimal m e in
  let all := decimal_digits d in
  let ds := strip_trailing_zeros all in
  let expo := decimal_digits (Z.to_N (Z.of_nat (length all) + p - 1)) in
  match ds with
  | [] => str "0"
  | [d] => d :: str "e+" ++ expo
  | d :: rest => d :: dot :: rest ++ str "e+" ++ expo
  end.

(** [x.toFixed(f)] for [0 <= f <= 100]. *)
Definition toFixed (x : number) (f : nat) : jsstring :=
  match x with
  | S754_nan => str "NaN"
  | S754_infinity false => str "Infinity"
  | S754_infinity true => str "-Infinity"
  | S754_zero _ => fixed_digits 0 f
  | S754_finite s m e =>
      (if s then str "-" else []) ++
      (if ge_1e21 m e then toString_large m e
       else fixed_digits (scaled_round m e f) f)
  end.

(** Digits grouped in threes from the right, with [","] between groups. *)
Fixpoint group_rev (fuel : nat) (r : jsstring) : jsstring :=
  match fuel with
  | O => r
  | S fuel' =>
      match r with
      | a :: b :: c :: (_ :: _) as rest =>
          a :: b :: c :: 44 :: group_rev fuel' (drop 3 r)
      | _ => r
      end
  end.

Definition group_thousands (ds : jsstring) : jsstring :=
  rev (group_rev (length ds) (rev ds)).

(** [x.toLocaleString('en-US', {minimumFractionDigits: f,
    maximumFractionDigits: f})]: the shortest decimal that reads back as
    [x], rounded to [f] fraction digits (ties away from zero), integer
    digits grouped, a minus sign for negative values and for negative
    zero. *)
Definition toLocaleString_enUS (x : number) (f : nat) : jsstring :=
  let body (n : N) :=
    let p := Z.to_N (10 ^ Z.of_nat f) in
    group_thousands (decimal_digits (n / p)) ++
    match f with
    | O => []
    | _ =>
        let fr := decimal_digits (n mod p) in
        dot :: replicate (f - length fr) 48 ++ fr
    end in
  match x with
  | S754_nan => str "NaN"
  | S754_infinity s => (if s then str "-" else []) ++ [8734]
  | S754_zero s => (if s then str "-" else []) ++ body 0
  | S754_finite s m e =>
      let '(d, p) := shortest_decimal m e in
      let q := (p + Z.of_nat f)%Z in
      let n :=
        if (0 <=? q)%Z then d * Z.to_N (10 ^ q)
        else let u := Z.to_N (10 ^ (- q)) in (2 * d + u) / (2 * u) in
      (if s then str "-" else []) ++ body n
  end.

(* ===================================================================== *)
(** ** Configuration (lines 24-31) *)
(* ===================================================================== *)

Record Config := {
  API_KEY : jsstring;
  API_BASE_URL : jsstring;
  DEFAULT_FROM_CURRENCY : jsstring;
  DEFAULT_TO_CURRENCY : jsstring;
  ERROR_DISPLAY_DURATION : N;
  DECIMAL_PLACES : nat
}.

Definition CONFIG : Config := {|
  API_KEY := str "5ff4ca04351879ddbe7f83ea";
  API_BASE_URL := str "https://v6.exchangerate-api.com/v6";
  DEFAULT_FROM_CURRENCY := str "USD";
  DEFAULT_TO_CURRENCY := str "EUR";
  ERROR_DISPLAY_DURATION := 5000;
  DECIMAL_PLACES := 2
|}.

(* ===================================================================== *)
(** ** The page: DOM elements (lines 37-47) *)
(* ===================================================================== *)

(** The amount field. *)
Record Input := { in_value : jsstring; in_disabled : bool }.

(** A currency dropdown: the selected value ([""] while the disabled
    placeholder is selected) and the values of the options a user can
    pick. *)
Record Select := {
  sel_value : jsstring;
  sel_options : list jsstring;
  sel_disabled : bool
}.

Record Button := { btn_disabled : bool }.

(** Any other element: its text, its class list and [style.animation]. *)
Record Element := {
  textContent : jsstring;
  classList : gset jsstring;
  style_animation : jsstring
}.

(** The elements [focus()] is called on. *)
Inductive Focusable := FocusAmount | FocusFromCurrency | FocusToCurrency.

Record DOM := {
  amount : Input;
  fromCurrency : Select;
  toCurrency : Select;
  convertBtn : Button;
  btnText : Element;
  btnLoader : Element;
  errorMessage : Element;
  resultAmount : Element;
  exchangeRate : Element;
  activeElement : option Focusable
}.

(* ===================================================================== *)
(** ** Application state (lines 53-58) *)
(* ===================================================================== *)

(** [currencies] is [None] when it holds [undefined]; [currentExchangeRate]
    and [errorTimeout] are [None] when they hold [null].  A timer handle is
    an integer greater than zero, hence truthy. *)
Record AppState := {
  currencies : option (gmap jsstring number);
  isLoading : bool;
  currentExchangeRate : option number;
  errorTimeout : option positive
}.

(* ===================================================================== *)
(** ** The browser run time *)
(* ===================================================================== *)

Inductive Exn :=
  | JsError (message : jsstring)
  | TypeError
  | SyntaxError.

(** The two functions the script hands to [setTimeout]. *)
Inductive Callback := HideErrorCallback | AnimationCallback.

Record Timer := {
  timer_id : positive;
  timer_due : N;
  timer_cb : Callback
}.

(** What runs when a request settles, with the variables it closes over. *)
Inductive Continuation :=
  | LoadCurrencies
  | Convert (amount : number) (from to : jsstring).

Record Request := {
  req_id : N;
  req_url : jsstring;
  req_cont : Continuation
}.

(** Observable calls, recorded in the order they happen. *)
Inductive Effect :=
  | Fetch (url : jsstring)
  | ConsoleError (label : jsstring) (e : Exn)
  | CallDisplayError (message : jsstring)
  | CallDisplayConversionResults
      (convertedAmount : jsstring) (rate : option number)
      (from to : jsstring).

Record Runtime := {
  now : N;
  timers : list Timer;
  next_timer : positive;
  inflight : list Request;
  next_request : N;
  initialized : bool;
  listeners : bool;
  log : list Effect
}.

Record World := { dom : DOM; app : AppState; rt : Runtime }.

(** *** Field updates *)

Definition set_in_value (v : jsstring) (i : Input) : Input :=
  {| in_value := v; in_disabled := in_disabled i |}.
Definition set_in_disabled (b : bool) (i : Input) : Input :=
  {| in_value := in_value i; in_disabled := b |}.

Definition set_sel_value (v : jsstring) (s : Select) : Select :=
  {| sel_value := v; sel_options := sel_options s;
     sel_disabled := sel_disabled s |}.
Definition set_sel_options (o : list jsstring) (s : Select) : Select :=
  {| sel_value := sel_value s; sel_options := o;
     sel_disabled := sel_disabled s |}.
Definition set_sel_disabled (b : bool) (s : Select) : Select :=
  {| sel_value := sel_value s; sel_options := sel_options s;
     sel_disabled := b |}.

Definition set_textContent (t : jsstring) (e : Element) : Element :=
  {| textContent := t; classList := classList e;
     style_animation := style_animation e |}.
Definition set_classList (c : gset jsstring) (e : Element) : Element :=
  {| textContent := textContent e; classList := c;
     style_animation := style_animation e |}.
Definition set_style_animation (a : jsstring) (e : Element) : Element :=
  {| textContent := textContent e; classList := classList e;
     style_animation := a |}.

(** [el.classList.add(c)] and [el.classList.remove(c)] *)
Definition classList_add (c : jsstring) (e : Element) : Element :=
  set_classList ({[ c ]} ∪ classList e) e.
Definition classList_remove (c : jsstring) (e : Element) : Element :=
  set_classList (classList e ∖ {[ c ]}) e.

Definition set_amount (x : Input) (d : DOM) : DOM :=
  {| amount := x; fromCurrency := fromCurrency d;
     toCurrency := toCurrency d; convertBtn := convertBtn d;
     btnText := btnText d; btnLoader := btnLoader d;
     errorMessage := errorMessage d; resultAmount := resultAmount d;
     exchangeRate := exchangeRate d; activeElement := activeElement d |}.
Definition set_fromCurrency (x : Select) (d : DOM) : DOM :=
  {| amount := amount d; fromCurrency := x;
     toCurrency := toCurrency d; convertBtn := convertBtn d;
     btnText := btnText d; btnLoader := btnLoader d;
     errorMessage := errorMessage d; resultAmount := resultAmount d;
     exchangeRate := exchangeRate d; activeElement := activeElement d |}.
Definition set_toCurrency (x : Select) (d : DOM) : DOM :=
  {| amount := amount d; fromCurrency := fromCurrency d;
     toCurrency := x; convertBtn := convertBtn d;
     btnText := btnText d; btnLoader := btnLoader d;
     errorMessage := errorMessage d; resultAmount := resultAmount d;
     exchangeRate := exchangeRate d; activeElement := activeElement d |}.
Definition set_convertBtn (x : Button) (d : DOM) : DOM :=
  {| amount := amount d; fromCurrency := fromCurrency d;
     toCurrency := toCurrency d; convertBtn := x;
     btnText := btnText d; btnLoader := btnLoader d;
     errorMessage := errorMessage d; resultAmount := resultAmount d;
     exchangeRate := exchangeRate d; activeElement := activeElement d |}.
Definition set_btnText (x : Element) (d : DOM) : DOM :=
  {| amount := amount d; fromCurrency := fromCurrency d;
     toCurrency := toCurrency d; convertBtn := convertBtn d;
     btnText := x; btnLoader := btnLoader d;
     errorMessage := errorMessage d; resultAmount := resultAmount d;
     exchangeRate := exchangeRate d; activeElement := activeElement d |}.
Definition set_btnLoader (x : Element) (d : DOM) : DOM :=
  {| amount := amount d; fromCurrency := fromCurrency d;
     toCurrency := toCurrency d; convertBtn := convertBtn d;
     btnText := btnText d; btnLoader := x;
     errorMessage := errorMessage d; resultAmount := resultAmount d;
     exchangeRate := exchangeRate d; activeElement := activeElement d |}.
Definition set_errorMessage (x : Element) (d : DOM) : DOM :=
  {| amount := amount d; fromCurrency := fromCurrency d;
     toCurrency := toCurrency d; convertBtn := convertBtn d;
     btnText := btnText d; btnLoader := btnLoader d;
     errorMessage := x; resultAmount := resultAmount d;
     exchangeRate := exchangeRate d; activeElement := activeElement d |}.
Definition set_resultAmount (x : Element) (d : DOM) : DOM :=
  {| amount := amount d; fromCurrency := fromCurrency d;
     toCurrency := toCurrency d; convertBtn := convertBtn d;
     btnText := btnText d; btnLoader := btnLoader d;
     errorMessage := errorMessage d; resultAmount := x;
     exchangeRate := exchangeRate d; activeElement := activeElement d |}.
Definition set_exchangeRate (x : Element) (d : DOM) : DOM :=
  {| amount := amount d; fromCurrency := fromCurrency d;
     toCurrency := toCurrency d; convertBtn := convertBtn d;
     btnText := btnText d; btnLoader := btnLoader d;
     errorMessage := errorMessage d; resultAmount := resultAmount d;
     exchangeRate := x; activeElement := activeElement d |}.
Definition set_activeElement (x : option Focusable) (d : DOM) : DOM :=
  {| amount := amount d; fromCurrency := fromCurrency d;
     toCurrency := toCurrency d; convertBtn := convertBtn d;
     btnText := btnText d; btnLoader := btnLoader d;
     errorMessage := errorMessage d; resultAmount := resultAmount d;
     exchangeRate := exchangeRate d; activeElement := x |}.

Definition set_currencies (x : option (gmap jsstring number))
    (a : AppState) : AppState :=
  {| currencies := x; isLoading := isLoading a;
     currentExchangeRate := currentExchangeRate a;
     errorTimeout := errorTimeout a |}.
Definition set_isLoading (x : bool) (a : AppState) : AppState :=
  {| currencies := currencies a; isLoading := x;
     currentExchangeRate := currentExchangeRate a;
     errorTimeout := errorTimeout a |}.
Definition set_currentExchangeRate (x : option number)
    (a : AppState) : AppState :=
  {| currencies := currencies a; isLoading := isLoading a;
     currentExchangeRate := x; errorTimeout := errorTimeout a |}.
Definition set_errorTimeout (x : option positive)
    (a : AppState) : AppState :=
  {| currencies := currencies a; isLoading := isLoading a;
     currentExchangeRate := currentExchangeRate a; errorTimeout := x |}.

Definition set_now (x : N) (r : Runtime) : Runtime :=
  {| now := x; timers := timers r; next_timer := next_timer r;
     inflight := inflight r; next_request := next_request r;
     initialized := initialized r; listeners := listeners r;
     log := log r |}.
Definition set_timers (x : list Timer) (r : Runtime) : Runtime :=
  {| now := now r; timers := x; next_timer := next_timer r;
     inflight := inflight r; next_request := next_request r;
     initialized := initialized r; listeners := listeners r;
     log := log r |}.
Definition set_next_timer (x : positive) (r : Runtime) : Runtime :=
  {| now := now r; timers := timers r; next_timer := x;
     inflight := inflight r; next_request := next_request r;
     initialized := initialized r; listeners := listeners r;
     log := log r |}.
Definition set_inflight (x : list Request) (r : Runtime) : Runtime :=
  {| now := now r; timers := timers r; next_timer := next_timer r;
     inflight := x; next_request := next_request r;
     initialized := initialized r; listeners := listeners r;
     log := log r |}.
Definition set_next_request (x : N) (r : Runtime) : Runtime :=
  {| now := now r; timers := timers r; next_timer := next_timer r;
     inflight := inflight r; next_request := x;
     initialized := initialized r; listeners := listeners r;
     log := log r |}.
Definition set_listeners (x : bool) (r : Runtime) : Runtime :=
  {| now := now r; timers := timers r; next_timer := next_timer r;
     inflight := inflight r; next_request := next_request r;
     initialized := initialized r; listeners := x; log := log r |}.
Definition set_initialized (x : bool) (r : Runtime) : Runtime :=
  {| now := now r; timers := timers r; next_timer := next_timer r;
     inflight := inflight r; next_request := next_request r;
     initialized := x; listeners := listeners r; log := log r |}.
Definition set_log (x : list Effect) (r : Runtime) : Runtime :=
  {| now := now r; timers := timers r; next_timer := next_timer r;
     inflight := inflight r; next_request := next_request r;
     initialized := initialized r; listeners := listeners r; log := x |}.

Definition upd_dom (f : DOM -> DOM) (w : World) : World :=
  {| dom := f (dom w); app := app w; rt := rt w |}.
Definition upd_app (f : AppState -> AppState) (w : World) : World :=
  {| dom := dom w; app := f (app w); rt := rt w |}.
Definition upd_rt (f : Runtime -> Runtime) (w : World) : World :=
  {| dom := dom w; app := app w; rt := f (rt w) |}.

(** An effect appended to the log. *)
Definition emit (e : Effect) (w : World) : World :=
  upd_rt (fun r => set_log (log r ++ [e]) r) w.

(** [console.error(label, e)] *)
Definition console_error (label : jsstring) (e : Exn) (w : World) : World :=
  emit (ConsoleError label e) w.

(** [setTimeout(cb, delay)]: a fresh handle, the callback due [delay]
    milliseconds from now. *)
Definition setTimeout (cb : Callback) (delay : N) (w : World)
    : positive * World :=
  let id := next_timer (rt w) in
  (id,
   upd_rt (fun r =>
     set_next_timer (Pos.succ id)
       (set_timers
          (timers r ++
           [{| timer_id := id; timer_due := now r + delay;
               timer_cb := cb |}]) r)) w).

(** [clearTimeout(id)] *)
Definition clearTimeout (id : positive) (w : World) : World :=
  upd_rt (fun r =>
    set_timers
      (List.filter (fun t => negb (Pos.eqb (timer_id t) id)) (timers r))
      r) w.

(** [fetch(url)]: the request is recorded as in flight, together with what
    the script chained on it. *)
Definition fetch (url : jsstring) (k : Continuation) (w : World) : World :=
  upd_rt (fun r =>
    set_next_request (N.succ (next_request r))
      (set_inflight
         (inflight r ++
          [{| req_id := next_request r; req_url := url; req_cont := k |}])
         r))
    (emit (Fetch url) w).

(** [el.focus()]: a disabled control does not take the focus. *)
Definition focus (el : Focusable) (w : World) : World :=
  let disabled :=
    match el with
    | FocusAmount => in_disabled (amount (dom w))
    | FocusFromCurrency => sel_disabled (fromCurrency (dom w))
    | FocusToCurrency => sel_disabled (toCurrency (dom w))
    end in
  if disabled then w else upd_dom (set_activeElement (Some el)) w.

(** The class that hides an element. *)
Definition d_none : jsstring := str "d-none".

Definition hidden (e : Element) : Prop := d_none ∈ classList e.

(* ===================================================================== *)
(** ** The remote API *)
(* ===================================================================== *)

(** The parsed JSON payload.  [result] and ["error-type"] are [None] when
    absent or not strings, [conversion_rates] is [None] when absent. *)
Record Payload := {
  result : option jsstring;
  error_type : option jsstring;
  conversion_rates : option (gmap jsstring number)
}.

(** How a request ends: the transport fails, or a response arrives with a
    status and a body: one that [response.json()] parses to a value whose
    properties can be read ([Some]), one it cannot parse ([None]), or the
    JSON text [null]. *)
Inductive FetchOutcome :=
  | NetworkFailure
  | HttpResponse (status : N) (body : option Payload)
  | HttpNull (status : N).

(** [response.ok] *)
Definition response_ok (status : N) : bool :=
  (200 <=? status) && (status <=? 299).

(** A settled promise. *)
Inductive Settled (A : Type) :=
  | Resolved (a : A)
  | Rejected (e : Exn).
Arguments Resolved {A} a.
Arguments Rejected {A} e.

(** [a || b] where [a] is a string or [undefined]. *)
Definition or_default (a : option jsstring) (b : jsstring) : jsstring :=
  match a with
  | Some s => if str_truthy s then s else b
  | None => b
  end.

(** [data.result !== 'success'] *)
Definition not_success (data : Payload) : bool :=
  match result data with
  | Some r => negb (str_eqb r (str "success"))
  | None => true
  end.

(** The first [then] of both chains (lines 95-100 and 131-136): a
    response that is not [ok] throws, otherwise the body is parsed.  A
    body that is [null] is handed on as it is, and the next callback
    throws at once, reading [data.result] (lines 102 and 138). *)
Definition response_json (o : FetchOutcome) : Settled Payload :=
  match o with
  | NetworkFailure => Rejected TypeError
  | HttpResponse status body =>
      if negb (response_ok status)
      then Rejected
             (JsError (str "HTTP error! Status: " ++ decimal_digits status))
      else match body with
           | Some data => Resolved data
           | None => Rejected SyntaxError
           end
  | HttpNull status =>
      if negb (response_ok status)
      then Rejected
             (JsError (str "HTTP error! Status: " ++ decimal_digits status))
      else Rejected TypeError
  end.

(* ===================================================================== *)
(** ** Display functions (lines 378-425) *)
(* ===================================================================== *)

(** [setLoadingState(isLoading)], lines 378-395. *)
Definition setLoadingState (loading : bool) (w : World) : World :=
  let w := upd_app (set_isLoading loading) w in
  let w := upd_dom (fun d =>
    set_toCurrency (set_sel_disabled loading (toCurrency d))
      (set_fromCurrency (set_sel_disabled loading (fromCurrency d))
         (set_amount (set_in_disabled loading (amount d))
            (set_convertBtn {| btn_disabled := loading |} d)))) w in
  if loading
  then upd_dom (fun d =>
         set_btnLoader (classList_remove d_none (btnLoader d))
           (set_btnText (set_textContent (str "Converting...") (btnText d))
              d)) w
  else upd_dom (fun d =>
         set_btnLoader (classList_add d_none (btnLoader d))
           (set_btnText (set_textContent (str "Convert") (btnText d)) d)) w.

(** [hideError()], lines 419-425. *)
Definition hideError (w : World) : World :=
  let w := upd_dom (fun d =>
    set_errorMessage (classList_add d_none (errorMessage d)) d) w in
  match errorTimeout (app w) with
  | Some id => upd_app (set_errorTimeout None) (clearTimeout id w)
  | None => w
  end.

(** [displayError(message)], lines 401-414. *)
Definition displayError (message : jsstring) (w : World) : World :=
  let w := emit (CallDisplayError message) w in
  let w := upd_dom (fun d =>
    set_errorMessage
      (classList_remove d_none (set_textContent message (errorMessage d)))
      d) w in
  let w := match errorTimeout (app w) with
           | Some id => clearTimeout id w
           | None => w
           end in
  let '(id, w) :=
    setTimeout HideErrorCallback (ERROR_DISPLAY_DURATION CONFIG) w in
  upd_app (set_errorTimeout (Some id)) w.

(** [resetResults()], lines 367-372. *)
Definition resetResults (w : World) : World :=
  let w := upd_dom (fun d =>
    set_exchangeRate
      (set_textContent (str "Exchange Rate: 1 [SOURCE] = [RATE] [TARGET]")
         (exchangeRate d))
      (set_resultAmount (set_textContent (str "--") (resultAmount d)) d))
    w in
  let w := upd_app (set_currentExchangeRate None) w in
  hideError w.

(** [displayConversionResults(convertedAmount, rate, fromCurrency,
    toCurrency)], lines 342-362.  [rate] is [None] when it is [undefined]:
    [rate.toFixed] then throws, after the amount has been written. *)
Definition displayConversionResults (convertedAmount : jsstring)
    (rate : option number) (from to : jsstring) (w : World)
    : World * option Exn :=
  let w := emit (CallDisplayConversionResults convertedAmount rate from to)
             w in
  let formattedAmount :=
    toLocaleString_enUS (parseFloat convertedAmount)
      (DECIMAL_PLACES CONFIG) in
  let w := upd_dom (fun d =>
    set_resultAmount (set_textContent formattedAmount (resultAmount d)) d)
    w in
  match rate with
  | None => (w, Some TypeError)
  | Some r =>
      let formattedRate := toFixed r 4 in
      let w := upd_dom (fun d =>
        set_exchangeRate
          (set_textContent
             (str "Exchange Rate: 1 " ++ from ++ str " = " ++
              formattedRate ++ str " " ++ to)
             (exchangeRate d)) d) w in
      let w := upd_app (set_currentExchangeRate (Some r)) w in
      let w := upd_dom (fun d =>
        set_resultAmount
          (set_style_animation (str "none") (resultAmount d)) d) w in
      let '(_, w) := setTimeout AnimationCallback 10 w in
      (w, None)
  end.

(* ===================================================================== *)
(** ** Validation (lines 287-329) *)
(* ===================================================================== *)

(** [validateInputs()] *)
Definition validateInputs (w : World) : World * bool :=
  let amount_ := trim (in_value (amount (dom w))) in
  let fromCurrency_ := sel_value (fromCurrency (dom w)) in
  let toCurrency_ := sel_value (toCurrency (dom w)) in
  if negb (str_truthy amount_) then
    (focus FocusAmount
       (displayError (str "Please enter an amount to convert") w), false)
  else
    let numAmount := parseFloat amount_ in
    if isNaN numAmount || leb numAmount zero then
      (focus FocusAmount
         (displayError (str "Please enter a valid amount greater than 0")
            w), false)
    else if negb (str_truthy fromCurrency_) then
      (focus FocusFromCurrency
         (displayError (str "Please select a source currency") w), false)
    else if negb (str_truthy toCurrency_) then
      (focus FocusToCurrency
         (displayError (str "Please select a target currency") w), false)
    else if str_eqb fromCurrency_ toCurrency_ then
      (focus FocusToCurrency
         (displayError
            (str "Source and target currencies must be different") w),
       false)
    else (w, true).

(* ===================================================================== *)
(** ** Event handlers (lines 228-277) *)
(* ===================================================================== *)

(** The text [handleAmountInput] writes back, lines 229-243.  [parts] is
    computed once, from the text as the regular expression left it. *)
Definition sanitize (value : jsstring) : jsstring :=
  let value := strip_non_numeric value in
  let parts := split dot value in
  let value :=
    if (2 <? length parts)%nat
    then hd [] parts ++ dot :: join_empty (drop 1 parts)
    else value in
  match parts !! 1%nat with
  | Some p1 =>
      if str_truthy p1 && (DECIMAL_PLACES CONFIG <? length p1)%nat
      then hd [] parts ++ dot :: substring0 (DECIMAL_PLACES CONFIG) p1
      else value
  | None => value
  end.

(** [handleAmountInput(event)], lines 228-247; [event.target] is the
    amount field. *)
Definition handleAmountInput (w : World) : World :=
  let value := sanitize (in_value (amount (dom w))) in
  let w := upd_dom (fun d => set_amount (set_in_value value (amount d)) d)
             w in
  hideError w.

(** The request URL, lines 92 and 128. *)
Definition latest_url (base : jsstring) : jsstring :=
  API_BASE_URL CONFIG ++ str "/" ++ API_KEY CONFIG ++ str "/latest/" ++ base.

(** [fetchExchangeRate(fromCurrency, toCurrency)], lines 126-147, first
    half: the request is sent. *)
Definition fetchExchangeRate (from to : jsstring) (k : Continuation)
    (w : World) : World :=
  fetch (latest_url from) k w.

(** [fetchExchangeRate], second half: how the returned promise settles on
    an outcome of the request.  The looked-up rate is [None] when
    [conversion_rates[toCurrency]] is no number: [undefined] for a name
    the mapping does not hold, or, for one of the names [Object.prototype]
    defines, the member inherited from it, which the script treats alike
    (the product is [NaN], [toFixed] is not a function of it).  Reading a
    property of an absent [conversion_rates] throws. *)
Definition fetchExchangeRate_settle (to : jsstring) (o : FetchOutcome)
    : Settled (option number) :=
  match response_json o with
  | Rejected e => Rejected e
  | Resolved data =>
      if not_success data
      then Rejected
             (JsError (or_default (error_type data)
                         (str "Failed to fetch exchange rate")))
      else match conversion_rates data with
           | Some rates => Resolved (rates !! to)
           | None => Rejected TypeError
           end
  end.

(** [handleConversionRequest()], lines 252-277, up to the request. *)
Definition handleConversionRequest (w : World) : World :=
  let w := hideError w in
  let '(w, valid) := validateInputs w in
  if negb valid then w
  else
    let amount_ := parseFloat (in_value (amount (dom w))) in
    let fromCurrency_ := sel_value (fromCurrency (dom w)) in
    let toCurrency_ := sel_value (toCurrency (dom w)) in
    let w := setLoadingState true w in
    fetchExchangeRate fromCurrency_ toCurrency_
      (Convert amount_ fromCurrency_ toCurrency_) w.

(** The [catch] callback of [handleConversionRequest], lines 272-276. *)
Definition conversion_failed (error : Exn) (w : World) : World :=
  let w := displayError (str "Conversion failed. Please try again.") w in
  let w := console_error (str "Conversion error:") error w in
  setLoadingState false w.

(** [amount * rate], where [rate] may be [undefined]. *)
Definition times_rate (amount_ : number) (rate : option number) : number :=
  mul amount_ (match rate with Some r => r | None => NaN end).

(** The [then] callback of [handleConversionRequest], lines 267-271; an
    exception thrown in it is passed to the [catch] callback. *)
Definition conversion_succeeded (amount_ : number) (rate : option number)
    (from to : jsstring) (w : World) : World :=
  let convertedAmount :=
    toFixed (times_rate amount_ rate) (DECIMAL_PLACES CONFIG) in
  match displayConversionResults convertedAmount rate from to w with
  | (w, None) => setLoadingState false w
  | (w, Some error) => conversion_failed error w
  end.

(** What [handleConversionRequest] chained on the request, run on its
    outcome. *)
Definition conversion_settled (amount_ : number) (from to : jsstring)
    (o : FetchOutcome) (w : World) : World :=
  match fetchExchangeRate_settle to o with
  | Resolved rate => conversion_succeeded amount_ rate from to w
  | Rejected error => conversion_failed error w
  end.

(* ===================================================================== *)
(** ** Start-up (lines 67-118 and 156-222) *)
(* ===================================================================== *)

Definition str_le (a b : jsstring) : Prop := str_leb a b = true.

#[global] Instance str_le_dec (a b : jsstring) : Decision (str_le a b).
Proof. unfold str_le. apply _. Defined.

(** [Object.keys(o).sort()] *)
Definition sorted_keys (o : gmap jsstring number) : list jsstring :=
  merge_sort str_le (map fst (map_to_list o)).

(** [select.innerHTML = '<option value="" selected disabled>...'] *)
Definition reset_options (s : Select) : Select :=
  set_sel_options [] (set_sel_value [] s).

(** [select.appendChild(createCurrencyOption(code))], lines 179-184. *)
Definition append_option (s : Select) (code : jsstring) : Select :=
  set_sel_options (sel_options s ++ [code]) s.

(** [select.value = v]: the option with that value is selected; with no
    such option nothing is, and the value reads as the empty string. *)
Definition assign_value (v : jsstring) (s : Select) : Select :=
  if bool_decide (v ∈ sel_options s) then set_sel_value v s
  else set_sel_value [] s.

(** [populateCurrencyDropdowns()], lines 156-172; [Object.keys] throws on
    [undefined]. *)
Definition populateCurrencyDropdowns (w : World) : World * option Exn :=
  match currencies (app w) with
  | None => (w, Some TypeError)
  | Some rates =>
      let currencyCodes := sorted_keys rates in
      let w := upd_dom (fun d =>
        set_toCurrency (reset_options (toCurrency d))
          (set_fromCurrency (reset_options (fromCurrency d)) d)) w in
      (fold_left
         (fun w code =>
            upd_dom (fun d =>
              set_toCurrency (append_option (toCurrency d) code)
                (set_fromCurrency (append_option (fromCurrency d) code) d))
              w)
         currencyCodes w,
       None)
  end.

(** [AppState.currencies[code]] in a boolean position. *)
Definition has_rate (rates : gmap jsstring number) (code : jsstring)
    : bool :=
  match rates !! code with
  | Some r => num_truthy r
  | None => false
  end.

(** [setDefaultCurrencies()], lines 189-196. *)
Definition setDefaultCurrencies (w : World) : World * option Exn :=
  match currencies (app w) with
  | None => (w, Some TypeError)
  | Some rates =>
      let w :=
        if has_rate rates (DEFAULT_FROM_CURRENCY CONFIG)
        then upd_dom (fun d =>
               set_fromCurrency
                 (assign_value (DEFAULT_FROM_CURRENCY CONFIG)
                    (fromCurrency d)) d) w
        else w in
      let w :=
        if has_rate rates (DEFAULT_TO_CURRENCY CONFIG)
        then upd_dom (fun d =>
               set_toCurrency
                 (assign_value (DEFAULT_TO_CURRENCY CONFIG) (toCurrency d))
                 d) w
        else w in
      (w, None)
  end.

(** [setupEventListeners()], lines 205-222: from here on the five
    listeners are registered. *)
Definition setupEventListeners (w : World) : World :=
  upd_rt (set_listeners true) w.

(** [loadAvailableCurrencies()], lines 88-118, up to the request. *)
Definition loadAvailableCurrencies (w : World) : World :=
  let w := setLoadingState true w in
  fetch (latest_url (str "USD")) LoadCurrencies w.

(** The second [then] callback of [loadAvailableCurrencies], lines
    101-110. *)
Definition currencies_loaded (data : Payload) (w : World)
    : World * option Exn :=
  if not_success data
  then (w, Some (JsError (or_default (error_type data)
                            (str "API request failed"))))
  else
    let w := upd_app (set_currencies (conversion_rates data)) w in
    match populateCurrencyDropdowns w with
    | (w, Some e) => (w, Some e)
    | (w, None) => (setLoadingState false w, None)
    end.

(** The [catch] callback of [loadAvailableCurrencies], lines 111-116. *)
Definition currencies_failed (error : Exn) (w : World) : World :=
  let w := displayError
    (str "Unable to load currencies. Please check your internet connection and API key.")
    w in
  let w := console_error (str "Currency loading error:") error w in
  setLoadingState false w.

(** The [catch] callback of [initializeApp], lines 74-77. *)
Definition initialization_failed (error : Exn) (w : World) : World :=
  let w := displayError
    (str "Failed to initialize application. Please refresh the page.") w in
  console_error (str "Initialization error:") error w.

(** The [then] callback of [initializeApp], lines 69-73. *)
Definition initialization_done (w : World) : World :=
  let w := setupEventListeners w in
  match setDefaultCurrencies w with
  | (w, Some e) => initialization_failed e w
  | (w, None) => focus FocusAmount w
  end.

(** What [initializeApp] and [loadAvailableCurrencies] chained on the
    request, run on its outcome. *)
Definition load_settled (o : FetchOutcome) (w : World) : World :=
  match response_json o with
  | Rejected e => initialization_failed e (currencies_failed e w)
  | Resolved data =>
      match currencies_loaded data w with
      | (w, None) => initialization_done w
      | (w, Some e) => initialization_failed e (currencies_failed e w)
      end
  end.

(** [initializeApp()], lines 67-78. *)
Definition initializeApp (w : World) : World :=
  loadAvailableCurrencies (upd_rt (set_initialized true) w).

(** The script has been evaluated up to line 445: [AppState] holds its
    initial values, the two global handlers are registered, nothing else
    has run.  The page and the clock are whatever they are. *)
Definition script_loaded (t0 : N) (page : DOM) : World := {|
  dom := page;
  app := {| currencies := Some ∅; isLoading := false;
            currentExchangeRate := None; errorTimeout := None |};
  rt := {| now := t0; timers := []; next_timer := 1%positive;
           inflight := []; next_request := 0; initialized := false;
           listeners := false; log := [] |}
|}.

(* ===================================================================== *)
(** ** Events *)
(* ===================================================================== *)

Inductive Event :=
  | Ready
      (* line 454-458: the document is ready, [initializeApp] runs *)
  | Click
      (* the user clicks the convert button *)
  | Keypress (key : jsstring)
      (* a key is pressed in the amount field *)
  | InputText (text : jsstring)
      (* the user edits the amount field, which now reads [text] *)
  | ChangeFrom (code : jsstring)
      (* the user picks an option of the source dropdown *)
  | ChangeTo (code : jsstring)
      (* the user picks an option of the target dropdown *)
  | Response (id : N) (o : FetchOutcome)
      (* the request [id] ends *)
  | Elapse (dt : N)
      (* [dt] milliseconds pass *)
  | UncaughtError (e : Exn)
      (* the window's [error] event *)
  | UnhandledRejection (reason : Exn).
      (* the window's [unhandledrejection] event *)

(** The timer that is due first, the one set first among equals. *)
Fixpoint next_due (ts : list Timer) : option Timer :=
  match ts with
  | [] => None
  | t :: ts' =>
      match next_due ts' with
      | Some t' => if timer_due t' <? timer_due t then Some t' else Some t
      | None => Some t
      end
  end.

(** A timer fires: it leaves the list and its callback runs (lines 411-413
    and 359-361). *)
Definition fire (t : Timer) (w : World) : World :=
  let w := clearTimeout (timer_id t) w in
  match timer_cb t with
  | HideErrorCallback => hideError w
  | AnimationCallback =>
      upd_dom (fun d =>
        set_resultAmount
          (set_style_animation (str "slideDown 0.3s ease") (resultAmount d))
          d) w
  end.

(** Timers due up to [t_end] fire in order, each at its due time. *)
Fixpoint run_timers (fuel : nat) (t_end : N) (w : World) : World :=
  match fuel with
  | O => w
  | S fuel' =>
      match next_due (timers (rt w)) with
      | Some t =>
          if timer_due t <=? t_end
          then run_timers fuel' t_end
                 (fire t
                    (upd_rt (fun r => set_now (N.max (now r) (timer_due t)) r)
                       w))
          else w
      | None => w
      end
  end.

(** [dt] milliseconds pass.  No callback of this script sets a timer, so
    as many rounds as there are timers suffice. *)
Definition elapse (dt : N) (w : World) : World :=
  let t_end := now (rt w) + dt in
  upd_rt (set_now t_end)
    (run_timers (length (timers (rt w))) t_end w).

(** The request [id], when it is in flight. *)
Definition find_request (id : N) (w : World) : option Request :=
  List.find (fun r => req_id r =? id) (inflight (rt w)).

Definition remove_request (id : N) (w : World) : World :=
  upd_rt (fun r =>
    set_inflight
      (List.filter (fun q => negb (req_id q =? id)) (inflight r)) r) w.

(** The global handlers, lines 434-445. *)
Definition on_error (e : Exn) (w : World) : World :=
  displayError
    (str "An unexpected error occurred. Please refresh the page.")
    (console_error (str "Uncaught error:") e w).

Definition on_unhandledrejection (reason : Exn) (w : World) : World :=
  displayError (str "An unexpected error occurred. Please try again.")
    (console_error (str "Unhandled promise rejection:") reason w).

(** The [keypress] listener of the amount field, lines 213-217. *)
Definition on_keypress (key : jsstring) (w : World) : World :=
  if str_eqb key (str "Enter") then handleConversionRequest w else w.

(** The browser delivers an event.  A disabled control receives no user
    event; a listener runs only once [setupEventListeners] has registered
    it; a dropdown changes only to one of its options. *)
Definition dispatch (ev : Event) (w : World) : World :=
  match ev with
  | Ready =>
      if initialized (rt w) then w else initializeApp w
  | Click =>
      if btn_disabled (convertBtn (dom w)) then w
      else if listeners (rt w) then handleConversionRequest w else w
  | Keypress key =>
      if in_disabled (amount (dom w)) then w
      else if listeners (rt w) then on_keypress key w else w
  | InputText text =>
      if in_disabled (amount (dom w)) then w
      else
        let w := upd_dom (fun d =>
                   set_amount (set_in_value text (amount d)) d) w in
        if listeners (rt w) then handleAmountInput w else w
  | ChangeFrom code =>
      if sel_disabled (fromCurrency (dom w))
         || negb (bool_decide (code ∈ sel_options (fromCurrency (dom w))))
      then w
      else
        let w := upd_dom (fun d =>
                   set_fromCurrency (set_sel_value code (fromCurrency d)) d)
                   w in
        if listeners (rt w) then resetResults w else w
  | ChangeTo code =>
      if sel_disabled (toCurrency (dom w))
         || negb (bool_decide (code ∈ sel_options (toCurrency (dom w))))
      then w
      else
        let w := upd_dom (fun d =>
                   set_toCurrency (set_sel_value code (toCurrency d)) d)
                   w in
        if listeners (rt w) then resetResults w else w
  | Response id o =>
      match find_request id w with
      | Some q =>
          let w := remove_request id w in
          match req_cont q with
          | LoadCurrencies => load_settled o w
          | Convert amount_ from to => conversion_settled amount_ from to o w
          end
      | None => w
      end
  | Elapse dt => elapse dt w
  | UncaughtError e => on_error e w
  | UnhandledRejection reason => on_unhandledrejection reason w
  end.

(** The states the page can be in. *)
Inductive reachable : World -> Prop :=
  | reach_loaded (t0 : N) (page : DOM) :
      reachable (script_loaded t0 page)
  | reach_step (ev : Event) (w : World) :
      reachable w -> reachable (dispatch ev w).

(** A run: events delivered one after the other. *)
Definition run (evs : list Event) (w : World) : World :=
  fold_left (fun w ev => dispatch ev w) evs w.

(* ===================================================================== *)
(** ** Vocabulary of the properties *)
(* ===================================================================== *)

(** *** Amount text *)

(** The text is a decimal number and nothing else (white space around it
    apart). *)
Definition is_numeric (s : jsstring) : bool :=
  match read_literal (trim s) with
  | Some (_, []) => true
  | _ => false
  end.

(** Only digits and decimal separators. *)
Definition digits_and_dots (s : jsstring) : Prop :=
  Forall (fun c => is_digit c = true \/ c = dot) s.

(** Neither white space nor anything else but digit or separator, and no
    separator either: what a part of the split text holds. *)
Definition digits (s : jsstring) : Prop :=
  Forall (fun c => (is_digit c = true \/ c = dot) /\ c <> dot) s.

Definition count_dots (s : jsstring) : nat :=
  length (List.filter (fun c => c =? dot) s).

(** What follows the first decimal separator; nothing when there is
    none. *)
Fixpoint after_dot (s : jsstring) : jsstring :=
  match s with
  | [] => []
  | c :: r => if c =? dot then r else after_dot r
  end.

(** *** Numbers *)

Definition is_zero (x : number) : bool :=
  match x with S754_zero _ => true | _ => false end.

Definition is_negative (x : number) : bool :=
  match x with
  | S754_finite true _ _ | S754_infinity true => true
  | _ => false
  end.



(** *** The validator's checks, as a table

    The five failure kinds, each with the condition under which it is
    reported, its message and the field that takes the focus. *)
Inductive ValidationError :=
  | EmptyAmount
  | InvalidAmount
  | MissingSourceCurrency
  | MissingTargetCurrency
  | SameCurrency.

Definition check_order : list ValidationError :=
  [EmptyAmount; InvalidAmount; MissingSourceCurrency;
   MissingTargetCurrency; SameCurrency].

Definition fails (k : ValidationError) (w : World) : bool :=
  let amount_ := trim (in_value (amount (dom w))) in
  match k with
  | EmptyAmount => negb (str_truthy amount_)
  | InvalidAmount =>
      isNaN (parseFloat amount_) || leb (parseFloat amount_) zero
  | MissingSourceCurrency =>
      negb (str_truthy (sel_value (fromCurrency (dom w))))
  | MissingTargetCurrency =>
      negb (str_truthy (sel_value (toCurrency (dom w))))
  | SameCurrency =>
      str_eqb (sel_value (fromCurrency (dom w)))
        (sel_value (toCurrency (dom w)))
  end.

Definition message_of (k : ValidationError) : jsstring :=
  match k with
  | EmptyAmount => str "Please enter an amount to convert"
  | InvalidAmount => str "Please enter a valid amount greater than 0"
  | MissingSourceCurrency => str "Please select a source currency"
  | MissingTargetCurrency => str "Please select a target currency"
  | SameCurrency => str "Source and target currencies must be different"
  end.

Definition field_of (k : ValidationError) : Focusable :=
  match k with
  | EmptyAmount | InvalidAmount => FocusAmount
  | MissingSourceCurrency => FocusFromCurrency
  | MissingTargetCurrency | SameCurrency => FocusToCurrency
  end.

(** The checks taken in order, stopping at the first that fails. *)
Definition first_failure (w : World) : option ValidationError :=
  List.find (fun k => fails k w) check_order.

(** *** Timers and requests *)

Definition is_hide_timer (t : Timer) : bool :=
  match timer_cb t with HideErrorCallback => true | _ => false end.

(** The pending auto-dismiss timers. *)
Definition hide_timers (w : World) : list Timer :=
  List.filter is_hide_timer (timers (rt w)).

(** The network requests a log records. *)
Definition requests_of (l : list Effect) : list jsstring :=
  omap (fun e => match e with Fetch url => Some url | _ => None end) l.

(** The calls of the success renderer a log records. *)
Definition renders_of (l : list Effect) : list Effect :=
  List.filter
    (fun e => match e with
              | CallDisplayConversionResults _ _ _ _ => true
              | _ => false
              end) l.

(** The error messages a log records. *)
Definition errors_of (l : list Effect) : list jsstring :=
  omap (fun e => match e with
                 | CallDisplayError m => Some m
                 | _ => None
                 end) l.

(** All four controls enabled or all four disabled. *)
Definition controls_disabled (b : bool) (d : DOM) : Prop :=
  btn_disabled (convertBtn d) = b /\ in_disabled (amount d) = b /\
  sel_disabled (fromCurrency d) = b /\ sel_disabled (toCurrency d) = b.

(** The rate fetch fails in one of the three ways the interface names. *)
Definition fetch_fails (o : FetchOutcome) : Prop :=
  match o with
  | NetworkFailure => True
  | HttpResponse status body =>
      response_ok status = false \/
      exists data, body = Some data /\ not_success data = true
  | HttpNull status => response_ok status = false
  end.

(** *** Invariants of the reachable states *)

(** Timer handles are fresh and distinct, and the only auto-dismiss timer
    that can be pending is the one [AppState.errorTimeout] holds. *)
Record timer_inv (w : World) : Prop := {
  ti_fresh :
    Forall (fun t => (timer_id t < next_timer (rt w))%positive)
      (timers (rt w));
  ti_nodup : NoDup (map timer_id (timers (rt w)));
  ti_owned :
    Forall (fun t => is_hide_timer t = true ->
                     errorTimeout (app w) = Some (timer_id t))
      (timers (rt w))
}.

(** Requests and the loading flag: a request is in flight only while
    [isLoading] holds, at most one at a time; once [initializeApp] has
    run the four controls are disabled exactly while [isLoading] holds;
    before it nothing is registered. *)
Record flow_inv (w : World) : Prop := {
  fi_ids :
    Forall (fun q => req_id q < next_request (rt w)) (inflight (rt w));
  fi_one : (length (inflight (rt w)) <= 1)%nat;
  fi_idle : isLoading (app w) = false -> inflight (rt w) = [];
  fi_controls :
    initialized (rt w) = true ->
    controls_disabled (isLoading (app w)) (dom w);
  fi_before :
    initialized (rt w) = false ->
    listeners (rt w) = false /\ isLoading (app w) = false
}.

(** All seven conditions under which [validateInputs] returns [true]. *)
Definition acceptable (w : World) : bool :=
  let amount_ := trim (in_value (amount (dom w))) in
  let x := parseFloat amount_ in
  let from := sel_value (fromCurrency (dom w)) in
  let to := sel_value (toCurrency (dom w)) in
  str_truthy amount_ && negb (isNaN x) && negb (is_zero x)
  && negb (is_negative x) && str_truthy from && str_truthy to
  && negb (str_eqb from to).

(* ===================================================================== *)
(** ** A sample page *)
(* ===================================================================== *)

Definition blank : Element :=
  {| textContent := []; classList := ∅; style_animation := [] |}.

(** A page as the markup would give it: empty dropdowns, the error box
    hidden, the amount field holding [text]. *)
Definition sample_page (text : jsstring) : DOM := {|
  amount := {| in_value := text; in_disabled := false |};
  fromCurrency :=
    {| sel_value := []; sel_options := []; sel_disabled := false |};
  toCurrency :=
    {| sel_value := []; sel_options := []; sel_disabled := false |};
  convertBtn := {| btn_disabled := false |};
  btnText := set_textContent (str "Convert") blank;
  btnLoader := set_classList {[ d_none ]} blank;
  errorMessage := set_classList {[ d_none ]} blank;
  resultAmount := set_textContent (str "--") blank;
  exchangeRate := blank;
  activeElement := None
|}.

(** The Number values of [1], [0.9] and [0.8]. *)
Definition rate_1 : number := of_decimal false 1 0.
Definition rate_0_9 : number := of_decimal false 9 (-1).
Definition rate_0_8 : number := of_decimal false 8 (-1).

Definition sample_rates : gmap jsstring number :=
  <[ str "USD" := rate_1 ]>
    (<[ str "EUR" := rate_0_9 ]> (<[ str "GBP" := rate_0_8 ]> ∅)).

(** A successful response carrying [rates]. *)
Definition success (rates : gmap jsstring number) : FetchOutcome :=
  HttpResponse 200
    (Some {| result := Some (str "success"); error_type := None;
             conversion_rates := Some rates |}).

(** The page after a successful start-up, the amount field holding
    [text] as the markup set it: USD and EUR are preselected. *)
Definition sample_ready (text : jsstring) : World :=
  run [Ready; Response 0 (success sample_rates)]
    (script_loaded 0 (sample_page text)).

(** The same page while the conversion of [100] is in flight. *)
Definition sample_loading : World :=
  run [InputText (str "100"); Click] (sample_ready []).

(* ===================================================================== *)
(** ** Views of the state *)
(* ===================================================================== *)

(** What the timer invariant reads. *)
Definition timer_view (w : World)
    : list Timer * positive * option positive :=
  (timers (rt w), next_timer (rt w), errorTimeout (app w)).

(** What the request invariant reads. *)
Definition flow_view (w : World)
    : list Request * N * bool * bool * bool * (bool * bool * bool * bool) :=
  (inflight (rt w), next_request (rt w), isLoading (app w),
   initialized (rt w), listeners (rt w),
   (btn_disabled (convertBtn (dom w)), in_disabled (amount (dom w)),
    sel_disabled (fromCurrency (dom w)),
    sel_disabled (toCurrency (dom w)))).

(** What the user has entered. *)
Definition form_view (w : World) : jsstring * jsstring * jsstring :=
  (in_value (amount (dom w)), sel_value (fromCurrency (dom w)),
   sel_value (toCurrency (dom w))).

(** The error box. *)
Definition error_view (w : World) : Element := errorMessage (dom w).

(** The request fails in any way at all. *)
Definition request_fails (o : FetchOutcome) : Prop :=
  match o with
  | NetworkFailure => True
  | HttpResponse status body =>
      response_ok status = false \/
      match body with
      | None => True
      | Some data =>
          not_success data = true \/ conversion_rates data = None
      end
  | HttpNull _ => True
  end.

(** The literals and the number functions are not to be unfolded by
    simplification. *)
Arguments str : simpl never.
Arguments parseFloat : simpl never.
Arguments toFixed : simpl never.
Arguments toLocaleString_enUS : simpl never.
Arguments mul : simpl never.
Arguments trim : simpl never.
Arguments sanitize : simpl never.
Arguments latest_url : simpl never.
Arguments d_none : simpl never.
Arguments CONFIG : simpl never.

(** How [setLoadingState] and [setupEventListeners] change the request
    view. *)
Definition loading_view (b : bool)
    (v : list Request * N * bool * bool * bool * (bool * bool * bool * bool))
    : list Request * N * bool * bool * bool * (bool * bool * bool * bool) :=
  let '(qs, n, _, ini, l, _) := v in (qs, n, b, ini, l, (b, b, b, b)).

Definition listening_view
    (v : list Request * N * bool * bool * bool * (bool * bool * bool * bool))
    : list Request * N * bool * bool * bool * (bool * bool * bool * bool) :=
  let '(qs, n, ld, ini, _, fl) := v in (qs, n, ld, ini, true, fl).

(** What a change of currency does to the page [w], giving [w']: the two
    result texts back to their placeholders, the stored rate and the error
    with its timer cleared; no request sent; the amount and the catalog
    untouched. *)
Definition reset_effect (w w' : World) : Prop :=
  textContent (resultAmount (dom w')) = str "--" /\
  textContent (exchangeRate (dom w')) =
    str "Exchange Rate: 1 [SOURCE] = [RATE] [TARGET]" /\
  currentExchangeRate (app w') = None /\
  hidden (errorMessage (dom w')) /\
  errorTimeout (app w') = None /\
  hide_timers w' = [] /\
  log (rt w') = log (rt w) /\
  inflight (rt w') = inflight (rt w) /\
  in_value (amount (dom w')) = in_value (amount (dom w)) /\
  currencies (app w') = currencies (app w).

(** The page [w] with the amount field reading [text]. *)
Definition with_amount (text : jsstring) (w : World) : World :=
  upd_dom (fun d => set_amount (set_in_value text (amount d)) d) w.

(** The auto-dismiss timer with handle [id], due at [due]. *)
Definition hide_timer (id : positive) (due : N) : Timer :=
  {| timer_id := id; timer_due := due; timer_cb := HideErrorCallback |}.


(* ===================================================================== *)
(** ** Further vocabulary *)
(* ===================================================================== *)

(** An amount as the field is meant to hold it: digits, at most one
    separator, at most [DECIMAL_PLACES] digits after it. *)
Definition well_formed_amount (s : jsstring) : Prop :=
  digits_and_dots s /\ (count_dots s <= 1)%nat /\
  (length (after_dot s) <= DECIMAL_PLACES CONFIG)%nat.

(** The catalogue and the two dropdowns. *)
Definition catalog_view (w : World)
    : option (gmap jsstring number) *
      (jsstring * list jsstring) * (jsstring * list jsstring) :=
  (currencies (app w),
   (sel_value (fromCurrency (dom w)), sel_options (fromCurrency (dom w))),
   (sel_value (toCurrency (dom w)), sel_options (toCurrency (dom w)))).

(** The label of the button and its spinner. *)
Definition button_view (w : World) : Element * Element :=
  (btnText (dom w), btnLoader (dom w)).

(** Once the listeners are registered, the catalogue is loaded, both
    dropdowns list its codes, and each holds the placeholder or one of
    them; the request for the catalogue is in flight only before. *)
Record catalog_inv (w : World) : Prop := {
  ci_loaded :
    listeners (rt w) = true ->
    exists rates,
      currencies (app w) = Some rates /\
      sel_options (fromCurrency (dom w)) = sorted_keys rates /\
      sel_options (toCurrency (dom w)) = sorted_keys rates;
  ci_from :
    listeners (rt w) = true ->
    sel_value (fromCurrency (dom w)) = [] \/
    sel_value (fromCurrency (dom w)) ∈ sel_options (fromCurrency (dom w));
  ci_to :
    listeners (rt w) = true ->
    sel_value (toCurrency (dom w)) = [] \/
    sel_value (toCurrency (dom w)) ∈ sel_options (toCurrency (dom w));
  ci_pending :
    Forall (fun q => req_cont q = LoadCurrencies ->
                     listeners (rt w) = false)
      (inflight (rt w))
}.

(** Once [initializeApp] has run, the button reads "Converting..." and
    shows its spinner exactly while [isLoading] holds, and exactly one
    request is then in flight. *)
Record ui_inv (w : World) : Prop := {
  ui_label :
    initialized (rt w) = true ->
    textContent (btnText (dom w)) =
    if isLoading (app w) then str "Converting..." else str "Convert";
  ui_spinner :
    initialized (rt w) = true ->
    (hidden (btnLoader (dom w)) <-> isLoading (app w) = false);
  ui_busy :
    isLoading (app w) = true -> length (inflight (rt w)) = 1%nat
}.

(** Start-up has failed: [initializeApp] has run, nothing is in flight
    or loading, and no listener is registered. *)
Definition unusable (w : World) : Prop :=
  initialized (rt w) = true /\ listeners (rt w) = false /\
  inflight (rt w) = [] /\ isLoading (app w) = false.

(** White space only. *)
Definition blanks (ws : jsstring) : Prop :=
  Forall (fun c => is_whitespace c = true) ws.

(** A number above zero: not [NaN], not a zero, not negative. *)
Definition above_zero (x : number) : bool :=
  negb (isNaN x) && negb (is_zero x) && negb (is_negative x).

(** A request as the page sends it: the one for the catalogue, or one
    for the rates of a source currency, to convert an amount above zero
    between two different codes of the catalogue. *)
Definition well_formed_request (w : World) (q : Request) : Prop :=
  match req_cont q with
  | LoadCurrencies => req_url q = latest_url (str "USD")
  | Convert amount_ from to =>
      req_url q = latest_url from /\
      above_zero amount_ = true /\
      from <> to /\
      exists rates,
        currencies (app w) = Some rates /\
        is_Some (rates !! from) /\ is_Some (rates !! to)
  end.

Definition request_inv (w : World) : Prop :=
  Forall (well_formed_request w) (inflight (rt w)).

(** The result is animated, or a callback that will animate it is due by
    [t_end]. *)
Definition animation_due (t_end : N) (w : World) : Prop :=
  style_animation (resultAmount (dom w)) = str "slideDown 0.3s ease" \/
  exists t, In t (timers (rt w)) /\ timer_cb t = AnimationCallback /\
            timer_due t <= t_end.

(* ===================================================================== *)
(** * Properties *)
(* ===================================================================== *)

(** ** The amount-field sanitizer *)

Section Sanitizer.

Local Open Scope nat_scope.

Lemma strip_non_numeric_digits_and_dots (s : jsstring) :
  digits_and_dots (strip_non_numeric s).
Proof.
  unfold digits_and_dots, strip_non_numeric.
  induction s as [|c s IH]; simpl; [constructor|].
  destruct (is_digit c) eqn:Hd; simpl.
  - constructor; [by left | exact IH].
  - destruct (N.eqb_spec c dot) as [->|Hne]; [|exact IH].
    constructor; [by right | exact IH].
Qed.

(** [split] never returns the empty array. *)
Lemma split_nonempty (sep : N) (s : jsstring) : split sep s <> [].
Proof.
  destruct s as [|c s]; simpl; [done|].
  destruct (c =? sep)%N; [done|].
  by destruct (split sep s).
Qed.

(** The parts keep the properties of the code units of the text and hold
    no separator. *)
Lemma split_parts (P : N -> Prop) (sep : N) (s : jsstring) :
  Forall P s ->
  Forall (Forall (fun c => P c /\ c <> sep)) (split sep s).
Proof.
  induction 1 as [|c s Hc Hs IH]; simpl.
  - repeat constructor.
  - destruct (N.eqb_spec c sep) as [->|Hne].
    + constructor; [constructor | exact IH].
    + destruct (split sep s) as [|p ps]; [repeat constructor; done|].
      inversion IH; subst. constructor; [|done].
      constructor; done.
Qed.

(** One part more than there are separators. *)
Lemma split_length (s : jsstring) :
  length (split dot s) = S (count_dots s).
Proof.
  unfold count_dots.
  induction s as [|c s IH]; simpl; [done|].
  destruct (c =? dot)%N; simpl; [by rewrite IH|].
  destruct (split dot s); simpl in *; done.
Qed.

Lemma count_dots_app (a b : jsstring) :
  count_dots (a ++ b) = count_dots a + count_dots b.
Proof. unfold count_dots. by rewrite List.filter_app, length_app. Qed.

Lemma count_dots_none (s : jsstring) :
  Forall (fun c => c <> dot) s -> count_dots s = 0.
Proof.
  unfold count_dots. induction 1 as [|c s Hc Hs IH]; simpl; [done|].
  destruct (N.eqb_spec c dot); [done | exact IH].
Qed.

Lemma after_dot_app (a b : jsstring) :
  Forall (fun c => c <> dot) a -> after_dot (a ++ dot :: b) = b.
Proof.
  induction 1 as [|c s Hc Hs IH]; simpl; [done|].
  destruct (N.eqb_spec c dot); [done | exact IH].
Qed.

Lemma after_dot_none (s : jsstring) :
  Forall (fun c => c <> dot) s -> after_dot s = [].
Proof.
  induction 1 as [|c s Hc Hs IH]; simpl; [done|].
  destruct (N.eqb_spec c dot); [done | exact IH].
Qed.

Lemma split_one (s p0 : jsstring) : split dot s = [p0] -> s = p0.
Proof.
  revert p0. induction s as [|c s IH]; intros p0; simpl; [by intros [= <-]|].
  destruct (N.eqb_spec c dot) as [->|Hne].
  - intros [= _ Hs]. by apply split_nonempty in Hs.
  - destruct (split dot s) as [|q qs] eqn:Hq; [by apply split_nonempty in Hq|].
    intros [= <- ->]. f_equal. by apply IH.
Qed.

(** With one separator the two parts are what stands before and after
    it. *)
Lemma split_two (s p0 p1 : jsstring) :
  split dot s = [p0; p1] -> s = p0 ++ dot :: p1.
Proof.
  revert p0. induction s as [|c s IH]; intros p0; simpl; [done|].
  destruct (N.eqb_spec c dot) as [->|Hne].
  - intros [= <- Hs]. simpl. f_equal. by apply split_one.
  - destruct (split dot s) as [|q qs] eqn:Hq; [done|].
    intros [= <- ->]. simpl. f_equal. by apply IH.
Qed.

Lemma digits_no_dot (s : jsstring) :
  digits s -> Forall (fun c => c <> dot) s.
Proof. intros H. eapply Forall_impl; [exact H|]. simpl. tauto. Qed.

Lemma digits_ok (s : jsstring) : digits s -> digits_and_dots s.
Proof. intros H. eapply Forall_impl; [exact H|]. simpl. tauto. Qed.

Lemma joined_ok (a b : jsstring) :
  digits a -> digits b -> digits_and_dots (a ++ dot :: b).
Proof.
  intros Ha Hb. apply Forall_app. split; [by apply digits_ok|].
  constructor; [by right | by apply digits_ok].
Qed.

Lemma joined_one_dot (a b : jsstring) :
  digits a -> digits b -> count_dots (a ++ dot :: b) = 1.
Proof.
  intros Ha Hb. rewrite count_dots_app.
  rewrite (count_dots_none a) by by apply digits_no_dot.
  change (dot :: b) with ([dot] ++ b). rewrite count_dots_app.
  by rewrite (count_dots_none b) by by apply digits_no_dot.
Qed.

Lemma parts_digits (s : jsstring) :
  Forall digits (split dot (strip_non_numeric s)).
Proof. apply split_parts, strip_non_numeric_digits_and_dots. Qed.

(** The sanitizer leaves only digits and decimal separators. *)
Lemma sanitize_digits_and_dots (s : jsstring) :
  digits_and_dots (sanitize s).
Proof.
  unfold sanitize.
  pose proof (parts_digits s) as Hp.
  pose proof (strip_non_numeric_digits_and_dots s) as Hv.
  set (parts := split dot (strip_non_numeric s)) in *.
  assert (Hhd : digits (hd [] parts)).
  { destruct Hp; simpl; [constructor | done]. }
  assert (Htl : digits (join_empty (drop 1 parts))).
  { unfold join_empty. apply Forall_concat.
    destruct Hp; simpl; [constructor|]. by rewrite drop_0. }
  assert (Hvalue : digits_and_dots
    (if 2 <? length parts
     then hd [] parts ++ dot :: join_empty (drop 1 parts)
     else strip_non_numeric s)).
  { destruct (2 <? length parts); [by apply joined_ok | done]. }
  destruct (parts !! 1) as [p1|] eqn:Hp1; [|done].
  destruct (str_truthy p1 && (DECIMAL_PLACES CONFIG <? length p1));
    [|done].
  apply joined_ok; [done|].
  unfold substring0. apply Forall_take.
  eapply Forall_lookup_1 in Hp1; [exact Hp1 | exact Hp].
Qed.

(** The sanitizer leaves at most one decimal separator. *)
Lemma sanitize_one_dot (s : jsstring) : count_dots (sanitize s) <= 1.
Proof.
  unfold sanitize.
  pose proof (parts_digits s) as Hp.
  pose proof (split_length (strip_non_numeric s)) as Hlen.
  set (parts := split dot (strip_non_numeric s)) in *.
  assert (Hhd : digits (hd [] parts)).
  { destruct Hp; simpl; [constructor | done]. }
  assert (Htl : digits (join_empty (drop 1 parts))).
  { unfold join_empty. apply Forall_concat.
    destruct Hp; simpl; [constructor|]. by rewrite drop_0. }
  assert (Hvalue : count_dots
    (if 2 <? length parts
     then hd [] parts ++ dot :: join_empty (drop 1 parts)
     else strip_non_numeric s) <= 1).
  { destruct (Nat.ltb_spec 2 (length parts)).
    - by rewrite joined_one_dot.
    - lia. }
  destruct (parts !! 1) as [p1|] eqn:Hp1; [|done].
  destruct (str_truthy p1 && (DECIMAL_PLACES CONFIG <? length p1));
    [|done].
  rewrite joined_one_dot; [done.. |].
  unfold substring0. apply Forall_take.
  eapply Forall_lookup_1 in Hp1; [exact Hp1 | exact Hp].
Qed.

(** When the text holds at most one separator once the other
    characters are stripped, at most [DECIMAL_PLACES] digits follow
    it. *)
Lemma sanitize_fraction_single_separator (s : jsstring) :
  count_dots (strip_non_numeric s) <= 1 ->
  length (after_dot (sanitize s)) <= DECIMAL_PLACES CONFIG.
Proof.
  intros Hdots. unfold sanitize.
  generalize (DECIMAL_PLACES CONFIG) as dp. intros dp.
  pose proof (parts_digits s) as Hp.
  pose proof (split_length (strip_non_numeric s)) as Hlen.
  destruct (split dot (strip_non_numeric s)) as [|p0 [|p1 [|p2 ps]]] eqn:Hs;
    simpl in Hlen; try lia.
  - apply split_one in Hs. simpl. rewrite Hs.
    inversion Hp; subst.
    rewrite after_dot_none by by apply digits_no_dot. simpl. lia.
  - apply split_two in Hs. inversion Hp as [|? ? Hp0 Hp']; subst.
    simpl. rewrite Hs.
    destruct (str_truthy p1 && (dp <? length p1)) eqn:Hlong.
    + rewrite after_dot_app by by apply digits_no_dot.
      unfold substring0. rewrite length_take. lia.
    + rewrite after_dot_app by by apply digits_no_dot.
      apply andb_false_iff in Hlong as [Hempty|Hshort].
      * destruct p1; [simpl; lia | done].
      * apply Nat.ltb_ge in Hshort. exact Hshort.
Qed.

(** C1: on the text ["1.2.345"] the sanitizer writes back ["1.2345"],
    and on ["1.2.34"] (a separator typed into ["12.34"]) it writes back
    ["1.234"]: one separator and only digits around it, but four and
    three digits after it where the configured limit is two.  The second
    rule joined the digit groups, the third measured the second group of
    the [parts] array computed before the join. *)
Theorem C1_sanitize_exceeds_decimal_places :
  DECIMAL_PLACES CONFIG = 2 /\
  sanitize (str "1.2.345") = str "1.2345" /\
  length (after_dot (sanitize (str "1.2.345"))) = 4 /\
  sanitize (str "1.2.34") = str "1.234" /\
  length (after_dot (sanitize (str "1.2.34"))) = 3 /\
  in_value
    (amount
       (dom (dispatch (InputText (str "1.2.34"))
               (sample_ready (str "12.34"))))) = str "1.234".
Proof. repeat split; vm_compute; reflexivity. Qed.

End Sanitizer.

(** ** The validator *)

Section Validator.

(** On a number, [isNaN(x) || x <= 0] singles out [NaN], the zeros and
    the negative numbers. *)
Lemma invalid_amount_cases (x : number) :
  isNaN x || leb x zero = isNaN x || is_zero x || is_negative x.
Proof. by destruct x as [[]|[]| |[] m e]. Qed.

(** [validateInputs] reports the first failing check of the table, with
    its message and its field, and changes nothing when none fails. *)
Lemma validateInputs_first_failure (w : World) :
  validateInputs w =
  match first_failure w with
  | Some k => (focus (field_of k) (displayError (message_of k) w), false)
  | None => (w, true)
  end.
Proof.
  unfold validateInputs, first_failure, check_order, List.find, fails.
  repeat match goal with
         | |- context [if ?c then _ else _] => destruct c; try reflexivity
         end.
Qed.

Lemma log_focus (el : Focusable) (w : World) :
  log (rt (focus el w)) = log (rt w).
Proof. unfold focus. by repeat case_match. Qed.

Lemma log_displayError (message : jsstring) (w : World) :
  log (rt (displayError message w)) =
  log (rt w) ++ [CallDisplayError message].
Proof.
  unfold displayError. cbn. by destruct (errorTimeout (app w)).
Qed.

Lemma errors_of_app (l1 l2 : list Effect) :
  errors_of (l1 ++ l2) = errors_of l1 ++ errors_of l2.
Proof. apply omap_app. Qed.

(** C5: [validateInputs] takes the five checks in the order empty
    amount, invalid amount, missing source currency, missing target
    currency, same currency, and stops at the first that fails; the five
    messages are pairwise distinct; one run shows the message of that
    first failure and no other, or none when every check passes. *)
Theorem C5_checks_in_order (w : World) :
  check_order =
    [EmptyAmount; InvalidAmount; MissingSourceCurrency;
     MissingTargetCurrency; SameCurrency] /\
  validateInputs w =
    match List.find (fun k => fails k w) check_order with
    | Some k => (focus (field_of k) (displayError (message_of k) w), false)
    | None => (w, true)
    end /\
  NoDup (map message_of check_order) /\
  errors_of (log (rt (fst (validateInputs w)))) =
    errors_of (log (rt w)) ++
    match List.find (fun k => fails k w) check_order with
    | Some k => [message_of k]
    | None => []
    end.
Proof.
  split; [reflexivity|]. split; [apply validateInputs_first_failure|].
  split.
  - apply (bool_decide_unpack (NoDup (map message_of check_order))).
    vm_compute. exact I.
  - rewrite validateInputs_first_failure. fold (first_failure w).
    destruct (first_failure w) as [k|]; simpl.
    + by rewrite log_focus, log_displayError, errors_of_app.
    + by rewrite app_nil_r.
Qed.

(** The validator accepts exactly when the trimmed amount is not empty,
    reads as a number that is neither [NaN] nor zero nor negative, and
    the two currencies are chosen and differ. *)
Lemma validateInputs_acceptable (w : World) :
  snd (validateInputs w) = acceptable w.
Proof.
  unfold validateInputs, acceptable.
  rewrite <- !andb_assoc.
  destruct (str_truthy (trim (in_value (amount (dom w))))); [|done].
  cbn [negb andb].
  rewrite (andb_assoc (negb (isNaN _))), (andb_assoc _ (negb (is_negative _))).
  rewrite <- !negb_orb, <- invalid_amount_cases.
  destruct (isNaN _ || leb _ zero); [done|]. cbn [negb andb].
  destruct (str_truthy (sel_value (fromCurrency (dom w)))); [|done].
  destruct (str_truthy (sel_value (toCurrency (dom w)))); [|done].
  by destruct (str_eqb _ _).
Qed.

Lemma validateInputs_accepts (w : World) :
  acceptable w = true -> validateInputs w = (w, true).
Proof.
  intros Hacc. pose proof (validateInputs_acceptable w) as H.
  rewrite Hacc in H. rewrite validateInputs_first_failure in H |- *.
  by destruct (first_failure w).
Qed.




End Validator.

(** ** The validator on sanitized text *)

Section SanitizedAmount.

Lemma not_whitespace (c : N) :
  is_digit c = true \/ c = dot -> is_whitespace c = false.
Proof.
  unfold is_digit, is_whitespace, dot. intros [Hd| ->]; [|reflexivity].
  apply andb_true_iff in Hd as [Hlo Hhi].
  apply N.leb_le in Hlo, Hhi.
  repeat match goal with
         | |- context [N.eqb c ?k] =>
             destruct (N.eqb_spec c k); [lia|]
         end.
  destruct (N.leb_spec 8192 c); [lia|]. reflexivity.
Qed.

Lemma trimStart_keeps (s : jsstring) :
  digits_and_dots s -> trimStart s = s.
Proof.
  intros Hs. destruct Hs as [|c s Hc Hs]; [done|]. cbn.
  by rewrite not_whitespace.
Qed.

Lemma trim_keeps (s : jsstring) : digits_and_dots s -> trim s = s.
Proof.
  intros Hs. unfold trim, trimEnd. rewrite (trimStart_keeps s Hs).
  rewrite trimStart_keeps; [apply rev_involutive|].
  unfold digits_and_dots. by apply Forall_rev.
Qed.

Lemma span_digits_all (s : jsstring) :
  Forall (fun c => is_digit c = true) s -> span_digits s = (s, []).
Proof.
  induction 1 as [|c s Hc Hs IH]; cbn; [done|]. by rewrite Hc, IH.
Qed.

(** After the leading digits of a text with at most one separator comes
    nothing, or the separator and digits only. *)
Lemma span_digits_sanitized (s : jsstring) :
  digits_and_dots s -> (count_dots s <= 1)%nat ->
  exists ip, Forall (fun c => is_digit c = true) ip /\
    (span_digits s = (ip, []) \/
     exists fp, Forall (fun c => is_digit c = true) fp /\
                span_digits s = (ip, dot :: fp)).
Proof.
  induction 1 as [|c s Hc Hs IH]; intros Hdots; cbn.
  - exists []. split; [constructor | by left].
  - destruct (is_digit c) eqn:Hd.
    + destruct IH as (ip & Hip & Hrest).
      { unfold count_dots in *. cbn in Hdots.
        destruct (c =? dot); cbn in Hdots; lia. }
      exists (c :: ip). split; [by constructor|].
      destruct Hrest as [->|(fp & Hfp & ->)]; [by left|].
      right. by exists fp.
    + destruct Hc as [Hc| ->]; [congruence|].
      exists []. split; [constructor|]. right. exists s. split; [|done].
      unfold count_dots in Hdots. cbn in Hdots.
      assert (Hnone : List.filter (fun c => c =? dot) s = []).
      { destruct (List.filter (fun c => c =? dot) s); [done|].
        cbn in Hdots. lia. }
      clear Hdots IH. induction Hs as [|c s Hc Hs IH]; [constructor|].
      cbn in Hnone. destruct (N.eqb_spec c dot) as [->|Hne]; [done|].
      constructor; [|by apply IH]. by destruct Hc.
Qed.

(** On a text of digits with at most one separator, which is all the
    sanitizer writes, [parseFloat] reads the whole text or finds no
    number: nothing is left over, and the text is numeric exactly when
    a number is read. *)
Lemma read_literal_sanitized (s : jsstring) :
  digits_and_dots s -> (count_dots s <= 1)%nat ->
  match read_literal (trim s) with
  | Some (_, rest) => rest = [] /\ is_numeric s = true
  | None => is_numeric s = false
  end.
Proof.
  intros Hs Hdots. unfold is_numeric. rewrite (trim_keeps s Hs).
  unfold read_literal.
  assert (Hsign : read_sign s = (false, s)).
  { destruct Hs as [|c s Hc Hs]; [done|]. unfold read_sign.
    assert (((c =? 45) = false) /\ ((c =? 43) = false)) as [-> ->];
      [|done].
    unfold is_digit, dot in Hc. split; apply N.eqb_neq; intros ->;
      by destruct Hc. }
  rewrite Hsign.
  assert (Hinf : strip_prefix (str "Infinity") s = None).
  { destruct Hs as [|c s Hc Hs]; [done|].
    change (str "Infinity") with [73; 110; 102; 105; 110; 105; 116; 121].
    cbn [strip_prefix].
    destruct (N.eqb_spec 73 c) as [<-|Hne]; [|done].
    unfold is_digit, dot in Hc. by destruct Hc. }
  rewrite Hinf.
  destruct (span_digits_sanitized s Hs Hdots)
    as (ip & Hip & [->|(fp & Hfp & ->)]).
  - rewrite app_nil_r. destruct ip; [done|]. cbn. done.
  - rewrite N.eqb_refl, (span_digits_all fp Hfp).
    destruct (ip ++ fp); [done|]. cbn. done.
Qed.

Lemma sanitize_read_whole (text : jsstring) :
  match read_literal (trim (sanitize text)) with
  | Some (_, rest) => rest = [] /\ is_numeric (sanitize text) = true
  | None => is_numeric (sanitize text) = false
  end.
Proof.
  apply read_literal_sanitized;
    [apply sanitize_digits_and_dots | apply sanitize_one_dot].
Qed.

End SanitizedAmount.

(** ** What each function leaves alone *)

Section Frames.

(** One step of case analysis on the tests a handler makes. *)
Ltac cases :=
  repeat match goal with
         | |- context [match errorTimeout ?a with _ => _ end] =>
             destruct (errorTimeout a)
         | |- context [if ?c then _ else _] => destruct c
         end.

Lemma timer_view_upd_dom (f : DOM -> DOM) (w : World) :
  timer_view (upd_dom f w) = timer_view w.
Proof. reflexivity. Qed.

Lemma timer_view_setLoadingState (b : bool) (w : World) :
  timer_view (setLoadingState b w) = timer_view w.
Proof. by destruct b. Qed.

Lemma timer_view_focus (el : Focusable) (w : World) :
  timer_view (focus el w) = timer_view w.
Proof. unfold focus. by cases. Qed.

Lemma timer_view_emit (e : Effect) (w : World) :
  timer_view (emit e w) = timer_view w.
Proof. reflexivity. Qed.

Lemma timer_view_fetch (url : jsstring) (k : Continuation) (w : World) :
  timer_view (fetch url k w) = timer_view w.
Proof. reflexivity. Qed.

Lemma timer_view_remove_request (id : N) (w : World) :
  timer_view (remove_request id w) = timer_view w.
Proof. reflexivity. Qed.

Lemma timer_view_populate (w : World) :
  timer_view (fst (populateCurrencyDropdowns w)) = timer_view w.
Proof.
  unfold populateCurrencyDropdowns.
  destruct (currencies (app w)) as [rates|]; [|done]. cbn [fst].
  generalize (sorted_keys rates). intros codes.
  set (w0 := upd_dom _ w). change (timer_view w) with (timer_view w0).
  generalize w0. clear w0.
  induction codes as [|c codes IH]; intros w0; [done|].
  cbn [fold_left]. by rewrite IH.
Qed.

Lemma timer_view_setDefaultCurrencies (w : World) :
  timer_view (fst (setDefaultCurrencies w)) = timer_view w.
Proof.
  unfold setDefaultCurrencies.
  destruct (currencies (app w)); [|done]. by cases.
Qed.

Lemma flow_view_hideError (w : World) :
  flow_view (hideError w) = flow_view w.
Proof. unfold hideError. cbn. by cases. Qed.

Lemma flow_view_displayError (message : jsstring) (w : World) :
  flow_view (displayError message w) = flow_view w.
Proof. unfold displayError. cbn. by cases. Qed.

Lemma flow_view_focus (el : Focusable) (w : World) :
  flow_view (focus el w) = flow_view w.
Proof. unfold focus. by cases. Qed.

Lemma flow_view_resetResults (w : World) :
  flow_view (resetResults w) = flow_view w.
Proof. unfold resetResults. by rewrite flow_view_hideError. Qed.

Lemma flow_view_validateInputs (w : World) :
  flow_view (fst (validateInputs w)) = flow_view w.
Proof.
  rewrite validateInputs_first_failure.
  destruct (first_failure w); [|done]. cbn [fst].
  by rewrite flow_view_focus, flow_view_displayError.
Qed.

Lemma flow_view_displayConversionResults
    (c : jsstring) (rate : option number) (from to : jsstring)
    (w : World) :
  flow_view (fst (displayConversionResults c rate from to w)) =
  flow_view w.
Proof. unfold displayConversionResults. by destruct rate. Qed.

Lemma flow_view_fire (t : Timer) (w : World) :
  flow_view (fire t w) = flow_view w.
Proof.
  unfold fire. destruct (timer_cb t); [|done].
  by rewrite flow_view_hideError.
Qed.

Lemma flow_view_run_timers (fuel : nat) (t_end : N) (w : World) :
  flow_view (run_timers fuel t_end w) = flow_view w.
Proof.
  revert w. induction fuel as [|fuel IH]; intros w; [done|].
  cbn [run_timers]. destruct (next_due _) as [t|]; [|done].
  destruct (timer_due t <=? t_end); [|done].
  by rewrite IH, flow_view_fire.
Qed.

Lemma flow_view_elapse (dt : N) (w : World) :
  flow_view (elapse dt w) = flow_view w.
Proof.
  unfold elapse.
  change (flow_view (upd_rt ?f ?x)) with (flow_view x).
  apply flow_view_run_timers.
Qed.

Lemma form_view_hideError (w : World) :
  form_view (hideError w) = form_view w.
Proof. unfold hideError. cbn. by cases. Qed.

Lemma form_view_setLoadingState (b : bool) (w : World) :
  form_view (setLoadingState b w) = form_view w.
Proof. by destruct b. Qed.

Lemma error_view_setLoadingState (b : bool) (w : World) :
  error_view (setLoadingState b w) = error_view w.
Proof. by destruct b. Qed.

Lemma log_hideError (w : World) : log (rt (hideError w)) = log (rt w).
Proof. unfold hideError. cbn. by cases. Qed.

Lemma log_setLoadingState (b : bool) (w : World) :
  log (rt (setLoadingState b w)) = log (rt w).
Proof. by destruct b. Qed.

End Frames.

(** ** The timer invariant *)

Section TimerInvariant.

Lemma Forall_filter_bool {A} (P : A -> Prop) (f : A -> bool)
    (l : list A) :
  Forall P l -> Forall P (List.filter f l).
Proof.
  induction 1 as [|x l Hx Hl IH]; cbn; [constructor|].
  destruct (f x); [by constructor | exact IH].
Qed.

Lemma In_map_filter {A B} (g : A -> B) (f : A -> bool) (l : list A)
    (y : B) :
  In y (map g (List.filter f l)) -> In y (map g l).
Proof.
  induction l as [|x l IH]; cbn; [done|].
  destruct (f x); cbn; tauto.
Qed.

Lemma NoDup_map_filter {A B} (g : A -> B) (f : A -> bool) (l : list A) :
  NoDup (map g l) -> NoDup (map g (List.filter f l)).
Proof.
  induction l as [|x l IH]; cbn; [done|].
  intros Hnd. apply NoDup_cons in Hnd as [Hx Hl].
  destruct (f x); cbn; [|by apply IH].
  apply NoDup_cons. split; [|by apply IH].
  rewrite list_elem_of_In in *. intros Hin. apply Hx.
  by apply In_map_filter in Hin.
Qed.

Lemma timer_inv_view (w w' : World) :
  timer_view w' = timer_view w -> timer_inv w -> timer_inv w'.
Proof.
  unfold timer_view. intros [= Ht Hn He] [H1 H2 H3].
  split; rewrite ?Ht, ?Hn, ?He; done.
Qed.

Lemma filter_hide_nil (ts : list Timer) :
  Forall (fun t => is_hide_timer t = true ->
                   @None positive = Some (timer_id t)) ts ->
  List.filter is_hide_timer ts = [].
Proof.
  induction 1 as [|t ts Ht Hts IH]; cbn; [done|].
  destruct (is_hide_timer t); [by specialize (Ht eq_refl) | exact IH].
Qed.

(** An auto-dismiss timer can only be pending while [errorTimeout]
    holds a handle. *)
Lemma no_hide_timer_without_handle (w : World) :
  timer_inv w -> errorTimeout (app w) = None -> hide_timers w = [].
Proof.
  intros [_ _ Hown] Hnone. unfold hide_timers.
  apply filter_hide_nil. by rewrite <- Hnone.
Qed.

(** Clearing the timer [errorTimeout] holds leaves no auto-dismiss
    timer. *)
Lemma owned_filter (ts : list Timer) (id : positive)
    (et : option positive) :
  Forall (fun t => is_hide_timer t = true -> Some id = Some (timer_id t))
    ts ->
  Forall (fun t => is_hide_timer t = true -> et = Some (timer_id t))
    (List.filter (fun t => negb (Pos.eqb (timer_id t) id)) ts).
Proof.
  induction 1 as [|t ts Ht Hts IH]; cbn; [constructor|].
  destruct (Pos.eqb_spec (timer_id t) id) as [Heq|Hne]; cbn; [exact IH|].
  constructor; [|exact IH].
  intros Hh. specialize (Ht Hh). by inversion Ht.
Qed.

Lemma timer_inv_clearTimeout (id : positive) (w : World) :
  timer_inv w -> timer_inv (clearTimeout id w).
Proof.
  intros [H1 H2 H3]. split; cbn.
  - by apply Forall_filter_bool.
  - by apply NoDup_map_filter.
  - by apply Forall_filter_bool.
Qed.

Lemma timer_inv_hideError (w : World) :
  timer_inv w -> timer_inv (hideError w).
Proof.
  intros Hinv. unfold hideError. cbn.
  destruct (errorTimeout (app w)) as [id|] eqn:Het.
  - destruct Hinv as [H1 H2 H3]. split; cbn.
    + by apply Forall_filter_bool.
    + by apply NoDup_map_filter.
    + apply owned_filter. by rewrite <- Het.
  - by apply (timer_inv_view w).
Qed.

Lemma hideError_clears (w : World) :
  timer_inv w ->
  errorTimeout (app (hideError w)) = None /\
  hide_timers (hideError w) = [] /\
  hidden (errorMessage (dom (hideError w))).
Proof.
  intros Hinv.
  assert (Hnone : errorTimeout (app (hideError w)) = None).
  { unfold hideError. cbn.
    destruct (errorTimeout (app w)) eqn:Het; cbn; [done | exact Het]. }
  split; [exact Hnone|]. split.
  - apply no_hide_timer_without_handle; [|exact Hnone].
    by apply timer_inv_hideError.
  - unfold hideError, hidden. cbn.
    destruct (errorTimeout (app w)); cbn;
      apply elem_of_union_l, elem_of_singleton; reflexivity.
Qed.

(** A timer set now is fresh. *)
Lemma timer_inv_setTimeout_animation (delay : N) (w : World) :
  timer_inv w -> timer_inv (snd (setTimeout AnimationCallback delay w)).
Proof.
  intros [H1 H2 H3]. split; cbn.
  - apply Forall_app. split.
    + eapply Forall_impl; [exact H1|]. cbn. lia.
    + repeat constructor. cbn. lia.
  - rewrite map_app. cbn. apply NoDup_app. split; [done|]. split.
    + intros x Hx Hnew. apply list_elem_of_singleton in Hnew. subst x.
      apply list_elem_of_fmap in Hx as (t & Hid & Ht).
      rewrite Forall_forall in H1. specialize (H1 t Ht). lia.
    + apply NoDup_singleton.
  - apply Forall_app. split; [done|]. by repeat constructor.
Qed.

Lemma displayError_timers (message : jsstring) (w : World) :
  timers (rt (displayError message w)) =
    match errorTimeout (app w) with
    | Some id =>
        List.filter (fun t => negb (Pos.eqb (timer_id t) id))
          (timers (rt w))
    | None => timers (rt w)
    end ++
    [{| timer_id := next_timer (rt w);
        timer_due := now (rt w) + ERROR_DISPLAY_DURATION CONFIG;
        timer_cb := HideErrorCallback |}] /\
  next_timer (rt (displayError message w)) = Pos.succ (next_timer (rt w))
  /\ errorTimeout (app (displayError message w)) =
     Some (next_timer (rt w)).
Proof.
  unfold displayError. cbn. by destruct (errorTimeout (app w)).
Qed.

Lemma timer_inv_displayError (message : jsstring) (w : World) :
  timer_inv w -> timer_inv (displayError message w).
Proof.
  intros Hinv.
  destruct (displayError_timers message w) as (Hts & Hnt & Het).
  assert (Hold : exists old,
    timers (rt (displayError message w)) =
      old ++ [{| timer_id := next_timer (rt w);
                 timer_due := now (rt w) + ERROR_DISPLAY_DURATION CONFIG;
                 timer_cb := HideErrorCallback |}] /\
    Forall (fun t => (timer_id t < next_timer (rt w))%positive) old /\
    NoDup (map timer_id old) /\
    Forall (fun t => is_hide_timer t = false) old).
  { rewrite Hts. destruct (errorTimeout (app w)) as [id|] eqn:Hid.
    - eexists. split; [reflexivity|].
      destruct Hinv as [H1 H2 H3]. split; [by apply Forall_filter_bool|].
      split; [by apply NoDup_map_filter|].
      rewrite Hid in H3.
      assert (H3' := owned_filter _ id None H3).
      eapply Forall_impl; [exact H3'|]. cbn. intros t Ht.
      destruct (is_hide_timer t); [by specialize (Ht eq_refl) | done].
    - eexists. split; [reflexivity|].
      destruct Hinv as [H1 H2 H3]. split; [done|]. split; [done|].
      rewrite Hid in H3. eapply Forall_impl; [exact H3|]. cbn.
      intros t Ht.
      destruct (is_hide_timer t); [by specialize (Ht eq_refl) | done]. }
  destruct Hold as (old & Hts' & Hfresh & Hnd & Hnohide).
  split; rewrite Hts', ?Hnt, ?Het.
  - apply Forall_app. split.
    + eapply Forall_impl; [exact Hfresh|]. cbn. lia.
    + repeat constructor. cbn. lia.
  - rewrite map_app. cbn. apply NoDup_app. split; [done|]. split.
    + intros x Hx Hnew. apply list_elem_of_singleton in Hnew. subst x.
      apply list_elem_of_fmap in Hx as (t & Hid & Ht).
      rewrite Forall_forall in Hfresh. specialize (Hfresh t Ht). lia.
    + apply NoDup_singleton.
  - apply Forall_app. split.
    + eapply Forall_impl; [exact Hnohide|]. cbn. congruence.
    + by repeat constructor.
Qed.

(** After [displayError] exactly one auto-dismiss timer is pending, due
    [ERROR_DISPLAY_DURATION] from now, and the message shows. *)
Lemma displayError_sets (message : jsstring) (w : World) :
  timer_inv w ->
  hide_timers (displayError message w) =
    [{| timer_id := next_timer (rt w);
        timer_due := now (rt w) + ERROR_DISPLAY_DURATION CONFIG;
        timer_cb := HideErrorCallback |}] /\
  errorTimeout (app (displayError message w)) = Some (next_timer (rt w)) /\
  textContent (errorMessage (dom (displayError message w))) = message /\
  ~ hidden (errorMessage (dom (displayError message w))).
Proof.
  intros Hinv.
  destruct (displayError_timers message w) as (Hts & Hnt & Het).
  split; [|split; [exact Het|split]].
  - unfold hide_timers. rewrite Hts, List.filter_app. cbn.
    replace (List.filter is_hide_timer _) with (@nil Timer); [done|].
    symmetry. destruct Hinv as [_ _ H3]. apply filter_hide_nil.
    destruct (errorTimeout (app w)) as [id|] eqn:Hid.
    + by apply (owned_filter _ id None).
    + exact H3.
  - unfold displayError. cbn. by destruct (errorTimeout (app w)).
  - unfold displayError, hidden. cbn.
    destruct (errorTimeout (app w)); cbn;
      rewrite elem_of_difference, elem_of_singleton; tauto.
Qed.

Lemma timer_inv_fire (t : Timer) (w : World) :
  timer_inv w -> timer_inv (fire t w).
Proof.
  intros Hinv. unfold fire.
  apply (timer_inv_clearTimeout (timer_id t)) in Hinv.
  destruct (timer_cb t); [by apply timer_inv_hideError|].
  by apply (timer_inv_view (clearTimeout (timer_id t) w)).
Qed.

Lemma timer_inv_run_timers (fuel : nat) (t_end : N) (w : World) :
  timer_inv w -> timer_inv (run_timers fuel t_end w).
Proof.
  revert w. induction fuel as [|fuel IH]; intros w Hinv; [done|].
  cbn [run_timers]. destruct (next_due _) as [t|]; [|done].
  destruct (timer_due t <=? t_end); [|done].
  apply IH, timer_inv_fire. by apply (timer_inv_view w).
Qed.

Lemma timer_inv_elapse (dt : N) (w : World) :
  timer_inv w -> timer_inv (elapse dt w).
Proof.
  intros Hinv. unfold elapse.
  eapply timer_inv_view; [|by apply timer_inv_run_timers, Hinv].
  reflexivity.
Qed.

Lemma timer_inv_resetResults (w : World) :
  timer_inv w -> timer_inv (resetResults w).
Proof.
  intros Hinv. unfold resetResults. apply timer_inv_hideError.
  by apply (timer_inv_view w).
Qed.

Lemma timer_inv_validateInputs (w : World) :
  timer_inv w -> timer_inv (fst (validateInputs w)).
Proof.
  intros Hinv. rewrite validateInputs_first_failure.
  destruct (first_failure w); [|done]. cbn [fst].
  eapply timer_inv_view; [apply timer_view_focus|].
  by apply timer_inv_displayError.
Qed.

Lemma timer_inv_handleConversionRequest (w : World) :
  timer_inv w -> timer_inv (handleConversionRequest w).
Proof.
  intros Hinv. unfold handleConversionRequest.
  apply timer_inv_hideError, timer_inv_validateInputs in Hinv.
  destruct (validateInputs (hideError w)) as [w' valid]. cbn [fst] in Hinv.
  destruct valid; cbn [negb]; [|done].
  unfold fetchExchangeRate.
  eapply timer_inv_view; [|exact Hinv].
  by rewrite timer_view_fetch, timer_view_setLoadingState.
Qed.

Lemma timer_inv_conversion_failed (e : Exn) (w : World) :
  timer_inv w -> timer_inv (conversion_failed e w).
Proof.
  intros Hinv. unfold conversion_failed, console_error.
  eapply timer_inv_view; [|eapply timer_inv_displayError; exact Hinv].
  by rewrite timer_view_setLoadingState, timer_view_emit.
Qed.

Lemma timer_inv_displayConversionResults
    (c : jsstring) (rate : option number) (from to : jsstring)
    (w : World) :
  timer_inv w ->
  timer_inv (fst (displayConversionResults c rate from to w)).
Proof.
  intros Hinv. unfold displayConversionResults.
  destruct rate as [r|]; cbn [fst].
  - match goal with
    | |- context [setTimeout AnimationCallback ?d ?x] =>
        pose proof (timer_inv_setTimeout_animation d x) as Hs;
        destruct (setTimeout AnimationCallback d x) as [id w'] eqn:Hset
    end.
    cbn [fst]. apply Hs. by apply (timer_inv_view w).
  - by apply (timer_inv_view w).
Qed.

Lemma timer_inv_conversion_settled
    (a : number) (from to : jsstring) (o : FetchOutcome) (w : World) :
  timer_inv w -> timer_inv (conversion_settled a from to o w).
Proof.
  intros Hinv. unfold conversion_settled.
  destruct (fetchExchangeRate_settle to o) as [rate|e];
    [|by apply timer_inv_conversion_failed].
  unfold conversion_succeeded.
  match goal with
  | |- context [displayConversionResults ?c ?r ?f ?t ?x] =>
      pose proof (timer_inv_displayConversionResults c r f t x Hinv) as Hd;
      destruct (displayConversionResults c r f t x) as [w' [e|]]
  end; cbn [fst] in Hd.
  - by apply timer_inv_conversion_failed.
  - eapply timer_inv_view; [apply timer_view_setLoadingState | exact Hd].
Qed.

Lemma timer_inv_initialization_failed (e : Exn) (w : World) :
  timer_inv w -> timer_inv (initialization_failed e w).
Proof.
  intros Hinv. unfold initialization_failed, console_error.
  eapply timer_inv_view; [apply timer_view_emit|].
  by apply timer_inv_displayError.
Qed.

Lemma timer_inv_currencies_failed (e : Exn) (w : World) :
  timer_inv w -> timer_inv (currencies_failed e w).
Proof.
  intros Hinv. unfold currencies_failed, console_error.
  eapply timer_inv_view; [|eapply timer_inv_displayError; exact Hinv].
  by rewrite timer_view_setLoadingState, timer_view_emit.
Qed.

Lemma timer_inv_load_settled (o : FetchOutcome) (w : World) :
  timer_inv w -> timer_inv (load_settled o w).
Proof.
  intros Hinv. unfold load_settled.
  destruct (response_json o) as [data|e];
    [|by apply timer_inv_initialization_failed,
               timer_inv_currencies_failed].
  unfold currencies_loaded.
  destruct (not_success data);
    [by apply timer_inv_initialization_failed,
              timer_inv_currencies_failed|].
  match goal with
  | |- context [populateCurrencyDropdowns ?x] =>
      pose proof (timer_view_populate x) as Hp;
      destruct (populateCurrencyDropdowns x) as [w' [e|]]
  end; cbn [fst] in Hp.
  - apply timer_inv_initialization_failed, timer_inv_currencies_failed.
    eapply timer_inv_view; [exact Hp|]. by apply (timer_inv_view w).
  - unfold initialization_done.
    match goal with
    | |- context [setDefaultCurrencies ?x] =>
        pose proof (timer_view_setDefaultCurrencies x) as Hd;
        destruct (setDefaultCurrencies x) as [w'' [e|]]
    end; cbn [fst] in Hd.
    + apply timer_inv_initialization_failed.
      eapply timer_inv_view; [exact Hd|].
      eapply timer_inv_view; [|exact Hinv].
      unfold setupEventListeners.
      change (timer_view (upd_rt (set_listeners true) ?x))
        with (timer_view x).
      by rewrite timer_view_setLoadingState, Hp.
    + eapply timer_inv_view; [|exact Hinv].
      rewrite timer_view_focus, Hd. unfold setupEventListeners.
      change (timer_view (upd_rt (set_listeners true) ?x))
        with (timer_view x).
      by rewrite timer_view_setLoadingState, Hp.
Qed.

(** Every event keeps the timer invariant. *)
Lemma timer_inv_dispatch (ev : Event) (w : World) :
  timer_inv w -> timer_inv (dispatch ev w).
Proof.
  intros Hinv. destruct ev; cbn [dispatch].
  - destruct (initialized (rt w)); [done|].
    by apply (timer_inv_view w); [destruct w|].
  - destruct (btn_disabled _); [done|]. destruct (listeners _); [|done].
    by apply timer_inv_handleConversionRequest.
  - destruct (in_disabled _); [done|]. destruct (listeners _); [|done].
    unfold on_keypress. destruct (str_eqb _ _); [|done].
    by apply timer_inv_handleConversionRequest.
  - destruct (in_disabled _); [done|]. cbn.
    destruct (listeners _); [|by apply (timer_inv_view w)].
    unfold handleAmountInput. apply timer_inv_hideError.
    by apply (timer_inv_view w).
  - destruct (_ || _); [done|]. cbn.
    destruct (listeners _); [|by apply (timer_inv_view w)].
    apply timer_inv_resetResults. by apply (timer_inv_view w).
  - destruct (_ || _); [done|]. cbn.
    destruct (listeners _); [|by apply (timer_inv_view w)].
    apply timer_inv_resetResults. by apply (timer_inv_view w).
  - destruct (find_request id w) as [q|]; [|done].
    assert (timer_inv (remove_request id w)) as Hrem
      by by apply (timer_inv_view w).
    destruct (req_cont q).
    + by apply timer_inv_load_settled.
    + by apply timer_inv_conversion_settled.
  - by apply timer_inv_elapse.
  - unfold on_error, console_error. apply timer_inv_displayError.
    by apply (timer_inv_view w).
  - unfold on_unhandledrejection, console_error.
    apply timer_inv_displayError. by apply (timer_inv_view w).
Qed.

Lemma timer_inv_script_loaded (t0 : N) (page : DOM) :
  timer_inv (script_loaded t0 page).
Proof. split; cbn; constructor. Qed.

Lemma reachable_timer_inv (w : World) : reachable w -> timer_inv w.
Proof.
  induction 1 as [t0 page|ev w Hw IH].
  - apply timer_inv_script_loaded.
  - by apply timer_inv_dispatch.
Qed.

(** At most one auto-dismiss timer is pending. *)
Lemma timer_inv_one_hide_timer (w : World) :
  timer_inv w -> (length (hide_timers w) <= 1)%nat.
Proof.
  intros [_ Hnd Hown]. unfold hide_timers.
  destruct (errorTimeout (app w)) as [id|] eqn:Hid.
  - revert Hnd Hown. generalize (timers (rt w)) as ts.
    assert (Hnone : forall ts : list Timer,
      ~ In id (map timer_id ts) ->
      Forall (fun t => is_hide_timer t = true ->
                       Some id = Some (timer_id t)) ts ->
      List.filter is_hide_timer ts = []).
    { induction ts as [|t ts IH]; cbn; [done|].
      intros Hnin Hown. inversion Hown as [|? ? Ht Hts]; subst.
      destruct (is_hide_timer t).
      - specialize (Ht eq_refl). exfalso. apply Hnin. left.
        by inversion Ht.
      - apply IH; [tauto | done]. }
    induction ts as [|t ts IH]; cbn; [lia|].
    intros Hnd Hown. apply NoDup_cons in Hnd as [Hnin Hnd].
    inversion Hown as [|? ? Ht Hts]; subst.
    destruct (is_hide_timer t); [|by apply IH].
    specialize (Ht eq_refl). inversion Ht; subst.
    rewrite Hnone; [cbn; lia | | done].
    by rewrite <- list_elem_of_In.
  - rewrite filter_hide_nil; [cbn; lia | exact Hown].
Qed.

End TimerInvariant.

(** ** The request invariant *)

Section FlowInvariant.

Lemma flow_inv_view (w w' : World) :
  flow_view w' = flow_view w -> flow_inv w -> flow_inv w'.
Proof.
  unfold flow_view. intros Hv [H1 H2 H3 H4 H5].
  assert (Hq : inflight (rt w') = inflight (rt w)) by congruence.
  assert (Hn : next_request (rt w') = next_request (rt w)) by congruence.
  assert (Hl : isLoading (app w') = isLoading (app w)) by congruence.
  assert (Hi : initialized (rt w') = initialized (rt w)) by congruence.
  assert (Hs : listeners (rt w') = listeners (rt w)) by congruence.
  split; rewrite ?Hq, ?Hn, ?Hl, ?Hi, ?Hs; try done.
  intros Hini. destruct (H4 Hini) as (? & ? & ? & ?).
  unfold controls_disabled. repeat split; congruence.
Qed.

(** Nothing in flight, nothing loading, the controls enabled. *)
Lemma flow_inv_idle (w : World) (n : N) (l : bool) :
  flow_view w = ([], n, false, true, l, (false, false, false, false)) ->
  flow_inv w.
Proof.
  unfold flow_view. intros [= Hq Hn Hl Hi Hs Hb Ha Hf Ht].
  split; rewrite ?Hq, ?Hl, ?Hi; try done; cbn; try lia.
Qed.

(** One request in flight, the controls disabled. *)
Lemma flow_inv_loading (w : World) (q : Request) (n : N) (l : bool) :
  flow_view w = ([q], n, true, true, l, (true, true, true, true)) ->
  req_id q < n -> flow_inv w.
Proof.
  unfold flow_view. intros [= Hq Hn Hl Hi Hs Hb Ha Hf Ht] Hid.
  split; rewrite ?Hq, ?Hl, ?Hi, ?Hn; try done; cbn; try lia.
  by repeat constructor.
Qed.

Lemma flow_inv_not_loading (w : World) :
  flow_inv w -> isLoading (app w) = false -> inflight (rt w) = [].
Proof. intros [_ _ H _ _]. exact H. Qed.

Lemma flow_inv_listening (w : World) :
  flow_inv w -> listeners (rt w) = true -> initialized (rt w) = true.
Proof.
  intros [_ _ _ _ H] Hl. destruct (initialized (rt w)); [done|].
  destruct (H eq_refl). congruence.
Qed.

Lemma flow_inv_loading_initialized (w : World) :
  flow_inv w -> isLoading (app w) = true -> initialized (rt w) = true.
Proof.
  intros [_ _ _ _ H] Hl. destruct (initialized (rt w)); [done|].
  destruct (H eq_refl). congruence.
Qed.

(** While loading, all four controls are disabled. *)
Lemma flow_inv_loading_disabled (w : World) :
  flow_inv w -> isLoading (app w) = true ->
  controls_disabled true (dom w).
Proof.
  intros Hinv Hl. pose proof (flow_inv_loading_initialized w Hinv Hl) as Hi.
  destruct Hinv as [_ _ _ H _]. rewrite <- Hl. by apply H.
Qed.

(** An enabled control on a page whose listeners are registered: the
    page is idle. *)
Lemma flow_inv_enabled_idle (w : World) :
  flow_inv w -> listeners (rt w) = true ->
  btn_disabled (convertBtn (dom w)) = false \/
  in_disabled (amount (dom w)) = false ->
  isLoading (app w) = false /\ inflight (rt w) = [] /\
  initialized (rt w) = true /\ controls_disabled false (dom w).
Proof.
  intros Hinv Hl Hen.
  pose proof (flow_inv_listening w Hinv Hl) as Hi.
  pose proof (fi_controls w Hinv Hi) as Hc.
  assert (Hld : isLoading (app w) = false).
  { destruct Hc as (Hb & Ha & _). destruct Hen; congruence. }
  rewrite Hld in Hc. repeat split; try apply Hc; try done.
  by apply flow_inv_not_loading.
Qed.

Lemma flow_view_setLoadingState (b : bool) (w : World) :
  flow_view (setLoadingState b w) = loading_view b (flow_view w).
Proof. by destruct b. Qed.

Lemma flow_view_fetch (url : jsstring) (k : Continuation) (w : World) :
  flow_view (fetch url k w) =
  let '(qs, n, ld, ini, l, fl) := flow_view w in
  (qs ++ [{| req_id := n; req_url := url; req_cont := k |}],
   N.succ n, ld, ini, l, fl).
Proof. reflexivity. Qed.

Lemma flow_view_emit (e : Effect) (w : World) :
  flow_view (emit e w) = flow_view w.
Proof. reflexivity. Qed.

Lemma flow_view_populate (w : World) :
  flow_view (fst (populateCurrencyDropdowns w)) = flow_view w.
Proof.
  unfold populateCurrencyDropdowns.
  destruct (currencies (app w)) as [rates|]; [|done]. cbn [fst].
  generalize (sorted_keys rates). intros codes.
  set (w0 := upd_dom _ w). change (flow_view w) with (flow_view w0).
  generalize w0. clear w0.
  induction codes as [|c codes IH]; intros w0; [done|].
  cbn [fold_left]. by rewrite IH.
Qed.

Lemma flow_view_assign_from (v : jsstring) (w : World) :
  flow_view
    (upd_dom (fun d => set_fromCurrency (assign_value v (fromCurrency d)) d)
       w) = flow_view w.
Proof.
  unfold flow_view, assign_value. cbn.
  by destruct (bool_decide _).
Qed.

Lemma flow_view_assign_to (v : jsstring) (w : World) :
  flow_view
    (upd_dom (fun d => set_toCurrency (assign_value v (toCurrency d)) d)
       w) = flow_view w.
Proof.
  unfold flow_view, assign_value. cbn.
  by destruct (bool_decide _).
Qed.

Lemma flow_view_setDefaultCurrencies (w : World) :
  flow_view (fst (setDefaultCurrencies w)) = flow_view w.
Proof.
  unfold setDefaultCurrencies.
  destruct (currencies (app w)) as [rates|]; [|done]. cbn [fst].
  destruct (has_rate rates (DEFAULT_TO_CURRENCY CONFIG));
    destruct (has_rate rates (DEFAULT_FROM_CURRENCY CONFIG));
    by rewrite ?flow_view_assign_to, ?flow_view_assign_from.
Qed.

Lemma flow_view_conversion_failed (e : Exn) (w : World) :
  flow_view (conversion_failed e w) = loading_view false (flow_view w).
Proof.
  unfold conversion_failed, console_error.
  by rewrite flow_view_setLoadingState, flow_view_emit,
    flow_view_displayError.
Qed.

Lemma flow_view_conversion_settled
    (a : number) (from to : jsstring) (o : FetchOutcome) (w : World) :
  flow_view (conversion_settled a from to o w) =
  loading_view false (flow_view w).
Proof.
  unfold conversion_settled.
  destruct (fetchExchangeRate_settle to o) as [rate|e];
    [|apply flow_view_conversion_failed].
  unfold conversion_succeeded.
  match goal with
  | |- context [displayConversionResults ?c ?r ?f ?t ?x] =>
      pose proof (flow_view_displayConversionResults c r f t x) as Hd;
      destruct (displayConversionResults c r f t x) as [w' [e|]]
  end; cbn [fst] in Hd.
  - by rewrite flow_view_conversion_failed, Hd.
  - by rewrite flow_view_setLoadingState, Hd.
Qed.

Lemma flow_view_initialization_failed (e : Exn) (w : World) :
  flow_view (initialization_failed e w) = flow_view w.
Proof.
  unfold initialization_failed, console_error.
  by rewrite flow_view_emit, flow_view_displayError.
Qed.

Lemma flow_view_currencies_failed (e : Exn) (w : World) :
  flow_view (currencies_failed e w) = loading_view false (flow_view w).
Proof.
  unfold currencies_failed, console_error.
  by rewrite flow_view_setLoadingState, flow_view_emit,
    flow_view_displayError.
Qed.

Lemma flow_view_load_settled (o : FetchOutcome) (w : World) :
  flow_view (load_settled o w) = loading_view false (flow_view w) \/
  flow_view (load_settled o w) =
    listening_view (loading_view false (flow_view w)).
Proof.
  unfold load_settled.
  destruct (response_json o) as [data|e];
    [|left; by rewrite flow_view_initialization_failed,
                flow_view_currencies_failed].
  unfold currencies_loaded.
  destruct (not_success data);
    [left; by rewrite flow_view_initialization_failed,
               flow_view_currencies_failed|].
  match goal with
  | |- context [populateCurrencyDropdowns ?x] =>
      pose proof (flow_view_populate x) as Hp;
      destruct (populateCurrencyDropdowns x) as [w' [e|]]
  end; cbn [fst] in Hp.
  - left. by rewrite flow_view_initialization_failed,
      flow_view_currencies_failed, Hp.
  - right. unfold initialization_done.
    match goal with
    | |- context [setDefaultCurrencies ?x] =>
        pose proof (flow_view_setDefaultCurrencies x) as Hd;
        destruct (setDefaultCurrencies x) as [w'' [e|]]
    end; cbn [fst] in Hd.
    + rewrite flow_view_initialization_failed, Hd.
      unfold setupEventListeners.
      change (flow_view (upd_rt (set_listeners true) ?x))
        with (listening_view (flow_view x)).
      by rewrite flow_view_setLoadingState, Hp.
    + rewrite flow_view_focus, Hd. unfold setupEventListeners.
      change (flow_view (upd_rt (set_listeners true) ?x))
        with (listening_view (flow_view x)).
      by rewrite flow_view_setLoadingState, Hp.
Qed.

(** The request a valid submission sends. *)
Lemma flow_inv_handleConversionRequest (w : World) :
  flow_inv w -> initialized (rt w) = true -> isLoading (app w) = false ->
  flow_inv (handleConversionRequest w).
Proof.
  intros Hinv Hi Hl. unfold handleConversionRequest.
  pose proof (flow_view_validateInputs (hideError w)) as Hv.
  rewrite flow_view_hideError in Hv.
  destruct (validateInputs (hideError w)) as [w' valid]. cbn [fst] in Hv.
  destruct valid; cbn [negb]; [|by apply (flow_inv_view w)].
  pose proof (flow_inv_not_loading w Hinv Hl) as Hq.
  unfold fetchExchangeRate.
  match goal with
  | |- flow_inv (fetch ?u ?k ?x) =>
      apply (flow_inv_loading _
               {| req_id := next_request (rt w); req_url := u;
                  req_cont := k |}
               (N.succ (next_request (rt w))) (listeners (rt w)));
        [|cbn; lia]
  end.
  rewrite flow_view_fetch, flow_view_setLoadingState, Hv.
  unfold flow_view. rewrite Hq, Hi. reflexivity.
Qed.

(** The request in flight is the one the response is for. *)
Lemma find_request_only (id : N) (q : Request) (w : World) :
  flow_inv w -> find_request id w = Some q ->
  inflight (rt w) = [q] /\ req_id q = id /\
  inflight (rt (remove_request id w)) = [].
Proof.
  intros [_ Hone _ _ _] Hf. unfold find_request in Hf.
  unfold remove_request. cbn.
  destruct (inflight (rt w)) as [|q0 [|q1 qs]]; cbn in *; [done| |lia].
  destruct (N.eqb_spec (req_id q0) id); [|done].
  by inversion Hf; subst.
Qed.

(** Every event keeps the request invariant. *)
Lemma flow_inv_dispatch (ev : Event) (w : World) :
  flow_inv w -> flow_inv (dispatch ev w).
Proof.
  intros Hinv. destruct ev; cbn [dispatch].
  - destruct (initialized (rt w)) eqn:Hi; [done|].
    destruct (fi_before w Hinv Hi) as [Hl Hld].
    pose proof (flow_inv_not_loading w Hinv Hld) as Hq.
    unfold initializeApp, loadAvailableCurrencies.
    match goal with
    | |- flow_inv (fetch ?u ?k ?x) =>
        apply (flow_inv_loading _
                 {| req_id := next_request (rt w); req_url := u;
                    req_cont := k |}
                 (N.succ (next_request (rt w))) (listeners (rt w)));
          [|cbn; lia]
    end.
    unfold flow_view, fetch. cbn. by rewrite Hq.
  - destruct (btn_disabled _) eqn:Hb; [done|].
    destruct (listeners _) eqn:Hs; [|done].
    destruct (flow_inv_enabled_idle w Hinv Hs) as (? & ? & ? & ?);
      [by left|].
    by apply flow_inv_handleConversionRequest.
  - destruct (in_disabled _) eqn:Hb; [done|].
    destruct (listeners _) eqn:Hs; [|done].
    unfold on_keypress. destruct (str_eqb _ _); [|done].
    destruct (flow_inv_enabled_idle w Hinv Hs) as (? & ? & ? & ?);
      [by right|].
    by apply flow_inv_handleConversionRequest.
  - destruct (in_disabled _); [done|]. cbn.
    destruct (listeners _); [|by apply (flow_inv_view w)].
    unfold handleAmountInput. eapply flow_inv_view; [|exact Hinv].
    by rewrite flow_view_hideError.
  - destruct (_ || _); [done|]. cbn.
    destruct (listeners _); [|by apply (flow_inv_view w)].
    eapply flow_inv_view; [|exact Hinv].
    by rewrite flow_view_resetResults.
  - destruct (_ || _); [done|]. cbn.
    destruct (listeners _); [|by apply (flow_inv_view w)].
    eapply flow_inv_view; [|exact Hinv].
    by rewrite flow_view_resetResults.
  - destruct (find_request id w) as [q|] eqn:Hf; [|done].
    destruct (find_request_only id q w Hinv Hf) as (Hq & Hid & Hrem).
    assert (Hld : isLoading (app w) = true).
    { destruct (isLoading (app w)) eqn:Hld; [done|].
      apply (flow_inv_not_loading w Hinv) in Hld. congruence. }
    pose proof (flow_inv_loading_initialized w Hinv Hld) as Hi.
    assert (Hbase : loading_view false (flow_view (remove_request id w)) =
      ([], next_request (rt w), false, true, listeners (rt w),
       (false, false, false, false))).
    { unfold flow_view at 1. rewrite Hrem. cbn. by rewrite Hi. }
    destruct (req_cont q).
    + destruct (flow_view_load_settled o (remove_request id w)) as [Hv|Hv];
        rewrite Hbase in Hv; eapply flow_inv_idle; exact Hv.
    + eapply flow_inv_idle.
      rewrite flow_view_conversion_settled. exact Hbase.
  - eapply flow_inv_view; [|exact Hinv]. apply flow_view_elapse.
  - eapply flow_inv_view; [|exact Hinv].
    unfold on_error, console_error.
    by rewrite flow_view_displayError, flow_view_emit.
  - eapply flow_inv_view; [|exact Hinv].
    unfold on_unhandledrejection, console_error.
    by rewrite flow_view_displayError, flow_view_emit.
Qed.

Lemma flow_inv_script_loaded (t0 : N) (page : DOM) :
  flow_inv (script_loaded t0 page).
Proof. split; cbn; try done; try lia. Qed.

Lemma reachable_flow_inv (w : World) : reachable w -> flow_inv w.
Proof.
  induction 1 as [t0 page|ev w Hw IH].
  - apply flow_inv_script_loaded.
  - by apply flow_inv_dispatch.
Qed.

Lemma reachable_run (evs : list Event) (w : World) :
  reachable w -> reachable (run evs w).
Proof.
  revert w. induction evs as [|ev evs IH]; intros w Hw; [done|].
  cbn. apply IH. by constructor.
Qed.

Lemma sample_ready_reachable (text : jsstring) :
  reachable (sample_ready text).
Proof. unfold sample_ready. apply reachable_run, reach_loaded. Qed.

Lemma sample_loading_reachable : reachable sample_loading.
Proof.
  unfold sample_loading. apply reachable_run, sample_ready_reachable.
Qed.

End FlowInvariant.

(** ** Time passing *)

Section Elapse.

Lemma next_due_In (ts : list Timer) (t : Timer) :
  next_due ts = Some t -> In t ts.
Proof.
  revert t. induction ts as [|t0 ts IH]; intros t; cbn; [done|].
  destruct (next_due ts) as [t'|].
  - destruct (timer_due t' <? timer_due t0); intros [= <-]; auto.
  - intros [= <-]. auto.
Qed.

Lemma next_due_None (ts : list Timer) : next_due ts = None -> ts = [].
Proof.
  destruct ts as [|t0 ts]; cbn; [done|].
  destruct (next_due ts) as [t'|]; [|done].
  by destruct (timer_due t' <? timer_due t0).
Qed.

(** No timer is due before the one [next_due] picks. *)
Lemma next_due_least (ts : list Timer) (t : Timer) :
  next_due ts = Some t ->
  Forall (fun t' => timer_due t <= timer_due t') ts.
Proof.
  revert t. induction ts as [|t0 ts IH]; intros t; cbn; [constructor|].
  destruct (next_due ts) as [t'|] eqn:Hn.
  - specialize (IH t' eq_refl).
    destruct (N.ltb_spec (timer_due t') (timer_due t0)); intros [= <-].
    + constructor; [lia | exact IH].
    + constructor; [lia|].
      eapply Forall_impl; [exact IH|]. cbn. lia.
  - intros [= <-]. apply next_due_None in Hn. subst ts.
    repeat constructor. lia.
Qed.

Lemma filter_length_le {A} (f : A -> bool) (l : list A) :
  (length (List.filter f l) <= length l)%nat.
Proof.
  induction l as [|x l IH]; cbn; [lia|]. destruct (f x); cbn; lia.
Qed.

Lemma filter_length_lt {A} (f : A -> bool) (l : list A) (x : A) :
  In x l -> f x = false -> (length (List.filter f l) < length l)%nat.
Proof.
  induction l as [|y l IH]; cbn; [done|].
  intros [->|Hin] Hx.
  - rewrite Hx. pose proof (filter_length_le f l). lia.
  - specialize (IH Hin Hx). destruct (f y); cbn; lia.
Qed.

Lemma hideError_timers_le (w : World) :
  (length (timers (rt (hideError w))) <= length (timers (rt w)))%nat.
Proof.
  unfold hideError. cbn. destruct (errorTimeout (app w)); cbn; [|lia].
  apply filter_length_le.
Qed.

(** A timer that fires leaves the list, and none joins it. *)
Lemma fire_timers_lt (t : Timer) (w : World) :
  In t (timers (rt w)) ->
  (length (timers (rt (fire t w))) < length (timers (rt w)))%nat.
Proof.
  intros Hin. unfold fire.
  assert (Hlt : (length (timers (rt (clearTimeout (timer_id t) w))) <
                 length (timers (rt w)))%nat).
  { cbn. apply (filter_length_lt _ _ t Hin).
    by rewrite Pos.eqb_refl. }
  destruct (timer_cb t); [|exact Hlt].
  pose proof (hideError_timers_le (clearTimeout (timer_id t) w)). lia.
Qed.

(** With as many rounds as there are timers, none that is due is left:
    the fuel of [elapse] suffices. *)
Lemma run_timers_complete (fuel : nat) (t_end : N) (w : World) :
  (length (timers (rt w)) <= fuel)%nat ->
  Forall (fun t => t_end < timer_due t)
    (timers (rt (run_timers fuel t_end w))).
Proof.
  revert w. induction fuel as [|fuel IH]; intros w Hlen; cbn.
  - destruct (timers (rt w)); [constructor | cbn in Hlen; lia].
  - destruct (next_due (timers (rt w))) as [t|] eqn:Hn.
    + destruct (N.leb_spec (timer_due t) t_end) as [Hle|Hgt].
      * apply IH.
        pose proof (fire_timers_lt t
          (upd_rt (fun r => set_now (N.max (now r) (timer_due t)) r) w)
          (next_due_In _ _ Hn)) as Hlt.
        cbn in Hlt |- *. lia.
      * eapply Forall_impl; [exact (next_due_least _ _ Hn)|].
        cbn. lia.
    + apply next_due_None in Hn. rewrite Hn. constructor.
Qed.

Lemma elapse_complete (dt : N) (w : World) :
  Forall (fun t => now (rt w) + dt < timer_due t)
    (timers (rt (elapse dt w))).
Proof. unfold elapse. cbn. by apply run_timers_complete. Qed.

(** No callback of the script sets a timer. *)
Lemma next_timer_run_timers (fuel : nat) (t_end : N) (w : World) :
  next_timer (rt (run_timers fuel t_end w)) = next_timer (rt w).
Proof.
  revert w. induction fuel as [|fuel IH]; intros w; [done|].
  cbn [run_timers]. destruct (next_due _) as [t|]; [|done].
  destruct (timer_due t <=? t_end); [|done].
  rewrite IH. unfold fire. destruct (timer_cb t); [|done].
  unfold hideError. cbn. by destruct (errorTimeout (app w)).
Qed.

Lemma next_timer_elapse (dt : N) (w : World) :
  next_timer (rt (elapse dt w)) = next_timer (rt w).
Proof. unfold elapse. cbn. apply next_timer_run_timers. Qed.

Lemma now_elapse (dt : N) (w : World) :
  now (rt (elapse dt w)) = now (rt w) + dt.
Proof. reflexivity. Qed.

(** Distinct handles: two timers of the list with one handle are one
    timer. *)
Lemma NoDup_map_eq {A B} (g : A -> B) (l : list A) (a b : A) :
  NoDup (map g l) -> In a l -> In b l -> g a = g b -> a = b.
Proof.
  induction l as [|x l IH]; cbn; [done|].
  intros Hnd Ha Hb Hab. apply NoDup_cons in Hnd as [Hx Hnd].
  rewrite list_elem_of_In in Hx.
  destruct Ha as [->|Ha], Hb as [->|Hb]; [done| | |by apply IH].
  - exfalso. apply Hx. rewrite Hab. by apply in_map.
  - exfalso. apply Hx. rewrite <- Hab. by apply in_map.
Qed.

Lemma filter_hide_clear (ts : list Timer) (t : Timer) :
  NoDup (map timer_id ts) -> In t ts -> is_hide_timer t = false ->
  List.filter is_hide_timer
    (List.filter (fun t' => negb (Pos.eqb (timer_id t') (timer_id t))) ts)
  = List.filter is_hide_timer ts.
Proof.
  intros Hnd Hin Hcb.
  assert (Hall : forall t', In t' ts -> is_hide_timer t' = true ->
                 negb (Pos.eqb (timer_id t') (timer_id t)) = true).
  { intros t' Hin' Hh. destruct (Pos.eqb_spec (timer_id t') (timer_id t));
      [|done].
    assert (t' = t) by by apply (NoDup_map_eq timer_id ts).
    congruence. }
  clear Hnd Hin. induction ts as [|t0 ts IH]; cbn; [done|].
  destruct (negb (Pos.eqb (timer_id t0) (timer_id t))) eqn:Hk; cbn.
  - rewrite IH; [done|]. intros t' Hin' Hh'. apply Hall; [by right | done].
  - destruct (is_hide_timer t0) eqn:Hh.
    + rewrite Hall in Hk; [done | by left | done].
    + apply IH. intros t' Hin' Hh'. apply Hall; [by right | done].
Qed.

(** Firing a timer that is not the auto-dismiss timer leaves the error
    box, the handle and the auto-dismiss timer as they are. *)
Lemma fire_other (t : Timer) (w : World) :
  timer_inv w -> In t (timers (rt w)) -> is_hide_timer t = false ->
  error_view (fire t w) = error_view w /\
  errorTimeout (app (fire t w)) = errorTimeout (app w) /\
  hide_timers (fire t w) = hide_timers w.
Proof.
  intros [_ Hnd _] Hin Hcb. unfold fire.
  pose proof (filter_hide_clear _ t Hnd Hin Hcb) as Hf.
  unfold is_hide_timer in Hcb.
  destruct (timer_cb t); [done|]. repeat split. exact Hf.
Qed.

(** While no auto-dismiss timer is due, passing time changes nothing
    about the error. *)
Lemma run_timers_error_kept (fuel : nat) (t_end : N) (w : World) :
  timer_inv w ->
  Forall (fun t => t_end < timer_due t) (hide_timers w) ->
  error_view (run_timers fuel t_end w) = error_view w /\
  errorTimeout (app (run_timers fuel t_end w)) = errorTimeout (app w) /\
  hide_timers (run_timers fuel t_end w) = hide_timers w.
Proof.
  revert w. induction fuel as [|fuel IH]; intros w Hinv Hlate; [done|].
  cbn [run_timers].
  destruct (next_due (timers (rt w))) as [t|] eqn:Hn; [|done].
  destruct (N.leb_spec (timer_due t) t_end) as [Hle|Hgt]; [|done].
  set (w0 := upd_rt (fun r => set_now (N.max (now r) (timer_due t)) r) w).
  assert (Hinv0 : timer_inv w0) by by apply (timer_inv_view w).
  assert (Hin : In t (timers (rt w0))) by by apply next_due_In.
  assert (Hcb : is_hide_timer t = false).
  { destruct (is_hide_timer t) eqn:Hh; [|done].
    rewrite Forall_forall in Hlate.
    assert (t_end < timer_due t); [|lia].
    apply Hlate. unfold hide_timers.
    apply list_elem_of_In, filter_In. split; [by apply next_due_In|done]. }
  destruct (fire_other t w0 Hinv0 Hin Hcb) as (He & Ht & Hh).
  destruct (IH (fire t w0)) as (He' & Ht' & Hh').
  - by apply timer_inv_fire.
  - by rewrite Hh.
  - rewrite He', Ht', Hh', He, Ht, Hh. done.
Qed.

(** When every pending auto-dismiss timer is due at [d], then at [d]
    the error is hidden and the handle cleared. *)
Lemma run_timers_error_closed (fuel : nat) (t_end : N) (w : World) :
  timer_inv w ->
  (hide_timers w = [] ->
   hidden (errorMessage (dom w)) /\ errorTimeout (app w) = None) ->
  Forall (fun t => timer_due t <= t_end) (hide_timers w) ->
  let w' := run_timers fuel t_end w in
  (hide_timers w' = [] ->
   hidden (errorMessage (dom w')) /\ errorTimeout (app w') = None) /\
  Forall (fun t => timer_due t <= t_end) (hide_timers w').
Proof.
  revert w. induction fuel as [|fuel IH]; intros w Hinv Hj Hdue; [done|].
  cbn [run_timers].
  destruct (next_due (timers (rt w))) as [t|] eqn:Hn; [|done].
  destruct (N.leb_spec (timer_due t) t_end) as [Hle|Hgt]; [|done].
  set (w0 := upd_rt (fun r => set_now (N.max (now r) (timer_due t)) r) w).
  assert (Hinv0 : timer_inv w0) by by apply (timer_inv_view w).
  assert (Hin : In t (timers (rt w0))) by by apply next_due_In.
  apply IH; [by apply timer_inv_fire| |].
  - destruct (is_hide_timer t) eqn:Hh.
    + intros _. unfold fire. unfold is_hide_timer in Hh.
      destruct (timer_cb t); [|done].
      destruct (hideError_clears (clearTimeout (timer_id t) w0))
        as (H1 & H2 & H3); [by apply timer_inv_clearTimeout|]. done.
    + destruct (fire_other t w0 Hinv0 Hin Hh) as (He & Ht & Hhide).
      rewrite Hhide, Ht. unfold error_view in He. rewrite He. exact Hj.
  - destruct (is_hide_timer t) eqn:Hh.
    + unfold fire. unfold is_hide_timer in Hh.
      destruct (timer_cb t); [|done].
      destruct (hideError_clears (clearTimeout (timer_id t) w0))
        as (H1 & H2 & H3); [by apply timer_inv_clearTimeout|].
      rewrite H2. constructor.
    + destruct (fire_other t w0 Hinv0 Hin Hh) as (He & Ht & Hhide).
      by rewrite Hhide.
Qed.

End Elapse.

(** ** Error display, currency change and amount input *)

Section ErrorDisplay.

Lemma now_displayError (message : jsstring) (w : World) :
  now (rt (displayError message w)) = now (rt w).
Proof. unfold displayError. cbn. by destruct (errorTimeout (app w)). Qed.

Lemma In_hide_timers (t : Timer) (w : World) :
  In t (hide_timers w) -> In t (timers (rt w)).
Proof. unfold hide_timers. rewrite filter_In. tauto. Qed.

(** C7: an error message shows until its timer fires, exactly
    [ERROR_DISPLAY_DURATION] (5000 ms) after [displayError], when it is
    hidden and the handle cleared; a second error before that leaves
    one timer, due a full duration after the second error; in every
    reachable state at most one auto-dismiss timer is pending. *)
Theorem C7_error_auto_dismiss
    (w : World) (message : jsstring) (Hw : reachable w) :
  let D := ERROR_DISPLAY_DURATION CONFIG in
  let w1 := displayError message w in
  D = 5000 /\
  (~ hidden (errorMessage (dom w1)) /\
   textContent (errorMessage (dom w1)) = message /\
   hide_timers w1 = [hide_timer (next_timer (rt w)) (now (rt w) + D)] /\
   errorTimeout (app w1) = Some (next_timer (rt w))) /\
  (forall dt, dt < D ->
     ~ hidden (errorMessage (dom (elapse dt w1))) /\
     textContent (errorMessage (dom (elapse dt w1))) = message /\
     hide_timers (elapse dt w1) = hide_timers w1) /\
  (hidden (errorMessage (dom (elapse D w1))) /\
   errorTimeout (app (elapse D w1)) = None /\
   hide_timers (elapse D w1) = []) /\
  (forall dt message2, dt < D ->
     hide_timers (displayError message2 (elapse dt w1)) =
     [hide_timer (next_timer (rt w1)) (now (rt w) + dt + D)]) /\
  (length (hide_timers w) <= 1)%nat.
Proof.
  intros D w1. pose proof (reachable_timer_inv w Hw) as Hinv.
  assert (Hinv1 : timer_inv w1) by by apply timer_inv_displayError.
  destruct (displayError_sets message w Hinv) as (Hh & Het & Htext & Hvis).
  fold w1 in Hh, Het, Htext, Hvis. fold D in Hh.
  pose proof (now_displayError message w) as Hnow. fold w1 in Hnow.
  split; [reflexivity|]. split; [done|]. split; [|split; [|split]].
  - intros dt Hdt. unfold elapse.
    destruct (run_timers_error_kept (length (timers (rt w1)))
                (now (rt w1) + dt) w1 Hinv1) as (He & _ & Hk).
    { rewrite Hh, Hnow. repeat constructor. cbn. lia. }
    unfold error_view in He.
    change (dom (upd_rt ?f ?x)) with (dom x).
    change (hide_timers (upd_rt ?f ?x)) with (hide_timers x).
    rewrite He, Hk. done.
  - unfold elapse.
    set (w2 := run_timers (length (timers (rt w1))) (now (rt w1) + D) w1).
    destruct (run_timers_error_closed (length (timers (rt w1)))
                (now (rt w1) + D) w1 Hinv1) as (Hclosed & Hdue).
    { rewrite Hh. done. }
    { rewrite Hh, Hnow. repeat constructor. cbn. lia. }
    fold w2 in Hclosed, Hdue.
    assert (Hnone : hide_timers w2 = []).
    { pose proof (run_timers_complete (length (timers (rt w1)))
                    (now (rt w1) + D) w1 (le_n _)) as Hlate.
      fold w2 in Hlate. rewrite Forall_forall in Hlate, Hdue.
      destruct (hide_timers w2) as [|t ts] eqn:Hts; [done|].
      assert (Hin : In t (hide_timers w2)) by (rewrite Hts; by left).
      assert (timer_due t <= now (rt w1) + D)
        by (apply Hdue; by left).
      assert (now (rt w1) + D < timer_due t)
        by by apply Hlate, list_elem_of_In, In_hide_timers.
      lia. }
    destruct (Hclosed Hnone) as [Hhid Hnull].
    change (hide_timers (upd_rt ?f ?x)) with (hide_timers x).
    change (dom (upd_rt ?f ?x)) with (dom x).
    change (app (upd_rt ?f ?x)) with (app x).
    done.
  - intros dt message2 Hdt.
    assert (Hinv2 : timer_inv (elapse dt w1)) by by apply timer_inv_elapse.
    destruct (displayError_sets message2 (elapse dt w1) Hinv2)
      as (Hh2 & _).
    by rewrite Hh2, now_elapse, Hnow, next_timer_elapse.
  - by apply timer_inv_one_hide_timer.
Qed.

Lemma C7_error_auto_dismiss_witness :
  hide_timers
    (displayError (str "Conversion failed. Please try again.")
       (sample_ready (str "100"))) =
  [hide_timer (next_timer (rt (sample_ready (str "100")))) 5000].
Proof.
  pose proof (sample_ready_reachable (str "100")) as Hr.
  exact (proj1 (proj2 (proj2
           (proj1 (proj2
              (C7_error_auto_dismiss (sample_ready (str "100"))
                 (str "Conversion failed. Please try again.") Hr)))))).
Defined.

Lemma resetResults_effect (w : World) :
  timer_inv w -> reset_effect w (resetResults w).
Proof.
  intros Hinv. unfold resetResults.
  match goal with
  | |- reset_effect _ (hideError ?x) =>
      assert (Hx : timer_inv x) by (by apply (timer_inv_view w));
      destruct (hideError_clears x Hx) as (H1 & H2 & H3);
      pose proof (log_hideError x) as Hlog
  end.
  unfold reset_effect. repeat split; try done;
    unfold hideError; cbn; by destruct (errorTimeout (app w)).
Qed.

(** C9: on any reachable page the [change] listener of either dropdown
    puts the result and the rate line back to their placeholders, clears
    the stored rate, hides the error and clears its timer; it sends no
    request and leaves the amount and the catalog alone.  A change the
    browser delivers (listeners registered, dropdown enabled, [code] one
    of its options) does that and selects [code]. *)
Theorem C9_currency_change_resets
    (w : World) (code : jsstring) (Hw : reachable w) :
  reset_effect w (resetResults w) /\
  requests_of (log (rt (resetResults w))) = requests_of (log (rt w)) /\
  (listeners (rt w) = true ->
   sel_disabled (fromCurrency (dom w)) = false ->
   code ∈ sel_options (fromCurrency (dom w)) ->
   reset_effect w (dispatch (ChangeFrom code) w) /\
   sel_value (fromCurrency (dom (dispatch (ChangeFrom code) w))) = code) /\
  (listeners (rt w) = true ->
   sel_disabled (toCurrency (dom w)) = false ->
   code ∈ sel_options (toCurrency (dom w)) ->
   reset_effect w (dispatch (ChangeTo code) w) /\
   sel_value (toCurrency (dom (dispatch (ChangeTo code) w))) = code).
Proof.
  pose proof (reachable_timer_inv w Hw) as Hinv.
  pose proof (resetResults_effect w Hinv) as Hreset.
  split; [exact Hreset|]. split.
  { destruct Hreset as (_ & _ & _ & _ & _ & _ & Hlog & _).
    by rewrite Hlog. }
  split; intros Hl Hen Hin; cbn [dispatch]; rewrite Hen; cbn [orb];
    rewrite (bool_decide_eq_true_2 _ Hin); cbn [negb];
    change (listeners (rt (upd_dom ?f w))) with (listeners (rt w));
    rewrite Hl.
  - split.
    + apply (resetResults_effect
               (upd_dom (fun d =>
                  set_fromCurrency (set_sel_value code (fromCurrency d)) d)
                  w)).
      by apply (timer_inv_view w).
    + unfold resetResults, hideError. cbn.
      by destruct (errorTimeout (app w)).
  - split.
    + apply (resetResults_effect
               (upd_dom (fun d =>
                  set_toCurrency (set_sel_value code (toCurrency d)) d)
                  w)).
      by apply (timer_inv_view w).
    + unfold resetResults, hideError. cbn.
      by destruct (errorTimeout (app w)).
Qed.

Lemma C9_currency_change_resets_witness :
  reset_effect (sample_ready (str "100"))
    (dispatch (ChangeFrom (str "GBP")) (sample_ready (str "100"))) /\
  sel_value
    (fromCurrency
       (dom (dispatch (ChangeFrom (str "GBP")) (sample_ready (str "100")))))
  = str "GBP".
Proof.
  pose proof (sample_ready_reachable (str "100")) as Hr.
  apply (proj1 (proj2 (proj2
           (C9_currency_change_resets (sample_ready (str "100"))
              (str "GBP") Hr)))).
  - vm_compute. reflexivity.
  - vm_compute. reflexivity.
  - match goal with
    | |- ?P => apply (bool_decide_unpack P); vm_compute; exact I
    end.
Defined.

(** C10: whatever the amount field reads when an [input] event arrives,
    [handleAmountInput] writes the sanitized text back and then hides
    the error and clears its timer, whether or not the text changed or
    is an amount the validator would accept; an edit the browser
    delivers runs it. *)
Theorem C10_input_hides_error
    (w : World) (text : jsstring) (Hw : reachable w) :
  let w' := handleAmountInput (with_amount text w) in
  in_value (amount (dom w')) = sanitize text /\
  hidden (errorMessage (dom w')) /\
  errorTimeout (app w') = None /\
  hide_timers w' = [] /\
  (listeners (rt w) = true -> in_disabled (amount (dom w)) = false ->
   dispatch (InputText text) w = w').
Proof.
  intros w'. pose proof (reachable_timer_inv w Hw) as Hinv.
  unfold handleAmountInput in w'.
  match goal with
  | w' := hideError ?x |- _ =>
      assert (Hx : timer_inv x) by (by apply (timer_inv_view w));
      destruct (hideError_clears x Hx) as (H1 & H2 & H3)
  end.
  fold w' in H1, H2, H3. repeat split; try done.
  - unfold w', hideError. cbn. by destruct (errorTimeout (app w)).
  - intros Hl Hen. cbn [dispatch]. rewrite Hen.
    change (listeners (rt (upd_dom ?f w))) with (listeners (rt w)).
    by rewrite Hl.
Qed.

Lemma C10_input_hides_error_witness :
  dispatch (InputText (str "100")) (sample_ready (str "100")) =
  handleAmountInput (with_amount (str "100") (sample_ready (str "100"))).
Proof.
  pose proof (sample_ready_reachable (str "100")) as Hr.
  apply (proj2 (proj2 (proj2 (proj2
           (C10_input_hides_error (sample_ready (str "100"))
              (str "100") Hr))))).
  - vm_compute. reflexivity.
  - vm_compute. reflexivity.
Defined.

End ErrorDisplay.

(** ** Number formatting *)

Section Formatting.



Lemma decimal_digits_nonempty (n : N) : decimal_digits n <> [].
Proof.
  unfold decimal_digits, str, NilZero.string_of_uint.
  by destruct (N.to_uint n).
Qed.



End Formatting.

(** ** The rate client *)

Section RateClient.

(** [response.ok] is false exactly for a status outside 200-299. *)
Lemma response_ok_false (status : N) :
  response_ok status = false <-> status < 200 \/ 299 < status.
Proof.
  unfold response_ok. rewrite andb_false_iff, !N.leb_gt. tauto.
Qed.

(** [data.result !== 'success'] holds exactly when [result] is not the
    string ["success"], an absent [result] included. *)
Lemma not_success_true (data : Payload) :
  not_success data = true <-> result data <> Some (str "success").
Proof.
  unfold not_success, str_eqb. destruct (result data) as [r|]; [|done].
  rewrite negb_true_iff, bool_decide_eq_false. split; congruence.
Qed.

(** The three failures of the rate request, spelled out. *)
Lemma fetch_fails_explicit (o : FetchOutcome) :
  fetch_fails o <->
  match o with
  | NetworkFailure => True
  | HttpResponse status body =>
      (status < 200 \/ 299 < status) \/
      exists data, body = Some data /\
                   result data <> Some (str "success")
  | HttpNull status => status < 200 \/ 299 < status
  end.
Proof.
  destruct o as [|status body|status]; cbn -[not_success];
    rewrite ?response_ok_false; [done| |done].
  split; (intros [H|(data & Hb & Hr)]; [by left|right]);
    exists data; (split; [done|]); by apply not_success_true.
Qed.

(** Every way a request fails, spelled out. *)
Lemma request_fails_explicit (o : FetchOutcome) :
  request_fails o <->
  match o with
  | NetworkFailure => True
  | HttpResponse status body =>
      (status < 200 \/ 299 < status) \/
      match body with
      | None => True
      | Some data =>
          result data <> Some (str "success") \/
          conversion_rates data = None
      end
  | HttpNull _ => True
  end.
Proof.
  destruct o as [|status [data|]|status]; cbn -[not_success];
    rewrite ?response_ok_false, ?not_success_true; done.
Qed.

Lemma fetch_fails_rejected (to : jsstring) (o : FetchOutcome) :
  fetch_fails o -> exists e, fetchExchangeRate_settle to o = Rejected e.
Proof.
  unfold fetchExchangeRate_settle, response_json.
  destruct o as [|status body|status]; cbn -[not_success]; [by eexists| |].
  - intros [Hok|(data & -> & Hns)].
    + rewrite Hok. by eexists.
    + destruct (response_ok status); cbn -[not_success]; [|by eexists].
      rewrite Hns. by eexists.
  - intros ->. by eexists.
Qed.

Lemma fetchExchangeRate_resolved
    (to : jsstring) (status : N) (data : Payload)
    (rates : gmap jsstring number) :
  response_ok status = true -> not_success data = false ->
  conversion_rates data = Some rates ->
  fetchExchangeRate_settle to (HttpResponse status (Some data)) =
  Resolved (rates !! to).
Proof.
  intros Hok Hs Hr. unfold fetchExchangeRate_settle, response_json.
  rewrite Hok. cbn -[not_success]. by rewrite Hs, Hr.
Qed.

(** The promise of [fetchExchangeRate] is rejected exactly when the
    request fails: the transport fails, the status is not a success
    status, the body cannot be parsed or is [null], [result] is not
    ["success"], or the payload carries no mapping. *)
Lemma fetchExchangeRate_rejected_iff (to : jsstring) (o : FetchOutcome) :
  (exists e, fetchExchangeRate_settle to o = Rejected e) <->
  request_fails o.
Proof.
  unfold fetchExchangeRate_settle, response_json, request_fails.
  destruct o as [|st [d|]|st]; cbn.
  - split; [done | by eexists].
  - destruct (response_ok st); cbn.
    + destruct (not_success d); cbn.
      * split; [by right; left | by eexists].
      * destruct (conversion_rates d); cbn.
        -- split; [by intros [e He] | by intros [|[|]]].
        -- split; [by right; right | by eexists].
    + split; [by left | by eexists].
  - destruct (response_ok st); cbn.
    + split; [by right | by eexists].
    + split; [by left | by eexists].
  - destruct (response_ok st); cbn; (split; [done | by eexists]).
Qed.

(** C2: the promise of [fetchExchangeRate] is resolved, not rejected,
    when the mapping of the response holds no rate for the target
    currency; the script has no [MissingRateError].  The code ["XXX"] is
    absent from the mapping of a successful response, and the promise is
    resolved with the undefined value.  On the page, a conversion to EUR
    that is answered without a rate for EUR shows ["NaN"] as the amount,
    and then the failure message. *)
Theorem C2_absent_rate_resolves :
  sample_rates !! str "XXX" = None /\
  fetchExchangeRate_settle (str "XXX") (success sample_rates) =
    Resolved None /\
  textContent
    (resultAmount
       (dom (dispatch (Response 1 (success ∅)) sample_loading))) =
    str "NaN" /\
  textContent
    (errorMessage
       (dom (dispatch (Response 1 (success ∅)) sample_loading))) =
    str "Conversion failed. Please try again.".
Proof. repeat split; vm_compute; reflexivity. Qed.

End RateClient.

(** ** The conversion workflow *)

Section Workflow.

Lemma acceptable_form_view (w w' : World) :
  form_view w' = form_view w -> acceptable w' = acceptable w.
Proof.
  unfold form_view, acceptable. intros [= Ha Hf Ht].
  by rewrite Ha, Hf, Ht.
Qed.

(** A valid submission on an idle page sends one request and disables
    the controls. *)
Lemma handleConversionRequest_valid (w : World) :
  acceptable w = true ->
  handleConversionRequest w =
  fetchExchangeRate (sel_value (fromCurrency (dom w)))
    (sel_value (toCurrency (dom w)))
    (Convert (parseFloat (in_value (amount (dom w))))
       (sel_value (fromCurrency (dom w)))
       (sel_value (toCurrency (dom w))))
    (setLoadingState true (hideError w)).
Proof.
  intros Hacc. unfold handleConversionRequest.
  rewrite validateInputs_accepts
    by (rewrite (acceptable_form_view w);
        [exact Hacc | apply form_view_hideError]).
  cbn [negb]. pose proof (form_view_hideError w) as Hf.
  unfold form_view in Hf. injection Hf as -> -> ->. reflexivity.
Qed.

Lemma renders_of_app (l1 l2 : list Effect) :
  renders_of (l1 ++ l2) = renders_of l1 ++ renders_of l2.
Proof. apply List.filter_app. Qed.

(** What the [catch] callback of the conversion does. *)
Lemma conversion_failed_effect (e : Exn) (w : World) :
  timer_inv w ->
  let w' := conversion_failed e w in
  ~ hidden (errorMessage (dom w')) /\
  textContent (errorMessage (dom w')) =
    str "Conversion failed. Please try again." /\
  hide_timers w' =
    [hide_timer (next_timer (rt w))
       (now (rt w) + ERROR_DISPLAY_DURATION CONFIG)] /\
  log (rt w') =
    log (rt w) ++
    [CallDisplayError (str "Conversion failed. Please try again.");
     ConsoleError (str "Conversion error:") e] /\
  isLoading (app w') = false /\
  controls_disabled false (dom w') /\
  textContent (btnText (dom w')) = str "Convert" /\
  hidden (btnLoader (dom w')) /\
  inflight (rt w') = inflight (rt w) /\
  textContent (resultAmount (dom w')) = textContent (resultAmount (dom w))
  /\ textContent (exchangeRate (dom w')) =
     textContent (exchangeRate (dom w)) /\
  currentExchangeRate (app w') = currentExchangeRate (app w).
Proof.
  intros Hinv w'.
  destruct (displayError_sets
              (str "Conversion failed. Please try again.") w Hinv)
    as (Hh & _ & Htext & Hvis).
  pose proof (log_displayError
                (str "Conversion failed. Please try again.") w) as Hlog.
  unfold w', conversion_failed, console_error.
  set (w1 := displayError _ w) in *.
  repeat split;
    first
      [ done
      | rewrite log_setLoadingState; cbn [emit upd_rt rt log set_log];
        rewrite Hlog, <- app_assoc; done
      | unfold hidden; cbn;
        apply elem_of_union_l, elem_of_singleton; reflexivity
      | unfold w1, displayError; cbn;
        destruct (errorTimeout (app w)); done ].
Qed.

(** C6: when the rate request of a conversion in flight fails in one of
    the three ways, the response shows the message "Conversion failed.
    Please try again." with its timer, does not call
    [displayConversionResults], and leaves the page idle: not loading,
    all four controls enabled, the button reading "Convert", nothing in
    flight, the previous result untouched. *)
Theorem C6_failed_fetch_shows_error
    (w : World) (id : N) (q : Request) (a : number) (from to : jsstring)
    (o : FetchOutcome)
    (Hw : reachable w)
    (Hq : find_request id w = Some q)
    (Hk : req_cont q = Convert a from to)
    (Ho : fetch_fails o) :
  let w' := dispatch (Response id o) w in
  ~ hidden (errorMessage (dom w')) /\
  textContent (errorMessage (dom w')) =
    str "Conversion failed. Please try again." /\
  length (hide_timers w') = 1%nat /\
  renders_of (log (rt w')) = renders_of (log (rt w)) /\
  errors_of (log (rt w')) =
    errors_of (log (rt w)) ++
    [str "Conversion failed. Please try again."] /\
  isLoading (app w') = false /\
  controls_disabled false (dom w') /\
  textContent (btnText (dom w')) = str "Convert" /\
  inflight (rt w') = [] /\
  textContent (resultAmount (dom w')) = textContent (resultAmount (dom w))
  /\ currentExchangeRate (app w') = currentExchangeRate (app w).
Proof.
  intros w'. unfold w'. cbn [dispatch]. rewrite Hq, Hk.
  destruct (find_request_only id q w (reachable_flow_inv w Hw) Hq)
    as (_ & _ & Hrem).
  unfold conversion_settled.
  destruct (fetch_fails_rejected to o Ho) as [e ->].
  assert (Hinv : timer_inv (remove_request id w))
    by by apply (timer_inv_view w), reachable_timer_inv.
  destruct (conversion_failed_effect e (remove_request id w) Hinv)
    as (H1 & H2 & H3 & H4 & H5 & H6 & H7 & H8 & H9 & H10 & H11 & H12).
  repeat split; try done; try apply H6.
  - by rewrite H3.
  - by rewrite H4, renders_of_app, app_nil_r.
  - by rewrite H4, errors_of_app.
  - by rewrite H9.
Qed.

Lemma C6_failed_fetch_shows_error_witness :
  let failed (o : FetchOutcome) :=
    isLoading (app (dispatch (Response 1 o) sample_loading)) = false in
  failed NetworkFailure /\
  failed (HttpResponse 404 None) /\
  failed (HttpResponse 199 (Some {| result := Some (str "success");
                                     error_type := None;
                                     conversion_rates := Some sample_rates |}))
  /\
  failed (HttpResponse 300 (Some {| result := Some (str "success");
                                     error_type := None;
                                     conversion_rates := Some sample_rates |}))
  /\
  failed (HttpResponse 200 (Some {| result := Some (str "error");
                                     error_type := Some (str "invalid-key");
                                     conversion_rates := None |})) /\
  failed (HttpResponse 200 (Some {| result := None; error_type := None;
                                     conversion_rates := Some sample_rates |})).
Proof.
  pose proof sample_loading_reachable as Hr.
  assert (Hq : find_request 1 sample_loading =
    Some {| req_id := 1; req_url := latest_url (str "USD");
            req_cont := Convert (parseFloat (str "100")) (str "USD")
                          (str "EUR") |})
    by (vm_compute; reflexivity).
  pose (shown := fun o Ho =>
    proj1 (proj2 (proj2 (proj2 (proj2 (proj2
      (C6_failed_fetch_shows_error sample_loading 1 _
         (parseFloat (str "100")) (str "USD") (str "EUR") o
         Hr Hq eq_refl Ho))))))).
  split; [|split; [|split; [|split; [|split]]]].
  - exact (shown NetworkFailure I).
  - apply shown. left. reflexivity.
  - apply shown. left. reflexivity.
  - apply shown. left. reflexivity.
  - apply shown. right. eexists. split; reflexivity.
  - apply shown. right. eexists. split; reflexivity.
Defined.

(** C8: while a reachable page is loading, the convert button and the
    amount field are disabled, so a click and a key press, Enter
    included, are not delivered: the page stays as it is, and no request
    is added to the one in flight. *)
Theorem C8_submit_ignored_while_loading
    (w : World) (key : jsstring)
    (Hw : reachable w) (Hloading : isLoading (app w) = true) :
  controls_disabled true (dom w) /\
  dispatch Click w = w /\
  dispatch (Keypress key) w = w /\
  requests_of (log (rt (run [Click; Keypress key] w))) =
    requests_of (log (rt w)) /\
  (length (inflight (rt w)) <= 1)%nat.
Proof.
  pose proof (reachable_flow_inv w Hw) as Hinv.
  pose proof (flow_inv_loading_disabled w Hinv Hloading)
    as (Hb & Ha & Hf & Ht).
  assert (Hclick : dispatch Click w = w) by (cbn; by rewrite Hb).
  assert (Hkey : dispatch (Keypress key) w = w) by (cbn; by rewrite Ha).
  repeat split; try done.
  - unfold run. cbn [fold_left]. by rewrite Hclick, Hkey.
  - apply Hinv.
Qed.

Lemma C8_submit_ignored_while_loading_witness :
  dispatch Click sample_loading = sample_loading /\
  dispatch (Keypress (str "Enter")) sample_loading = sample_loading.
Proof.
  pose proof sample_loading_reachable as Hr.
  assert (Hl : isLoading (app sample_loading) = true)
    by (vm_compute; reflexivity).
  split.
  - exact (proj1 (proj2
             (C8_submit_ignored_while_loading sample_loading
                (str "Enter") Hr Hl))).
  - exact (proj1 (proj2 (proj2
             (C8_submit_ignored_while_loading sample_loading
                (str "Enter") Hr Hl)))).
Defined.


End Workflow.

(** ** A successful conversion *)

Section Conversion.






(** A rate that is absent reaches the renderer: the amount reads
    ["NaN"], then formatting the undefined rate throws and the failure
    message shows. *)
Lemma missing_rate_shows_NaN_and_failure
    (a : number) (from to : jsstring) (w : World) :
  timer_inv w ->
  let w' := conversion_succeeded a None from to w in
  textContent (resultAmount (dom w')) = str "NaN" /\
  textContent (errorMessage (dom w')) =
    str "Conversion failed. Please try again." /\
  ~ hidden (errorMessage (dom w')) /\
  isLoading (app w') = false.
Proof.
  intros Hinv w'. unfold w', conversion_succeeded, times_rate.
  assert (Hnan : toFixed (mul a NaN) (DECIMAL_PLACES CONFIG) = str "NaN").
  { unfold mul. by destruct a. }
  rewrite Hnan. unfold displayConversionResults.
  match goal with
  | |- context [conversion_failed ?e ?x] =>
      assert (Hx : timer_inv x) by (by apply (timer_inv_view w));
      destruct (conversion_failed_effect e x Hx)
        as (H1 & H2 & _ & _ & H5 & _ & _ & _ & _ & H10 & _)
  end.
  repeat split; try done.
Qed.

End Conversion.


(** ** More on the sanitizer *)

Section SanitizerMore.

Local Open Scope nat_scope.

Lemma strip_non_numeric_id (s : jsstring) :
  digits_and_dots s -> strip_non_numeric s = s.
Proof.
  unfold strip_non_numeric.
  induction 1 as [|c s Hc Hs IH]; cbn; [done|].
  rewrite IH. destruct Hc as [-> | ->]; [done|].
  by rewrite orb_true_r.
Qed.

(** X1: whatever the field holds, the text written back holds only
    digits and decimal separators, and at most one separator. *)
Theorem sanitize_only_digits_one_separator (s : jsstring) :
  digits_and_dots (sanitize s) /\ count_dots (sanitize s) <= 1.
Proof. split; [apply sanitize_digits_and_dots | apply sanitize_one_dot]. Qed.

(** A well-formed amount is written back as it is. *)
Lemma well_formed_sanitize_id (s : jsstring) :
  well_formed_amount s -> sanitize s = s.
Proof.
  intros (Hs & Hdots & Hfrac). unfold sanitize.
  revert Hfrac. generalize (DECIMAL_PLACES CONFIG) as dp. intros dp Hfrac.
  rewrite (strip_non_numeric_id s Hs).
  pose proof (split_parts _ dot s Hs) as Hp.
  pose proof (split_length s) as Hlen.
  destruct (split dot s) as [|p0 [|p1 [|p2 ps]]] eqn:Hsplit;
    cbn in Hlen; try lia.
  - reflexivity.
  - apply split_two in Hsplit. subst s.
    inversion Hp as [|? ? Hp0 _]; subst.
    rewrite after_dot_app in Hfrac
      by (eapply Forall_impl; [exact Hp0|]; cbn; tauto).
    apply Nat.ltb_ge in Hfrac.
    change ([p0; p1] !! 1) with (Some p1).
    change (2 <? length [p0; p1]) with false. cbv iota.
    by rewrite Hfrac, andb_false_r.
Qed.

(** X2: the texts the sanitizer writes back as they are are exactly
    the well-formed amounts: digits with at most one separator and at
    most [DECIMAL_PLACES] digits after it. *)
Theorem sanitize_fixes_well_formed_only (s : jsstring) :
  sanitize s = s <-> well_formed_amount s.
Proof.
  split; [|apply well_formed_sanitize_id].
  intros Heq.
  assert (Hs : digits_and_dots s)
    by (rewrite <- Heq; apply sanitize_digits_and_dots).
  assert (Hdots : count_dots s <= 1)
    by (rewrite <- Heq; apply sanitize_one_dot).
  split; [exact Hs|]. split; [exact Hdots|].
  rewrite <- Heq. apply sanitize_fraction_single_separator.
  by rewrite (strip_non_numeric_id s Hs).
Qed.

(** X3: a second pass always gives a well-formed amount, and from then
    on the text no longer changes. *)
Theorem sanitize_twice_well_formed (s : jsstring) :
  well_formed_amount (sanitize (sanitize s)) /\
  sanitize (sanitize (sanitize s)) = sanitize (sanitize s).
Proof.
  assert (Hwf : well_formed_amount (sanitize (sanitize s))).
  { split; [apply sanitize_digits_and_dots|].
    split; [apply sanitize_one_dot|].
    apply sanitize_fraction_single_separator.
    rewrite strip_non_numeric_id by apply sanitize_digits_and_dots.
    apply sanitize_one_dot. }
  split; [exact Hwf | by apply well_formed_sanitize_id].
Qed.

Lemma filter_sublist {A} (f : A -> bool) (l : list A) :
  List.filter f l `sublist_of` l.
Proof.
  induction l as [|x l IH]; cbn; [done|].
  destruct (f x); [by apply sublist_skip | by apply sublist_cons].
Qed.

(** More than one part: the first part, the separator, and a rest that
    splits into the other parts. *)
Lemma split_first (s p0 p1 : jsstring) (ps : list jsstring) :
  split dot s = p0 :: p1 :: ps ->
  exists r, s = p0 ++ dot :: r /\ split dot r = p1 :: ps.
Proof.
  revert p0. induction s as [|c s IH]; intros p0; cbn; [done|].
  destruct (N.eqb_spec c dot) as [->|Hne].
  - intros [= <- Hs]. by exists s.
  - destruct (split dot s) as [|q qs] eqn:Hq; [done|].
    intros [= <- ->]. destruct (IH q eq_refl) as (r & -> & Hr).
    by exists r.
Qed.

Lemma split_head_prefix (r p1 : jsstring) (ps : list jsstring) :
  split dot r = p1 :: ps -> exists r', r = p1 ++ r'.
Proof.
  revert p1 ps. induction r as [|c r IH]; intros p1 ps; cbn.
  - intros [= <- _]. by exists [].
  - destruct (N.eqb_spec c dot) as [->|Hne].
    + intros [= <- _]. by eexists.
    + destruct (split dot r) as [|q qs] eqn:Hq;
        [by intros [= <- _]; eexists|].
      intros [= <- _]. destruct (IH q qs eq_refl) as (r' & ->).
      by exists r'.
Qed.

Lemma concat_split_sublist (r : jsstring) :
  concat (split dot r) `sublist_of` r.
Proof.
  induction r as [|c r IH]; cbn; [done|].
  destruct (c =? dot)%N; cbn; [by apply sublist_cons|].
  destruct (split dot r) as [|q qs]; cbn in *;
    [by apply sublist_skip, sublist_nil_l | by apply sublist_skip].
Qed.

(** X4: the sanitizer only removes code units: the text written back
    is a subsequence of the text it found. *)
Theorem sanitize_only_removes (s : jsstring) :
  sanitize s `sublist_of` s.
Proof.
  transitivity (strip_non_numeric s); [|apply filter_sublist].
  unfold sanitize. generalize (DECIMAL_PLACES CONFIG) as dp. intros dp.
  generalize (strip_non_numeric s) as v. intros v.
  destruct (split dot v) as [|p0 [|p1 ps]] eqn:Hsplit.
  - by apply split_nonempty in Hsplit.
  - reflexivity.
  - destruct (split_first v p0 p1 ps Hsplit) as (r & -> & Hr).
    destruct (split_head_prefix r p1 ps Hr) as (r' & Hr').
    change ((p0 :: p1 :: ps) !! 1) with (Some p1).
    change (hd [] (p0 :: p1 :: ps)) with p0.
    change (drop 1 (p0 :: p1 :: ps)) with (p1 :: ps).
    assert (Hjoin : p0 ++ dot :: join_empty (p1 :: ps)
                    `sublist_of` p0 ++ dot :: r).
    { apply sublist_app; [done|]. apply sublist_skip.
      unfold join_empty. rewrite <- Hr. apply concat_split_sublist. }
    assert (Hcut : p0 ++ dot :: substring0 dp p1
                   `sublist_of` p0 ++ dot :: r).
    { apply sublist_app; [done|]. apply sublist_skip.
      rewrite Hr'. unfold substring0.
      transitivity p1; [apply sublist_take | by apply sublist_inserts_r]. }
    cbv iota.
    repeat match goal with
           | |- context [if ?c then _ else _] => destruct c
           end; done.
Qed.

End SanitizerMore.


(** ** Submitting a request *)

Section Submission.

Lemma first_failure_form_view (w w' : World) :
  form_view w' = form_view w -> first_failure w' = first_failure w.
Proof.
  unfold form_view, first_failure, check_order, fails.
  intros [= Ha Hf Ht]. cbn [List.find]. by rewrite Ha, Hf, Ht.
Qed.

Lemma not_acceptable_fails (w : World) :
  acceptable w = false -> exists k, first_failure w = Some k.
Proof.
  intros Hrej. pose proof (validateInputs_acceptable w) as H.
  rewrite validateInputs_first_failure, Hrej in H.
  destruct (first_failure w) as [k|]; [by exists k | done].
Qed.

Lemma requests_of_app (l1 l2 : list Effect) :
  requests_of (l1 ++ l2) = requests_of l1 ++ requests_of l2.
Proof. apply omap_app. Qed.

(** What showing an error and focusing a field leave alone. *)
Lemma error_shown_frame (k : ValidationError) (w : World) :
  let w' := focus (field_of k) (displayError (message_of k) (hideError w)) in
  textContent (errorMessage (dom w')) = message_of k /\
  ~ hidden (errorMessage (dom w')) /\
  form_view w' = form_view w /\
  resultAmount (dom w') = resultAmount (dom w) /\
  exchangeRate (dom w') = exchangeRate (dom w) /\
  currentExchangeRate (app w') = currentExchangeRate (app w) /\
  currencies (app w') = currencies (app w).
Proof.
  intros w'. subst w'.
  unfold focus, displayError, hideError, hidden. cbn.
  repeat match goal with
         | |- context [match errorTimeout ?a with _ => _ end] =>
             destruct (errorTimeout a); cbn
         | |- context [if ?c then _ else _] => destruct c; cbn
         end;
    repeat split;
    first [ done
          | rewrite elem_of_difference, elem_of_singleton; tauto ].
Qed.

(** X5: a submission the validator rejects sends nothing and starts
    nothing: no request is logged or in flight, [isLoading] and the
    controls stay as they are, the entries and the displayed result are
    untouched; the message of the first failing check shows. *)
Theorem rejected_submission_sends_nothing
    (w : World) (Hrej : acceptable w = false) :
  let w' := handleConversionRequest w in
  exists k,
    first_failure w = Some k /\
    textContent (errorMessage (dom w')) = message_of k /\
    ~ hidden (errorMessage (dom w')) /\
    flow_view w' = flow_view w /\
    requests_of (log (rt w')) = requests_of (log (rt w)) /\
    form_view w' = form_view w /\
    resultAmount (dom w') = resultAmount (dom w) /\
    exchangeRate (dom w') = exchangeRate (dom w) /\
    currentExchangeRate (app w') = currentExchangeRate (app w).
Proof.
  intros w'. destruct (not_acceptable_fails w Hrej) as [k Hk].
  exists k. split; [exact Hk|].
  assert (Hw' : w' = focus (field_of k)
                       (displayError (message_of k) (hideError w))).
  { unfold w', handleConversionRequest.
    rewrite validateInputs_first_failure.
    rewrite (first_failure_form_view w (hideError w))
      by apply form_view_hideError.
    by rewrite Hk. }
  destruct (error_shown_frame k w) as (H1 & H2 & H3 & H4 & H5 & H6 & _).
  rewrite Hw'. repeat split; try done.
  - by rewrite flow_view_focus, flow_view_displayError, flow_view_hideError.
  - by rewrite log_focus, log_displayError, requests_of_app, log_hideError,
      app_nil_r.
Qed.

Lemma rejected_submission_sends_nothing_witness :
  exists k,
    first_failure (sample_ready []) = Some k /\
    textContent
      (errorMessage (dom (handleConversionRequest (sample_ready [])))) =
    message_of k.
Proof.
  destruct (rejected_submission_sends_nothing (sample_ready []) eq_refl)
    as (k & Hk & Htext & _).
  exists k. split; [exact Hk | exact Htext].
Defined.

(** X6: a submission the validator accepts hides any error, sets
    [isLoading], disables the four controls, shows the spinner and sends
    exactly one request, to [.../latest/] followed by the source
    currency; the amount and the target currency stay in the page, kept
    for the response. *)
Theorem accepted_submission_sends_one_request
    (w : World) (Hacc : acceptable w = true) :
  let w' := handleConversionRequest w in
  let from := sel_value (fromCurrency (dom w)) in
  let to := sel_value (toCurrency (dom w)) in
  requests_of (log (rt w')) =
    requests_of (log (rt w)) ++
    [API_BASE_URL CONFIG ++ str "/" ++ API_KEY CONFIG ++ str "/latest/" ++
     from] /\
  inflight (rt w') =
    inflight (rt w) ++
    [{| req_id := next_request (rt w); req_url := latest_url from;
        req_cont := Convert (parseFloat (in_value (amount (dom w))))
                      from to |}] /\
  isLoading (app w') = true /\
  controls_disabled true (dom w') /\
  textContent (btnText (dom w')) = str "Converting..." /\
  ~ hidden (btnLoader (dom w')) /\
  hidden (errorMessage (dom w')) /\
  errorTimeout (app w') = None /\
  errors_of (log (rt w')) = errors_of (log (rt w)) /\
  form_view w' = form_view w.
Proof.
  intros w' from to. unfold w'.
  rewrite (handleConversionRequest_valid w Hacc). fold from to.
  unfold fetchExchangeRate, fetch, hideError, hidden, controls_disabled.
  change (API_BASE_URL CONFIG ++ str "/" ++ API_KEY CONFIG ++
          str "/latest/" ++ from) with (latest_url from).
  cbn -[latest_url requests_of errors_of].
  destruct (errorTimeout (app w)) eqn:Het;
    cbn -[latest_url requests_of errors_of];
    rewrite ?requests_of_app, ?errors_of_app; cbn -[latest_url];
    rewrite ?app_nil_r; repeat split;
    first [ done
          | rewrite elem_of_difference, elem_of_singleton; tauto
          | apply elem_of_union_l, elem_of_singleton; reflexivity ].
Qed.

Lemma accepted_submission_sends_one_request_witness :
  isLoading (app (handleConversionRequest (sample_ready (str "100")))) =
  true.
Proof.
  assert (Hacc : acceptable (sample_ready (str "100")) = true)
    by (vm_compute; reflexivity).
  exact (proj1 (proj2 (proj2
           (accepted_submission_sends_one_request
              (sample_ready (str "100")) Hacc)))).
Defined.

(** X7: when the response is a success but holds no rate for the
    target currency, the renderer is still called: the amount reads
    ["NaN"]; formatting the undefined rate then throws, so the rate line
    and the stored rate stay as they were, the failure message shows,
    and the page is idle again. *)
Theorem missing_rate_shows_NaN
    (w : World) (id : N) (q : Request) (a : number) (from to : jsstring)
    (status : N) (data : Payload) (rates : gmap jsstring number)
    (Hw : reachable w)
    (Hq : find_request id w = Some q)
    (Hk : req_cont q = Convert a from to)
    (Hok : response_ok status = true)
    (Hresult : not_success data = false)
    (Hrates : conversion_rates data = Some rates)
    (Hnone : rates !! to = None) :
  let w' := dispatch (Response id (HttpResponse status (Some data))) w in
  textContent (resultAmount (dom w')) = str "NaN" /\
  textContent (exchangeRate (dom w')) = textContent (exchangeRate (dom w))
  /\ currentExchangeRate (app w') = currentExchangeRate (app w) /\
  textContent (errorMessage (dom w')) =
    str "Conversion failed. Please try again." /\
  ~ hidden (errorMessage (dom w')) /\
  renders_of (log (rt w')) =
    renders_of (log (rt w)) ++
    [CallDisplayConversionResults (str "NaN") None from to] /\
  isLoading (app w') = false /\
  controls_disabled false (dom w').
Proof.
  intros w'. unfold w'. cbn [dispatch]. rewrite Hq, Hk.
  unfold conversion_settled.
  rewrite (fetchExchangeRate_resolved to status data rates Hok Hresult
             Hrates), Hnone.
  unfold conversion_succeeded, times_rate.
  assert (Hnan : toFixed (mul a NaN) (DECIMAL_PLACES CONFIG) = str "NaN").
  { unfold mul. by destruct a. }
  rewrite Hnan. unfold displayConversionResults.
  match goal with
  | |- context [conversion_failed ?e ?x] =>
      assert (Hx : timer_inv x)
        by (by apply (timer_inv_view w), reachable_timer_inv);
      destruct (conversion_failed_effect e x Hx)
        as (H1 & H2 & _ & H4 & H5 & H6 & _ & _ & _ & H10 & H11 & H12)
  end.
  repeat split; try done; try apply H6.
  rewrite H4. cbn -[renders_of]. rewrite !renders_of_app. cbn.
  by rewrite app_nil_r.
Qed.

Lemma missing_rate_shows_NaN_witness :
  textContent
    (resultAmount
       (dom (dispatch (Response 1 (success ∅)) sample_loading))) =
  str "NaN".
Proof.
  refine (proj1
    (missing_rate_shows_NaN sample_loading 1
       {| req_id := 1; req_url := latest_url (str "USD");
          req_cont := Convert (parseFloat (str "100")) (str "USD")
                        (str "EUR") |}
       (parseFloat (str "100")) (str "USD") (str "EUR") 200
       {| result := Some (str "success"); error_type := None;
          conversion_rates := Some ∅ |}
       ∅ sample_loading_reachable _ eq_refl eq_refl eq_refl eq_refl _));
    vm_compute; reflexivity.
Defined.

End Submission.


(** ** Start-up *)

Section StartUp.

(** *** The sorted list of codes *)

Lemma str_le_total (a b : jsstring) : str_le a b \/ str_le b a.
Proof.
  unfold str_le. revert b.
  induction a as [|x a IH]; intros [|y b]; cbn; auto.
  destruct (N.ltb_spec x y) as [Hlt|Hge]; [by left|].
  destruct (N.ltb_spec y x) as [Hlt'|Hge']; [by right|].
  assert (x = y) as -> by lia. rewrite N.eqb_refl. cbn. apply IH.
Qed.

Lemma str_le_trans (a b c : jsstring) :
  str_le a b -> str_le b c -> str_le a c.
Proof.
  unfold str_le. revert b c.
  induction a as [|x a IH]; intros [|y b] [|z c]; cbn; try done.
  intros Hab Hbc.
  apply orb_true_iff in Hab as [Hab|Hab];
    apply orb_true_iff in Hbc as [Hbc|Hbc];
    rewrite ?andb_true_iff, ?N.ltb_lt, ?N.eqb_eq in *.
  - apply orb_true_iff. left. apply N.ltb_lt. lia.
  - destruct Hbc as [<- _]. apply orb_true_iff. left. by apply N.ltb_lt.
  - destruct Hab as [-> _]. apply orb_true_iff. left. by apply N.ltb_lt.
  - destruct Hab as [-> Hab], Hbc as [-> Hbc].
    apply orb_true_iff. right. rewrite N.eqb_refl. cbn. by apply (IH b).
Qed.

Lemma sorted_keys_elem (rates : gmap jsstring number) (code : jsstring) :
  code ∈ sorted_keys rates <-> is_Some (rates !! code).
Proof.
  unfold sorted_keys. rewrite merge_sort_Permutation.
  change (map fst (map_to_list rates)) with ((map_to_list rates).*1).
  rewrite list_elem_of_fmap. split.
  - intros ([k v] & -> & Hin). apply elem_of_map_to_list in Hin.
    by exists v.
  - intros [v Hv]. exists (code, v). split; [done|].
    by apply elem_of_map_to_list.
Qed.

(** X8: the list the dropdowns are filled from holds every code of the
    catalogue once, and no other, in ascending order of code units. *)
Theorem sorted_keys_lists_catalogue
    (rates : gmap jsstring number) :
  (forall code, code ∈ sorted_keys rates <-> is_Some (rates !! code)) /\
  NoDup (sorted_keys rates) /\
  StronglySorted str_le (sorted_keys rates).
Proof.
  split; [apply sorted_keys_elem|]. unfold sorted_keys.
  assert (Hperm : merge_sort str_le (map fst (map_to_list rates))
                  ≡ₚ map fst (map_to_list rates))
    by apply merge_sort_Permutation.
  split.
  - rewrite Hperm. apply NoDup_fst_map_to_list.
  - apply (@StronglySorted_merge_sort _ str_le _).
    + intros a b c. apply str_le_trans.
    + intros a b. apply str_le_total.
Qed.

End StartUp.


(** ** What the handlers leave of the catalogue and the button *)

Section MoreFrames.

Ltac frame :=
  cbn;
  repeat match goal with
         | |- context [match errorTimeout ?a with _ => _ end] =>
             destruct (errorTimeout a); cbn
         | |- context [if ?c then _ else _] => destruct c; cbn
         end;
  try reflexivity.

Lemma static_hideError (w : World) :
  catalog_view (hideError w) = catalog_view w /\
  button_view (hideError w) = button_view w.
Proof. unfold catalog_view, button_view, hideError. split; frame. Qed.

Lemma static_displayError (message : jsstring) (w : World) :
  catalog_view (displayError message w) = catalog_view w /\
  button_view (displayError message w) = button_view w.
Proof. unfold catalog_view, button_view, displayError. split; frame. Qed.

Lemma static_focus (el : Focusable) (w : World) :
  catalog_view (focus el w) = catalog_view w /\
  button_view (focus el w) = button_view w.
Proof. unfold catalog_view, button_view, focus. split; frame. Qed.

Lemma catalog_view_setLoadingState (b : bool) (w : World) :
  catalog_view (setLoadingState b w) = catalog_view w.
Proof. by destruct b. Qed.

Lemma static_resetResults (w : World) :
  catalog_view (resetResults w) = catalog_view w /\
  button_view (resetResults w) = button_view w.
Proof.
  unfold resetResults.
  match goal with
  | |- context [hideError ?x] => destruct (static_hideError x) as [-> ->]
  end.
  done.
Qed.

Lemma static_validateInputs (w : World) :
  catalog_view (fst (validateInputs w)) = catalog_view w /\
  button_view (fst (validateInputs w)) = button_view w.
Proof.
  rewrite validateInputs_first_failure.
  destruct (first_failure w) as [k|]; [|done]. cbn [fst].
  destruct (static_focus (field_of k) (displayError (message_of k) w))
    as [-> ->].
  apply static_displayError.
Qed.

Lemma static_handleConversionRequest (w : World) :
  catalog_view (handleConversionRequest w) = catalog_view w.
Proof.
  unfold handleConversionRequest.
  pose proof (static_validateInputs (hideError w)) as [Hc _].
  destruct (static_hideError w) as [Hh _]. rewrite Hh in Hc.
  destruct (validateInputs (hideError w)) as [w' valid]. cbn [fst] in Hc.
  destruct valid; cbn [negb]; [|done].
  unfold fetchExchangeRate.
  change (catalog_view (fetch ?u ?k ?x)) with (catalog_view x).
  by rewrite catalog_view_setLoadingState.
Qed.

Lemma static_displayConversionResults
    (c : jsstring) (rate : option number) (from to : jsstring)
    (w : World) :
  catalog_view (fst (displayConversionResults c rate from to w)) =
    catalog_view w /\
  button_view (fst (displayConversionResults c rate from to w)) =
    button_view w.
Proof. unfold displayConversionResults. by destruct rate. Qed.

Lemma catalog_view_conversion_failed (e : Exn) (w : World) :
  catalog_view (conversion_failed e w) = catalog_view w.
Proof.
  unfold conversion_failed, console_error.
  rewrite catalog_view_setLoadingState.
  change (catalog_view (emit ?e ?x)) with (catalog_view x).
  apply static_displayError.
Qed.

Lemma catalog_view_conversion_settled
    (a : number) (from to : jsstring) (o : FetchOutcome) (w : World) :
  catalog_view (conversion_settled a from to o w) = catalog_view w.
Proof.
  unfold conversion_settled.
  destruct (fetchExchangeRate_settle to o) as [rate|e];
    [|apply catalog_view_conversion_failed].
  unfold conversion_succeeded.
  match goal with
  | |- context [displayConversionResults ?c ?r ?f ?t ?x] =>
      pose proof (static_displayConversionResults c r f t x) as [Hd _];
      destruct (displayConversionResults c r f t x) as [w' [e|]]
  end; cbn [fst] in Hd.
  - by rewrite catalog_view_conversion_failed.
  - by rewrite catalog_view_setLoadingState.
Qed.

Lemma static_fire (t : Timer) (w : World) :
  catalog_view (fire t w) = catalog_view w /\
  button_view (fire t w) = button_view w.
Proof.
  unfold fire. destruct (timer_cb t); [|done].
  apply (static_hideError (clearTimeout (timer_id t) w)).
Qed.

Lemma static_run_timers (fuel : nat) (t_end : N) (w : World) :
  catalog_view (run_timers fuel t_end w) = catalog_view w /\
  button_view (run_timers fuel t_end w) = button_view w.
Proof.
  revert w. induction fuel as [|fuel IH]; intros w; [done|].
  cbn [run_timers]. destruct (next_due _) as [t|]; [|done].
  destruct (timer_due t <=? t_end); [|done].
  match goal with
  | |- context [run_timers fuel t_end (fire t ?x)] =>
      destruct (IH (fire t x)) as [-> ->];
      destruct (static_fire t x) as [-> ->]
  end.
  done.
Qed.

Lemma static_elapse (dt : N) (w : World) :
  catalog_view (elapse dt w) = catalog_view w /\
  button_view (elapse dt w) = button_view w.
Proof.
  unfold elapse.
  change (catalog_view (upd_rt ?f ?x)) with (catalog_view x).
  change (button_view (upd_rt ?f ?x)) with (button_view x).
  apply static_run_timers.
Qed.

Lemma button_view_same (w w' : World) :
  button_view w' = button_view w ->
  btnText (dom w') = btnText (dom w) /\
  btnLoader (dom w') = btnLoader (dom w).
Proof. unfold button_view. by intros [= -> ->]. Qed.

Lemma button_idle (w : World) :
  textContent (btnText (dom (setLoadingState false w))) = str "Convert" /\
  hidden (btnLoader (dom (setLoadingState false w))).
Proof.
  split; [reflexivity|]. unfold hidden. cbn.
  apply elem_of_union_l, elem_of_singleton. reflexivity.
Qed.

End MoreFrames.


(** ** Loading the catalogue *)

Section Catalogue.

Lemma fold_append_options (codes : list jsstring) (w : World) :
  let w' :=
    fold_left
      (fun w code =>
         upd_dom (fun d =>
           set_toCurrency (append_option (toCurrency d) code)
             (set_fromCurrency (append_option (fromCurrency d) code) d))
           w)
      codes w in
  catalog_view w' =
  (currencies (app w),
   (sel_value (fromCurrency (dom w)),
    sel_options (fromCurrency (dom w)) ++ codes),
   (sel_value (toCurrency (dom w)),
    sel_options (toCurrency (dom w)) ++ codes)).
Proof.
  revert w. induction codes as [|c codes IH]; intros w; cbn.
  - unfold catalog_view. by rewrite !app_nil_r.
  - rewrite IH. cbn. by rewrite <- !app_assoc.
Qed.

(** [populateCurrencyDropdowns] on a catalogue: both dropdowns back on
    their placeholder, listing the sorted codes. *)
Lemma catalog_view_populate (w : World) (rates : gmap jsstring number) :
  currencies (app w) = Some rates ->
  snd (populateCurrencyDropdowns w) = None /\
  catalog_view (fst (populateCurrencyDropdowns w)) =
  (Some rates, ([], sorted_keys rates), ([], sorted_keys rates)).
Proof.
  intros Hr. unfold populateCurrencyDropdowns. rewrite Hr.
  split; [done|]. cbn [fst]. rewrite fold_append_options. cbn.
  by rewrite Hr.
Qed.

Lemma has_rate_listed (rates : gmap jsstring number) (code : jsstring) :
  has_rate rates code = true -> code ∈ sorted_keys rates.
Proof.
  unfold has_rate. intros H.
  apply sorted_keys_elem.
  destruct (rates !! code); [by eexists | done].
Qed.

(** [setDefaultCurrencies] after population: a default is selected
    when the catalogue holds a rate for it that is neither zero nor
    [NaN]; otherwise the dropdown keeps what it had. *)
Lemma catalog_view_setDefaultCurrencies
    (w : World) (rates : gmap jsstring number) (vf vt : jsstring) :
  catalog_view w =
    (Some rates, (vf, sorted_keys rates), (vt, sorted_keys rates)) ->
  snd (setDefaultCurrencies w) = None /\
  catalog_view (fst (setDefaultCurrencies w)) =
  (Some rates,
   (if has_rate rates (DEFAULT_FROM_CURRENCY CONFIG)
    then DEFAULT_FROM_CURRENCY CONFIG else vf, sorted_keys rates),
   (if has_rate rates (DEFAULT_TO_CURRENCY CONFIG)
    then DEFAULT_TO_CURRENCY CONFIG else vt, sorted_keys rates)).
Proof.
  unfold catalog_view. intros [= Hr Hvf Hof Hvt Hot].
  unfold setDefaultCurrencies. rewrite Hr. split; [done|].
  destruct (has_rate rates (DEFAULT_FROM_CURRENCY CONFIG)) eqn:Hf;
    destruct (has_rate rates (DEFAULT_TO_CURRENCY CONFIG)) eqn:Ht;
    cbn -[CONFIG]; unfold assign_value; rewrite ?Hof, ?Hot;
    rewrite ?(bool_decide_eq_true_2 _ (has_rate_listed _ _ Hf)),
      ?(bool_decide_eq_true_2 _ (has_rate_listed _ _ Ht));
    cbn -[CONFIG]; by rewrite ?Hr, ?Hvf, ?Hvt, ?Hof, ?Hot.
Qed.

Lemma flow_view_setupEventListeners (w : World) :
  flow_view (setupEventListeners w) = listening_view (flow_view w).
Proof. reflexivity. Qed.

Lemma log_populate (w : World) :
  log (rt (fst (populateCurrencyDropdowns w))) = log (rt w) /\
  errorMessage (dom (fst (populateCurrencyDropdowns w))) =
    errorMessage (dom w).
Proof.
  unfold populateCurrencyDropdowns.
  destruct (currencies (app w)) as [rates|]; [|done]. cbn [fst].
  generalize (sorted_keys rates). intros codes.
  set (w0 := upd_dom _ w).
  change (log (rt w)) with (log (rt w0)).
  change (errorMessage (dom w)) with (errorMessage (dom w0)).
  generalize w0. clear w0.
  induction codes as [|c codes IH]; intros w0; [done|].
  cbn [fold_left]. destruct (IH (upd_dom
    (fun d => set_toCurrency (append_option (toCurrency d) c)
                (set_fromCurrency (append_option (fromCurrency d) c) d))
    w0)) as [-> ->]. done.
Qed.

Lemma log_setDefaultCurrencies (w : World) :
  log (rt (fst (setDefaultCurrencies w))) = log (rt w) /\
  errorMessage (dom (fst (setDefaultCurrencies w))) =
    errorMessage (dom w).
Proof.
  unfold setDefaultCurrencies.
  destruct (currencies (app w)); [|done]. cbn [fst].
  by repeat match goal with
            | |- context [if ?c then _ else _] => destruct c
            end.
Qed.

Lemma button_view_populate (w : World) :
  button_view (fst (populateCurrencyDropdowns w)) = button_view w.
Proof.
  unfold populateCurrencyDropdowns.
  destruct (currencies (app w)) as [rates|]; [|done]. cbn [fst].
  generalize (sorted_keys rates). intros codes.
  set (w0 := upd_dom _ w).
  change (button_view w) with (button_view w0).
  generalize w0. clear w0.
  induction codes as [|c codes IH]; intros w0; [done|].
  cbn [fold_left]. by rewrite IH.
Qed.

Lemma button_view_setDefaultCurrencies (w : World) :
  button_view (fst (setDefaultCurrencies w)) = button_view w.
Proof.
  unfold setDefaultCurrencies.
  destruct (currencies (app w)); [|done]. cbn [fst].
  by repeat match goal with
            | |- context [if ?c then _ else _] => destruct c
            end.
Qed.

(** What the two chains do with a catalogue that has arrived. *)
Lemma load_settled_loaded
    (w0 : World) (status : N) (data : Payload)
    (rates : gmap jsstring number) :
  response_ok status = true -> not_success data = false ->
  conversion_rates data = Some rates ->
  let w' := load_settled (HttpResponse status (Some data)) w0 in
  catalog_view w' =
    (Some rates,
     (if has_rate rates (str "USD") then str "USD" else [],
      sorted_keys rates),
     (if has_rate rates (str "EUR") then str "EUR" else [],
      sorted_keys rates)) /\
  flow_view w' = listening_view (loading_view false (flow_view w0)) /\
  activeElement (dom w') = Some FocusAmount /\
  log (rt w') = log (rt w0) /\
  errorMessage (dom w') = errorMessage (dom w0) /\
  timer_view w' = timer_view w0 /\
  textContent (btnText (dom w')) = str "Convert" /\
  hidden (btnLoader (dom w')).
Proof.
  intros Hok Hresult Hrates w'. unfold w'.
  unfold load_settled, response_json. rewrite Hok. cbn [negb].
  unfold currencies_loaded. rewrite Hresult, Hrates.
  set (w1 := upd_app (set_currencies (Some rates)) w0).
  destruct (catalog_view_populate w1 rates eq_refl) as [Hnone Hcat].
  pose proof (flow_view_populate w1) as Hflow.
  pose proof (timer_view_populate w1) as Htim.
  destruct (log_populate w1) as [Hlog Herr].
  destruct (populateCurrencyDropdowns w1) as [w2 e2].
  cbn [fst snd] in *. subst e2.
  unfold initialization_done.
  set (w4 := setupEventListeners (setLoadingState false w2)).
  assert (Hcat4 : catalog_view w4 =
    (Some rates, ([], sorted_keys rates), ([], sorted_keys rates))).
  { unfold w4, setupEventListeners.
    change (catalog_view (upd_rt ?f ?x)) with (catalog_view x).
    by rewrite catalog_view_setLoadingState. }
  assert (Hflow4 : flow_view w4 =
    listening_view (loading_view false (flow_view w0))).
  { unfold w4. by rewrite flow_view_setupEventListeners,
      flow_view_setLoadingState, Hflow. }
  assert (Htim4 : timer_view w4 = timer_view w0).
  { unfold w4, setupEventListeners.
    change (timer_view (upd_rt (set_listeners true) ?x))
      with (timer_view x).
    by rewrite timer_view_setLoadingState, Htim. }
  destruct (catalog_view_setDefaultCurrencies w4 rates [] [] Hcat4)
    as [Hnone5 Hcat5].
  pose proof (flow_view_setDefaultCurrencies w4) as Hflow5.
  pose proof (timer_view_setDefaultCurrencies w4) as Htim5.
  destruct (log_setDefaultCurrencies w4) as [Hlog5 Herr5].
  destruct (setDefaultCurrencies w4) as [w5 e5] eqn:Hw5.
  cbn [fst snd] in *. subst e5.
  assert (Ha5 : in_disabled (amount (dom w5)) = false).
  { rewrite Hflow4 in Hflow5. unfold flow_view, loading_view in Hflow5.
    by injection Hflow5 as _ _ _ _ _ _ -> _ _. }
  unfold focus. rewrite Ha5.
  split; [exact Hcat5|]. split; [by rewrite <- Hflow4, <- Hflow5|].
  assert (Hbtn4 : textContent (btnText (dom w4)) = str "Convert" /\
                  hidden (btnLoader (dom w4))).
  { unfold w4, setupEventListeners.
    change (dom (upd_rt (set_listeners true) ?x)) with (dom x).
    apply button_idle. }
  pose proof (button_view_setDefaultCurrencies w4) as Hbtn5.
  rewrite Hw5 in Hbtn5. cbn [fst] in Hbtn5.
  apply button_view_same in Hbtn5 as [Hbt5 Hbl5].
  rewrite <- Hbt5, <- Hbl5 in Hbtn4. destruct Hbtn4 as [Hbt5' Hbl5'].
  clear Hbt5 Hbl5. rename Hbt5' into Hbt5. rename Hbl5' into Hbl5.
  split; [reflexivity|]. split; [|split; [|split; [|split]]].
  - change (log (rt (upd_dom ?f w5))) with (log (rt w5)).
    rewrite Hlog5. unfold w4, setupEventListeners.
    change (log (rt (upd_rt (set_listeners true) ?x))) with (log (rt x)).
    by rewrite log_setLoadingState, Hlog.
  - change (errorMessage (dom (upd_dom ?f w5)))
      with (errorMessage (dom w5)).
    rewrite Herr5. unfold w4, setupEventListeners.
    change (dom (upd_rt (set_listeners true) ?x)) with (dom x).
    pose proof (error_view_setLoadingState false w2) as He.
    unfold error_view in He. by rewrite He, Herr.
  - change (timer_view (upd_dom ?f w5)) with (timer_view w5).
    by rewrite Htim5, Htim4.
  - change (btnText (dom (upd_dom ?f w5))) with (btnText (dom w5)).
    by rewrite Hbt5.
  - change (btnLoader (dom (upd_dom ?f w5))) with (btnLoader (dom w5)).
    exact Hbl5.
Qed.

(** X9: when the catalogue arrives, it is stored, both dropdowns list
    its codes in ascending order, USD and EUR are preselected when the
    catalogue holds a rate for them that is neither zero nor [NaN] (the
    placeholder stays otherwise), the listeners are registered, the
    controls are enabled and the amount field takes the focus; no error
    is shown. *)
Theorem catalogue_loaded
    (w : World) (id : N) (q : Request)
    (status : N) (data : Payload) (rates : gmap jsstring number)
    (Hw : reachable w)
    (Hq : find_request id w = Some q)
    (Hk : req_cont q = LoadCurrencies)
    (Hok : response_ok status = true)
    (Hresult : not_success data = false)
    (Hrates : conversion_rates data = Some rates) :
  let w' := dispatch (Response id (HttpResponse status (Some data))) w in
  catalog_view w' =
    (Some rates,
     (if has_rate rates (str "USD") then str "USD" else [],
      sorted_keys rates),
     (if has_rate rates (str "EUR") then str "EUR" else [],
      sorted_keys rates)) /\
  listeners (rt w') = true /\
  isLoading (app w') = false /\
  controls_disabled false (dom w') /\
  inflight (rt w') = [] /\
  activeElement (dom w') = Some FocusAmount /\
  log (rt w') = log (rt w) /\
  errorMessage (dom w') = errorMessage (dom w).
Proof.
  intros w'. unfold w'. cbn [dispatch]. rewrite Hq, Hk.
  destruct (find_request_only id q w (reachable_flow_inv w Hw) Hq)
    as (_ & _ & Hrem).
  destruct (load_settled_loaded (remove_request id w) status data rates
              Hok Hresult Hrates) as (Hcat & Hflow & Hact & Hlog & Herr & _).
  unfold flow_view at 2 in Hflow. rewrite Hrem in Hflow.
  unfold flow_view, loading_view, listening_view in Hflow.
  injection Hflow as Hq' Hn' Hl' Hi' Hs' Hb' Ha' Hf' Ht'.
  repeat split; done.
Qed.

Lemma catalogue_loaded_witness :
  listeners
    (rt (dispatch (Response 0 (success sample_rates))
           (dispatch Ready (script_loaded 0 (sample_page []))))) = true.
Proof.
  refine (proj1 (proj2
    (catalogue_loaded
       (dispatch Ready (script_loaded 0 (sample_page []))) 0
       {| req_id := 0; req_url := latest_url (str "USD");
          req_cont := LoadCurrencies |}
       200
       {| result := Some (str "success"); error_type := None;
          conversion_rates := Some sample_rates |}
       sample_rates
       (reach_step Ready _ (reach_loaded 0 (sample_page [])))
       _ eq_refl eq_refl _ eq_refl)));
    vm_compute; reflexivity.
Defined.

End Catalogue.

(** ** The catalogue invariant *)

Section CatalogueInvariant.

Lemma catalog_inv_not_listening (w : World) :
  listeners (rt w) = false -> catalog_inv w.
Proof.
  intros Hl. split; try (rewrite Hl; done).
  apply Forall_forall. by intros.
Qed.

(** The invariant reads the catalogue, the dropdowns, the listener
    flag and the continuations of the requests in flight. *)
Lemma catalog_inv_keep (w w' : World) :
  catalog_view w' = catalog_view w ->
  listeners (rt w') = listeners (rt w) ->
  Forall (fun q => req_cont q = LoadCurrencies ->
                   listeners (rt w') = false) (inflight (rt w')) ->
  catalog_inv w -> catalog_inv w'.
Proof.
  unfold catalog_view. intros [= Hc Hfv Hfo Htv Hto] Hl Hq [H1 H2 H3 _].
  split; [by rewrite Hc, Hfo, Hto, Hl | by rewrite Hfv, Hfo, Hl
         | by rewrite Htv, Hto, Hl | exact Hq].
Qed.

Lemma catalog_inv_view (w w' : World) :
  catalog_view w' = catalog_view w -> flow_view w' = flow_view w ->
  catalog_inv w -> catalog_inv w'.
Proof.
  intros Hc Hf Hinv. unfold flow_view in Hf.
  injection Hf as Hq _ _ _ Hl _ _ _ _.
  apply (catalog_inv_keep w); [done..| |done].
  rewrite Hq, Hl. apply Hinv.
Qed.

Lemma catalog_inv_idle (w w' : World) :
  catalog_view w' = catalog_view w ->
  listeners (rt w') = listeners (rt w) ->
  inflight (rt w') = [] ->
  catalog_inv w -> catalog_inv w'.
Proof.
  intros Hc Hl Hq. apply catalog_inv_keep; [done..|].
  rewrite Hq. constructor.
Qed.

Lemma flow_view_same (w w' : World) :
  flow_view w' = flow_view w ->
  inflight (rt w') = inflight (rt w) /\
  listeners (rt w') = listeners (rt w).
Proof. unfold flow_view. by intros [= -> _ _ _ -> _ _ _ _]. Qed.

Lemma loading_view_same (b : bool) (w w' : World) :
  flow_view w' = loading_view b (flow_view w) ->
  inflight (rt w') = inflight (rt w) /\
  listeners (rt w') = listeners (rt w).
Proof.
  unfold flow_view, loading_view. by intros [= -> _ _ _ -> _ _ _ _].
Qed.

Lemma loading_view_flag (b : bool) (w w' : World) :
  flow_view w' = loading_view b (flow_view w) -> isLoading (app w') = b.
Proof. unfold flow_view, loading_view. by intros [= _ _ -> _]. Qed.

Lemma listening_view_flag (b : bool) (w w' : World) :
  flow_view w' = listening_view (loading_view b (flow_view w)) ->
  isLoading (app w') = b /\ listeners (rt w') = true /\
  inflight (rt w') = inflight (rt w).
Proof.
  unfold flow_view, loading_view, listening_view.
  by intros [= -> _ -> _ -> _].
Qed.

Lemma inflight_handleConversionRequest (w : World) :
  listeners (rt (handleConversionRequest w)) = listeners (rt w) /\
  exists qs,
    inflight (rt (handleConversionRequest w)) = inflight (rt w) ++ qs /\
    Forall (fun q => req_cont q <> LoadCurrencies) qs.
Proof.
  unfold handleConversionRequest.
  pose proof (flow_view_validateInputs (hideError w)) as Hv.
  rewrite flow_view_hideError in Hv.
  destruct (validateInputs (hideError w)) as [w1 valid]. cbn [fst] in Hv.
  apply flow_view_same in Hv as [Hq Hl].
  destruct valid; cbn [negb].
  - unfold fetchExchangeRate.
    destruct (loading_view_same true w1 (setLoadingState true w1)
                (flow_view_setLoadingState true w1)) as [Hq' Hl'].
    change (listeners (rt (fetch ?u ?k ?x))) with (listeners (rt x)).
    match goal with
    | |- context [inflight (rt (fetch ?u ?k ?x))] =>
        change (inflight (rt (fetch u k x)))
          with (inflight (rt x) ++
                [{| req_id := next_request (rt x); req_url := u;
                    req_cont := k |}])
    end.
    rewrite Hl', Hl, Hq', Hq. split; [done|].
    eexists. split; [reflexivity|]. by repeat constructor.
  - rewrite Hl, Hq. split; [done|]. exists []. by rewrite app_nil_r.
Qed.

Lemma catalog_inv_handleConversionRequest (w : World) :
  catalog_inv w -> catalog_inv (handleConversionRequest w).
Proof.
  intros Hinv.
  destruct (inflight_handleConversionRequest w) as (Hl & qs & Hq & Hqs).
  apply (catalog_inv_keep w);
    [apply static_handleConversionRequest | done | | done].
  rewrite Hq, Hl. apply Forall_app. split; [apply Hinv|].
  eapply Forall_impl; [exact Hqs|]. by intros q Hne Heq.
Qed.

Lemma catalog_inv_select_from (code : jsstring) (w : World) :
  code ∈ sel_options (fromCurrency (dom w)) ->
  catalog_inv w ->
  catalog_inv
    (upd_dom (fun d =>
       set_fromCurrency (set_sel_value code (fromCurrency d)) d) w).
Proof.
  intros Hin [H1 H2 H3 H4]. split; cbn; try done. by right.
Qed.

Lemma catalog_inv_select_to (code : jsstring) (w : World) :
  code ∈ sel_options (toCurrency (dom w)) ->
  catalog_inv w ->
  catalog_inv
    (upd_dom (fun d =>
       set_toCurrency (set_sel_value code (toCurrency d)) d) w).
Proof.
  intros Hin [H1 H2 H3 H4]. split; cbn; try done. by right.
Qed.

Lemma catalog_inv_resetResults (w : World) :
  catalog_inv w -> catalog_inv (resetResults w).
Proof.
  apply catalog_inv_view;
    [apply static_resetResults | apply flow_view_resetResults].
Qed.

(** Every way a response can go: a catalogue arrives, or the request
    fails. *)
Lemma outcome_cases (o : FetchOutcome) :
  request_fails o \/
  exists status data rates,
    o = HttpResponse status (Some data) /\
    response_ok status = true /\ not_success data = false /\
    conversion_rates data = Some rates.
Proof.
  destruct o as [|status [data|]|status]; cbn;
    [by left| |by left; right|by left].
  destruct (response_ok status) eqn:Hok; [|by left; left].
  destruct (not_success data) eqn:Hr; [by left; right; left|].
  destruct (conversion_rates data) as [rates|] eqn:Hc;
    [|by left; right; right].
  right. by exists status, data, rates.
Qed.

(** A failed request for the catalogue runs both [catch] callbacks, the
    inner one first. *)
Lemma load_settled_failed (o : FetchOutcome) (w : World) :
  request_fails o ->
  exists e w0,
    load_settled o w = initialization_failed e (currencies_failed e w0) /\
    flow_view w0 = flow_view w /\ timer_view w0 = timer_view w /\
    log (rt w0) = log (rt w) /\ now (rt w0) = now (rt w).
Proof.
  intros Hf. unfold load_settled, response_json.
  destruct o as [|status body|status]; [by exists TypeError, w| |];
    [|destruct (response_ok status); cbn [negb]; by eexists _, w].
  destruct (response_ok status) eqn:Hok; cbn [negb];
    [|by eexists _, w].
  destruct body as [data|];
    [|by eexists _, w].
  unfold currencies_loaded.
  destruct (not_success data) eqn:Hr;
    [by eexists _, w|].
  destruct Hf as [Hf|[Hf|Hf]]; [congruence..|]. rewrite Hf.
  unfold populateCurrencyDropdowns.
  change (currencies (app (upd_app (set_currencies None) w))) with
    (@None (gmap jsstring number)). cbv iota.
  by exists TypeError, (upd_app (set_currencies None) w).
Qed.

Lemma flow_view_load_failed (e : Exn) (w0 : World) :
  flow_view (initialization_failed e (currencies_failed e w0)) =
  loading_view false (flow_view w0).
Proof.
  by rewrite flow_view_initialization_failed, flow_view_currencies_failed.
Qed.

Lemma catalog_inv_load_settled (o : FetchOutcome) (w : World) :
  listeners (rt w) = false -> inflight (rt w) = [] ->
  catalog_inv (load_settled o w).
Proof.
  intros Hl Hq. destruct (outcome_cases o) as [Hf|Hs].
  - destruct (load_settled_failed o w Hf) as (e & w0 & -> & Hfl & _).
    apply catalog_inv_not_listening.
    destruct (loading_view_same false w0 _ (flow_view_load_failed e w0))
      as [_ ->].
    by destruct (flow_view_same w w0 Hfl) as [_ ->].
  - destruct Hs as (status & data & rates & -> & Hok & Hr & Hc).
    destruct (load_settled_loaded w status data rates Hok Hr Hc)
      as (Hcat & Hflow & _).
    unfold catalog_view in Hcat. injection Hcat as Hcur Hfv Hfo Htv Hto.
    assert (Hq' : inflight (rt (load_settled
                    (HttpResponse status (Some data)) w)) = []).
    { unfold flow_view, loading_view, listening_view in Hflow.
      injection Hflow as -> _. exact Hq. }
    split.
    + intros _. by exists rates.
    + intros _. rewrite Hfv, Hfo.
      destruct (has_rate rates (str "USD")) eqn:Hh; [right|by left].
      by apply has_rate_listed.
    + intros _. rewrite Htv, Hto.
      destruct (has_rate rates (str "EUR")) eqn:Hh; [right|by left].
      by apply has_rate_listed.
    + rewrite Hq'. constructor.
Qed.

(** Every event keeps the catalogue invariant. *)
Lemma catalog_inv_dispatch (ev : Event) (w : World) :
  flow_inv w -> catalog_inv w -> catalog_inv (dispatch ev w).
Proof.
  intros Hflow Hinv. destruct ev; cbn [dispatch].
  - destruct (initialized (rt w)) eqn:Hi; [done|].
    apply catalog_inv_not_listening.
    destruct (fi_before w Hflow Hi) as [Hl _].
    unfold initializeApp, loadAvailableCurrencies.
    change (listeners (rt (fetch ?u ?k ?x))) with (listeners (rt x)).
    by destruct (loading_view_same true _ _
                   (flow_view_setLoadingState true
                      (upd_rt (set_initialized true) w))) as [_ ->].
  - destruct (btn_disabled _); [done|]. destruct (listeners _); [|done].
    by apply catalog_inv_handleConversionRequest.
  - destruct (in_disabled _); [done|]. destruct (listeners _); [|done].
    unfold on_keypress. destruct (str_eqb _ _); [|done].
    by apply catalog_inv_handleConversionRequest.
  - destruct (in_disabled _); [done|]. cbn.
    destruct (listeners _); [|by apply (catalog_inv_view w)].
    unfold handleAmountInput.
    match goal with
    | |- catalog_inv (hideError ?x) =>
        apply (catalog_inv_view x);
          [apply static_hideError | apply flow_view_hideError |];
        by apply (catalog_inv_view w)
    end.
  - destruct (sel_disabled _); [done|]. cbn [orb].
    destruct (bool_decide _) eqn:Hd; [|done]. cbn [negb].
    apply bool_decide_eq_true in Hd.
    pose proof (catalog_inv_select_from code w Hd Hinv) as Hsel.
    change (listeners (rt (upd_dom ?f w))) with (listeners (rt w)).
    destruct (listeners (rt w)); [|done].
    by apply catalog_inv_resetResults.
  - destruct (sel_disabled _); [done|]. cbn [orb].
    destruct (bool_decide _) eqn:Hd; [|done]. cbn [negb].
    apply bool_decide_eq_true in Hd.
    pose proof (catalog_inv_select_to code w Hd Hinv) as Hsel.
    change (listeners (rt (upd_dom ?f w))) with (listeners (rt w)).
    destruct (listeners (rt w)); [|done].
    by apply catalog_inv_resetResults.
  - destruct (find_request id w) as [q|] eqn:Hq; [|done].
    destruct (find_request_only id q w Hflow Hq) as (Hone & _ & Hrem).
    destruct (req_cont q) as [|a from to] eqn:Hk.
    + apply catalog_inv_load_settled; [|done].
      change (listeners (rt (remove_request id w)))
        with (listeners (rt w)).
      pose proof (ci_pending w Hinv) as Hp. rewrite Hone in Hp.
      inversion Hp; subst. auto.
    + pose proof (flow_view_conversion_settled a from to o
                    (remove_request id w)) as Hv.
      apply loading_view_same in Hv as [Hq' Hl'].
      apply (catalog_inv_idle w);
        [by rewrite catalog_view_conversion_settled | done
        | by rewrite Hq' | done].
  - apply (catalog_inv_view w);
      [apply static_elapse | apply flow_view_elapse | done].
  - unfold on_error, console_error.
    apply (catalog_inv_view w); [|by rewrite flow_view_displayError|done].
    by destruct (static_displayError
      (str "An unexpected error occurred. Please refresh the page.")
      (emit (ConsoleError (str "Uncaught error:") e) w)) as [-> _].
  - unfold on_unhandledrejection, console_error.
    apply (catalog_inv_view w); [|by rewrite flow_view_displayError|done].
    by destruct (static_displayError
      (str "An unexpected error occurred. Please try again.")
      (emit (ConsoleError (str "Unhandled promise rejection:") reason) w))
      as [-> _].
Qed.

Lemma reachable_catalog_inv (w : World) : reachable w -> catalog_inv w.
Proof.
  induction 1 as [t0 page|ev w Hw IH].
  - by apply catalog_inv_not_listening.
  - apply catalog_inv_dispatch; [by apply reachable_flow_inv | done].
Qed.

End CatalogueInvariant.

(** ** The amount that is validated and the amount that is converted *)

Section TrimmedAmount.

Lemma whitespace_range (c : N) :
  is_whitespace c = true -> c < 33 \/ 160 <= c.
Proof.
  unfold is_whitespace. intros H.
  repeat (apply orb_true_iff in H as [H|H]);
    try (apply andb_true_iff in H as [H1 H2];
         apply N.leb_le in H1; apply N.leb_le in H2);
    try apply N.eqb_eq in H; lia.
Qed.

Lemma whitespace_plain (c : N) :
  is_whitespace c = true ->
  is_digit c = false /\ (c =? 45) = false /\ (c =? 43) = false /\
  (c =? dot) = false /\ (c =? 101) = false /\ (c =? 69) = false /\
  Forall (fun x => (x =? c) = false) (str "Infinity").
Proof.
  intros H%whitespace_range. unfold is_digit, dot.
  split; [apply andb_false_iff; rewrite !N.leb_gt; lia|].
  do 5 (split; [apply N.eqb_neq; lia|]).
  assert (Hall : forallb (fun x => (33 <=? x) && (x <? 160))
                   (str "Infinity") = true) by reflexivity.
  rewrite forallb_forall in Hall.
  apply Forall_forall. intros x Hx%list_elem_of_In%Hall.
  apply andb_true_iff in Hx as [H1%N.leb_le H2%N.ltb_lt].
  apply N.eqb_neq. lia.
Qed.

Lemma strip_prefix_blanks (p s ws : jsstring) :
  blanks ws ->
  Forall (fun x => Forall (fun c => (x =? c) = false) ws) p ->
  strip_prefix p (s ++ ws) =
  option_map (fun r => r ++ ws) (strip_prefix p s).
Proof.
  intros Hws. revert s.
  induction p as [|x p IH]; intros s Hp; [done|].
  inversion Hp as [|? ? Hx Hp']; subst.
  destruct s as [|y s]; cbn.
  - destruct ws as [|c ws]; [done|]. cbn.
    inversion Hx; subst. by rewrite H1.
  - destruct (x =? y); [by apply IH | done].
Qed.

Lemma span_digits_blanks (s ws : jsstring) :
  blanks ws ->
  span_digits (s ++ ws) =
  (fst (span_digits s), snd (span_digits s) ++ ws).
Proof.
  intros Hws. induction s as [|c s IH]; cbn.
  - destruct ws as [|c ws]; [done|]. cbn.
    inversion Hws; subst.
    by destruct (whitespace_plain c) as (-> & _).
  - destruct (is_digit c); [|done].
    rewrite IH. by destruct (span_digits s).
Qed.

Lemma read_sign_blanks (s ws : jsstring) :
  blanks ws ->
  read_sign (s ++ ws) = (fst (read_sign s), snd (read_sign s) ++ ws).
Proof.
  intros Hws. destruct s as [|c s]; cbn.
  - destruct ws as [|c ws]; [done|]. cbn.
    inversion Hws; subst.
    by destruct (whitespace_plain c) as (_ & -> & -> & _).
  - destruct (c =? 45); [done|]. by destruct (c =? 43).
Qed.

Lemma read_exponent_blanks (s ws : jsstring) :
  blanks ws ->
  read_exponent (s ++ ws) =
  (fst (read_exponent s), snd (read_exponent s) ++ ws).
Proof.
  intros Hws. destruct s as [|c s]; cbn.
  - destruct ws as [|c ws]; [done|]. cbn.
    inversion Hws; subst.
    by destruct (whitespace_plain c) as (_ & _ & _ & _ & -> & -> & _).
  - destruct ((c =? 101) || (c =? 69)); [|done].
    rewrite read_sign_blanks by done.
    destruct (read_sign s) as [neg r]. cbn [fst snd].
    rewrite span_digits_blanks by done.
    destruct (span_digits r) as [ds rest]. cbn [fst snd].
    by destruct ds.
Qed.

Lemma read_literal_blanks (s ws : jsstring) :
  blanks ws ->
  read_literal (s ++ ws) =
  option_map (fun xr => (fst xr, snd xr ++ ws)) (read_literal s).
Proof.
  intros Hws. unfold read_literal.
  rewrite read_sign_blanks by done.
  destruct (read_sign s) as [neg s1]. cbn [fst snd].
  rewrite strip_prefix_blanks; [|done|].
  2:{ assert (Hall : Forall (fun c => Forall (fun x => (x =? c) = false)
                               (str "Infinity")) ws).
      { eapply Forall_impl; [exact Hws|].
        intros c Hc. by apply whitespace_plain. }
      clear Hws. apply Forall_forall. intros x Hx.
      apply Forall_forall. intros c Hc.
      rewrite Forall_forall in Hall. specialize (Hall c Hc).
      rewrite Forall_forall in Hall. by apply Hall. }
  destruct (strip_prefix (str "Infinity") s1) as [rest|]; [done|].
  cbn [option_map].
  rewrite span_digits_blanks by done.
  destruct (span_digits s1) as [ip s2]. cbn [fst snd].
  assert (Hfrac :
    match s2 ++ ws with
    | c :: r => if c =? dot then span_digits r else ([], s2 ++ ws)
    | [] => ([], [])
    end =
    (fst match s2 with
         | c :: r => if c =? dot then span_digits r else ([], s2)
         | [] => ([], [])
         end,
     snd match s2 with
         | c :: r => if c =? dot then span_digits r else ([], s2)
         | [] => ([], [])
         end ++ ws)).
  { destruct s2 as [|c r]; cbn.
    - destruct ws as [|c ws]; [done|]. inversion Hws; subst.
      by destruct (whitespace_plain c) as (_ & _ & _ & -> & _).
    - destruct (c =? dot); [|done]. by apply span_digits_blanks. }
  rewrite Hfrac.
  destruct (match s2 with
            | c :: r => if c =? dot then span_digits r else ([], s2)
            | [] => ([], [])
            end) as [fp s3]. cbn [fst snd].
  destruct (ip ++ fp) as [|d ds]; [done|].
  rewrite read_exponent_blanks by done.
  by destruct (read_exponent s3).
Qed.

Lemma trimStart_split (s : jsstring) :
  exists ws, blanks ws /\ s = ws ++ trimStart s.
Proof.
  induction s as [|c s (ws & Hws & IH)];
    [exists []; split; [constructor | done]|]. cbn.
  destruct (is_whitespace c) eqn:Hc;
    [|exists []; split; [constructor | done]].
  exists (c :: ws). split; [by constructor|]. cbn. by rewrite <- IH.
Qed.

Lemma trimEnd_split (s : jsstring) :
  exists ws, blanks ws /\ s = trimEnd s ++ ws.
Proof.
  destruct (trimStart_split (rev s)) as (ws & Hws & Hs).
  exists (rev ws). split; [by apply Forall_rev|].
  unfold trimEnd. rewrite <- rev_app_distr, <- Hs. by rewrite rev_involutive.
Qed.

Lemma trimStart_snoc (s : jsstring) (c : N) :
  is_whitespace c = false -> trimStart (s ++ [c]) = trimStart s ++ [c].
Proof.
  intros Hc. induction s as [|x s IH]; cbn; [by rewrite Hc|].
  by destruct (is_whitespace x).
Qed.

Lemma trimStart_trim (s : jsstring) : trimStart (trim s) = trim s.
Proof.
  unfold trim.
  assert (Hhead : match trimStart s with
                  | c :: _ => is_whitespace c = false
                  | [] => True
                  end).
  { induction s as [|c s IH]; cbn; [done|].
    by destruct (is_whitespace c) eqn:Hc. }
  destruct (trimStart s) as [|c t]; [done|].
  unfold trimEnd. cbn [rev]. rewrite trimStart_snoc by done.
  rewrite rev_app_distr. cbn. by rewrite Hhead.
Qed.

(** [validateInputs] checks the number read from the trimmed text,
    [handleConversionRequest] converts the number read from the text as
    it stands: the two are the same number. *)
Lemma parseFloat_trim (s : jsstring) :
  parseFloat (trim s) = parseFloat s.
Proof.
  unfold parseFloat. rewrite trimStart_trim. unfold trim.
  destruct (trimEnd_split (trimStart s)) as (ws & Hws & Hs).
  rewrite Hs at 2. rewrite read_literal_blanks by done.
  by destruct (read_literal (trimEnd (trimStart s))) as [[x r]|].
Qed.

End TrimmedAmount.

(** ** The requests the page sends *)

Section RequestInvariant.

Lemma request_inv_keep (w w' : World) :
  inflight (rt w') = inflight (rt w) ->
  currencies (app w') = currencies (app w) ->
  request_inv w -> request_inv w'.
Proof.
  unfold request_inv, well_formed_request. intros -> ->. done.
Qed.

Lemma request_inv_view (w w' : World) :
  catalog_view w' = catalog_view w -> flow_view w' = flow_view w ->
  request_inv w -> request_inv w'.
Proof.
  intros Hc Hf. apply request_inv_keep.
  - by destruct (flow_view_same w w' Hf).
  - unfold catalog_view in Hc. by injection Hc.
Qed.

Lemma request_inv_idle (w : World) :
  inflight (rt w) = [] -> request_inv w.
Proof. unfold request_inv. intros ->. constructor. Qed.

(** A submission is accepted and sent, or rejected and nothing is
    sent. *)
Lemma handleConversionRequest_cases (w : World) :
  acceptable w = true /\
  handleConversionRequest w =
    fetchExchangeRate (sel_value (fromCurrency (dom w)))
      (sel_value (toCurrency (dom w)))
      (Convert (parseFloat (in_value (amount (dom w))))
         (sel_value (fromCurrency (dom w)))
         (sel_value (toCurrency (dom w))))
      (setLoadingState true (hideError w)) \/
  acceptable w = false /\
  flow_view (handleConversionRequest w) = flow_view w /\
  button_view (handleConversionRequest w) = button_view w.
Proof.
  destruct (acceptable w) eqn:Hacc;
    [left; split; [done | by apply handleConversionRequest_valid]|].
  right. split; [done|]. unfold handleConversionRequest.
  pose proof (validateInputs_acceptable (hideError w)) as Hv.
  rewrite (acceptable_form_view w) in Hv by apply form_view_hideError.
  pose proof (flow_view_validateInputs (hideError w)) as Hf.
  rewrite flow_view_hideError in Hf.
  destruct (static_validateInputs (hideError w)) as [_ Hb].
  rewrite (proj2 (static_hideError w)) in Hb.
  destruct (validateInputs (hideError w)) as [w1 valid].
  cbn [fst snd] in *. rewrite Hv, Hacc. done.
Qed.

Lemma acceptable_above_zero (w : World) :
  acceptable w = true ->
  above_zero (parseFloat (in_value (amount (dom w)))) = true /\
  sel_value (fromCurrency (dom w)) <> [] /\
  sel_value (toCurrency (dom w)) <> [] /\
  sel_value (fromCurrency (dom w)) <> sel_value (toCurrency (dom w)).
Proof.
  unfold acceptable, above_zero. rewrite parseFloat_trim.
  rewrite !andb_true_iff.
  intros ((((((_ & H1) & H2) & H3) & H4) & H5) & H6).
  rewrite H1, H2, H3. split; [done|].
  split; [by destruct (sel_value (fromCurrency (dom w)))|].
  split; [by destruct (sel_value (toCurrency (dom w)))|].
  unfold str_eqb in H6. intros Heq.
  by rewrite bool_decide_eq_true_2 in H6.
Qed.

Lemma request_inv_handleConversionRequest (w : World) :
  listeners (rt w) = true -> catalog_inv w ->
  request_inv w -> request_inv (handleConversionRequest w).
Proof.
  intros Hl Hcat Hinv.
  destruct (handleConversionRequest_cases w) as [[Hacc Heq]|(_ & Hf & _)];
    [|by apply (request_inv_view w);
         [apply static_handleConversionRequest|..]].
  destruct (acceptable_above_zero w Hacc) as (Ha & Hfrom & Hto & Hne).
  destruct (ci_loaded w Hcat Hl) as (rates & Hr & Hfo & Hto').
  assert (Hcur : currencies (app (handleConversionRequest w)) = Some rates).
  { pose proof (static_handleConversionRequest w) as Hc.
    unfold catalog_view in Hc. injection Hc as -> _ _ _ _. exact Hr. }
  assert (Hq : inflight (rt (handleConversionRequest w)) =
    inflight (rt w) ++
    [{| req_id := next_request (rt (setLoadingState true (hideError w)));
        req_url := latest_url (sel_value (fromCurrency (dom w)));
        req_cont :=
          Convert (parseFloat (in_value (amount (dom w))))
            (sel_value (fromCurrency (dom w)))
            (sel_value (toCurrency (dom w))) |}]).
  { rewrite Heq. unfold fetchExchangeRate.
    match goal with
    | |- context [inflight (rt (fetch ?u ?k ?x))] =>
        change (inflight (rt (fetch u k x)))
          with (inflight (rt x) ++
                [{| req_id := next_request (rt x); req_url := u;
                    req_cont := k |}])
    end.
    destruct (loading_view_same true _ _
                (flow_view_setLoadingState true (hideError w))) as [-> _].
    by destruct (flow_view_same _ _ (flow_view_hideError w)) as [-> _]. }
  unfold request_inv. rewrite Hq. apply Forall_app. split.
  - eapply Forall_impl; [exact Hinv|]. intros q.
    unfold well_formed_request. by rewrite Hcur, Hr.
  - constructor; [|constructor]. unfold well_formed_request. cbn.
    split; [done|]. split; [done|]. split; [done|].
    exists rates. split; [done|]. split; apply sorted_keys_elem.
    + rewrite <- Hfo. by destruct (ci_from w Hcat Hl).
    + rewrite <- Hto'. by destruct (ci_to w Hcat Hl).
Qed.

(** Every event keeps the requests well formed. *)
Lemma request_inv_dispatch (ev : Event) (w : World) :
  flow_inv w -> catalog_inv w ->
  request_inv w -> request_inv (dispatch ev w).
Proof.
  intros Hflow Hcat Hinv. destruct ev; cbn [dispatch].
  - destruct (initialized (rt w)) eqn:Hi; [done|].
    destruct (fi_before w Hflow Hi) as [_ Hld].
    pose proof (fi_idle w Hflow Hld) as Hq.
    unfold request_inv, initializeApp, loadAvailableCurrencies.
    match goal with
    | |- context [inflight (rt (fetch ?u ?k ?x))] =>
        change (inflight (rt (fetch u k x)))
          with (inflight (rt x) ++
                [{| req_id := next_request (rt x); req_url := u;
                    req_cont := k |}])
    end.
    destruct (loading_view_same true _ _
                (flow_view_setLoadingState true
                   (upd_rt (set_initialized true) w))) as [-> _].
    change (inflight (rt (upd_rt ?f w))) with (inflight (rt w)).
    rewrite Hq. by repeat constructor.
  - destruct (btn_disabled _); [done|].
    destruct (listeners _) eqn:Hl; [|done].
    by apply request_inv_handleConversionRequest.
  - destruct (in_disabled _); [done|].
    destruct (listeners _) eqn:Hl; [|done].
    unfold on_keypress. destruct (str_eqb _ _); [|done].
    by apply request_inv_handleConversionRequest.
  - destruct (in_disabled _); [done|]. cbn.
    destruct (listeners _); [|by apply (request_inv_view w)].
    unfold handleAmountInput.
    match goal with
    | |- request_inv (hideError ?x) =>
        apply (request_inv_view x);
          [apply static_hideError | apply flow_view_hideError |];
        by apply (request_inv_view w)
    end.
  - destruct (_ || _); [done|].
    change (listeners (rt (upd_dom ?f w))) with (listeners (rt w)).
    destruct (listeners (rt w)); [|by apply (request_inv_keep w)].
    match goal with
    | |- request_inv (resetResults ?x) =>
        apply (request_inv_view x);
          [apply static_resetResults | apply flow_view_resetResults |];
        by apply (request_inv_keep w)
    end.
  - destruct (_ || _); [done|].
    change (listeners (rt (upd_dom ?f w))) with (listeners (rt w)).
    destruct (listeners (rt w)); [|by apply (request_inv_keep w)].
    match goal with
    | |- request_inv (resetResults ?x) =>
        apply (request_inv_view x);
          [apply static_resetResults | apply flow_view_resetResults |];
        by apply (request_inv_keep w)
    end.
  - destruct (find_request id w) as [q|] eqn:Hq; [|done].
    destruct (find_request_only id q w Hflow Hq) as (_ & _ & Hrem).
    apply request_inv_idle.
    destruct (req_cont q) as [|a from to].
    + destruct (flow_view_load_settled o (remove_request id w)) as [Hv|Hv].
      * destruct (loading_view_same false _ _ Hv) as [-> _]. exact Hrem.
      * unfold flow_view, loading_view, listening_view in Hv.
        injection Hv as -> _. exact Hrem.
    + destruct (loading_view_same false _ _
                  (flow_view_conversion_settled a from to o
                     (remove_request id w))) as [-> _].
      exact Hrem.
  - apply (request_inv_view w);
      [apply static_elapse | apply flow_view_elapse | done].
  - unfold on_error, console_error.
    apply (request_inv_view w); [|by rewrite flow_view_displayError|done].
    by destruct (static_displayError
      (str "An unexpected error occurred. Please refresh the page.")
      (emit (ConsoleError (str "Uncaught error:") e) w)) as [-> _].
  - unfold on_unhandledrejection, console_error.
    apply (request_inv_view w); [|by rewrite flow_view_displayError|done].
    by destruct (static_displayError
      (str "An unexpected error occurred. Please try again.")
      (emit (ConsoleError (str "Unhandled promise rejection:") reason) w))
      as [-> _].
Qed.

End RequestInvariant.

(** ** A start-up that fails *)

Section FailedStartUp.

(** The [catch] callback of [loadAvailableCurrencies]. *)
Lemma currencies_failed_effect (e : Exn) (w : World) :
  let w' := currencies_failed e w in
  next_timer (rt w') = Pos.succ (next_timer (rt w)) /\
  now (rt w') = now (rt w) /\
  log (rt w') =
    log (rt w) ++
    [CallDisplayError
       (str "Unable to load currencies. Please check your internet connection and API key.");
     ConsoleError (str "Currency loading error:") e] /\
  textContent (btnText (dom w')) = str "Convert" /\
  hidden (btnLoader (dom w')).
Proof.
  intros w'. unfold w', currencies_failed, console_error.
  split.
  { transitivity (next_timer (rt (displayError
      (str "Unable to load currencies. Please check your internet connection and API key.")
      w))); [reflexivity|].
    by destruct (displayError_timers
      (str "Unable to load currencies. Please check your internet connection and API key.")
      w) as (_ & -> & _). }
  split.
  { transitivity (now (rt (displayError
      (str "Unable to load currencies. Please check your internet connection and API key.")
      w))); [reflexivity | apply now_displayError]. }
  split.
  { rewrite log_setLoadingState. cbn [emit upd_rt rt log set_log].
    by rewrite log_displayError, <- app_assoc. }
  apply button_idle.
Qed.

(** The [catch] callback of [initializeApp]. *)
Lemma initialization_failed_effect (e : Exn) (w : World) :
  timer_inv w ->
  let w' := initialization_failed e w in
  textContent (errorMessage (dom w')) =
    str "Failed to initialize application. Please refresh the page." /\
  ~ hidden (errorMessage (dom w')) /\
  hide_timers w' =
    [hide_timer (next_timer (rt w))
       (now (rt w) + ERROR_DISPLAY_DURATION CONFIG)] /\
  log (rt w') =
    log (rt w) ++
    [CallDisplayError
       (str "Failed to initialize application. Please refresh the page.");
     ConsoleError (str "Initialization error:") e] /\
  btnText (dom w') = btnText (dom w) /\
  btnLoader (dom w') = btnLoader (dom w).
Proof.
  intros Hinv w'.
  destruct (displayError_sets
    (str "Failed to initialize application. Please refresh the page.")
    w Hinv) as (Hh & _ & Htext & Hvis).
  pose proof (log_displayError
    (str "Failed to initialize application. Please refresh the page.") w)
    as Hlog.
  destruct (button_view_same w _ (proj2 (static_displayError
    (str "Failed to initialize application. Please refresh the page.") w)))
    as [Hbt Hbl].
  unfold w', initialization_failed, console_error.
  split; [exact Htext|]. split; [exact Hvis|]. split; [exact Hh|].
  split; [|by split].
  cbn [emit upd_rt rt log set_log]. by rewrite Hlog, <- app_assoc.
Qed.

(** Both callbacks, the inner one first. *)
Lemma load_failed_effect (e : Exn) (w : World) :
  timer_inv w ->
  let w' := initialization_failed e (currencies_failed e w) in
  textContent (errorMessage (dom w')) =
    str "Failed to initialize application. Please refresh the page." /\
  ~ hidden (errorMessage (dom w')) /\
  hide_timers w' =
    [hide_timer (Pos.succ (next_timer (rt w)))
       (now (rt w) + ERROR_DISPLAY_DURATION CONFIG)] /\
  log (rt w') =
    log (rt w) ++
    [CallDisplayError
       (str "Unable to load currencies. Please check your internet connection and API key.");
     ConsoleError (str "Currency loading error:") e;
     CallDisplayError
       (str "Failed to initialize application. Please refresh the page.");
     ConsoleError (str "Initialization error:") e] /\
  flow_view w' = loading_view false (flow_view w) /\
  textContent (btnText (dom w')) = str "Convert" /\
  hidden (btnLoader (dom w')).
Proof.
  intros Hinv w'.
  pose proof (timer_inv_currencies_failed e w Hinv) as Hinv3.
  destruct (currencies_failed_effect e w)
    as (Hnt & Hnow & Hlog3 & Htext3 & Hhid3).
  pose proof (flow_view_load_failed e w) as Hflow.
  destruct (initialization_failed_effect e (currencies_failed e w) Hinv3)
    as (Htext & Hvis & Hh & Hlog & Hbt & Hbl).
  fold w' in Htext, Hvis, Hh, Hlog, Hbt, Hbl, Hflow.
  clearbody w'. generalize dependent (currencies_failed e w).
  intros x3 **.
  split; [exact Htext|]. split; [exact Hvis|]. split.
  { by rewrite Hh, Hnt, Hnow. }
  split; [by rewrite Hlog, Hlog3, <- app_assoc|].
  split; [exact Hflow|]. by rewrite Hbt, Hbl.
Qed.

Lemma flow_view_idle (w : World) (n : N) :
  flow_view w = ([], n, false, true, false, (false, false, false, false)) ->
  unusable w /\ controls_disabled false (dom w).
Proof.
  unfold flow_view, unusable, controls_disabled.
  by intros [= -> _ -> -> -> -> -> -> ->].
Qed.

Lemma unusable_view (w w' : World) :
  flow_view w' = flow_view w -> unusable w -> unusable w'.
Proof.
  unfold flow_view, unusable. intros [= -> _ -> -> -> _ _ _ _]. done.
Qed.

(** On a page whose start-up failed no event sends a request or
    registers a listener. *)
Lemma unusable_dispatch (ev : Event) (w : World) :
  unusable w -> flow_view (dispatch ev w) = flow_view w.
Proof.
  intros (Hi & Hl & Hq & Hld). destruct ev; cbn [dispatch].
  - by rewrite Hi.
  - rewrite Hl. by destruct (btn_disabled _).
  - rewrite Hl. by destruct (in_disabled _).
  - destruct (in_disabled _); [done|]. cbn. by rewrite Hl.
  - destruct (_ || _); [done|]. cbn. by rewrite Hl.
  - destruct (_ || _); [done|]. cbn. by rewrite Hl.
  - unfold find_request. by rewrite Hq.
  - apply flow_view_elapse.
  - unfold on_error, console_error.
    by rewrite flow_view_displayError.
  - unfold on_unhandledrejection, console_error.
    by rewrite flow_view_displayError.
Qed.

Lemma unusable_run (evs : list Event) (w : World) :
  unusable w -> flow_view (run evs w) = flow_view w.
Proof.
  revert w. induction evs as [|ev evs IH]; intros w Hw; [done|].
  cbn [run fold_left]. fold (run evs (dispatch ev w)).
  pose proof (unusable_dispatch ev w Hw) as Hv.
  rewrite IH; [done|]. by apply (unusable_view w).
Qed.

(** X12: when the request for the catalogue fails in any way, both
    [catch] callbacks run: the two messages are shown one after the
    other, the second replacing the first with one timer pending; the
    controls are enabled again but no listener is registered, and from
    then on no event sends a request, registers a listener or sets the
    loading state. *)
Theorem failed_start_up_is_final
    (w : World) (id : N) (q : Request) (o : FetchOutcome)
    (Hw : reachable w)
    (Hq : find_request id w = Some q)
    (Hk : req_cont q = LoadCurrencies)
    (Ho : request_fails o) :
  let w' := dispatch (Response id o) w in
  errors_of (log (rt w')) =
    errors_of (log (rt w)) ++
    [str "Unable to load currencies. Please check your internet connection and API key.";
     str "Failed to initialize application. Please refresh the page."] /\
  requests_of (log (rt w')) = requests_of (log (rt w)) /\
  textContent (errorMessage (dom w')) =
    str "Failed to initialize application. Please refresh the page." /\
  ~ hidden (errorMessage (dom w')) /\
  hide_timers w' =
    [hide_timer (Pos.succ (next_timer (rt w)))
       (now (rt w) + ERROR_DISPLAY_DURATION CONFIG)] /\
  controls_disabled false (dom w') /\
  textContent (btnText (dom w')) = str "Convert" /\
  unusable w' /\
  forall evs, flow_view (run evs w') = flow_view w'.
Proof.
  intros w'.
  pose proof (reachable_flow_inv w Hw) as Hflow.
  pose proof (reachable_timer_inv w Hw) as Htim.
  pose proof (reachable_catalog_inv w Hw) as Hcat.
  destruct (find_request_only id q w Hflow Hq) as (Hone & _ & Hrem).
  assert (Hl : listeners (rt w) = false).
  { pose proof (ci_pending w Hcat) as Hp. rewrite Hone in Hp.
    inversion Hp; subst. auto. }
  assert (Hi : initialized (rt w) = true).
  { destruct (initialized (rt w)) eqn:Hi; [done|].
    destruct (fi_before w Hflow Hi) as [_ Hld].
    pose proof (fi_idle w Hflow Hld) as Hnone. by rewrite Hone in Hnone. }
  unfold w'. cbn [dispatch]. rewrite Hq, Hk.
  destruct (load_settled_failed o (remove_request id w) Ho)
    as (e & w0 & -> & Hf0 & Ht0 & Hlog0 & Hnow0).
  assert (Hinv0 : timer_inv w0).
  { apply (timer_inv_view w); [|done].
    by rewrite Ht0, timer_view_remove_request. }
  destruct (load_failed_effect e w0 Hinv0)
    as (Htext & Hvis & Hh & Hlog & Hv & Hbtn & _).
  assert (Hnt0 : next_timer (rt w0) = next_timer (rt w)).
  { unfold timer_view in Ht0. by injection Ht0 as _ -> _. }
  assert (Hv' : flow_view
      (initialization_failed e (currencies_failed e w0)) =
    ([], next_request (rt w), false, true, false,
     (false, false, false, false))).
  { rewrite Hv, Hf0. unfold flow_view at 1. rewrite Hrem.
    change (next_request (rt (remove_request id w)))
      with (next_request (rt w)).
    change (initialized (rt (remove_request id w)))
      with (initialized (rt w)).
    change (listeners (rt (remove_request id w)))
      with (listeners (rt w)).
    by rewrite Hi, Hl. }
  destruct (flow_view_idle _ _ Hv') as [Hun Hctl].
  split.
  { rewrite Hlog, Hlog0. change (log (rt (remove_request id w)))
      with (log (rt w)). by rewrite errors_of_app. }
  split.
  { rewrite Hlog, Hlog0. change (log (rt (remove_request id w)))
      with (log (rt w)). rewrite requests_of_app. cbn.
    by rewrite app_nil_r. }
  split; [exact Htext|]. split; [exact Hvis|]. split.
  { rewrite Hh, Hnt0, Hnow0. reflexivity. }
  split; [exact Hctl|].
  split; [exact Hbtn|]. split; [exact Hun|].
  intros evs. by apply unusable_run.
Qed.

Lemma failed_start_up_is_final_witness :
  let failed (o : FetchOutcome) :=
    unusable
      (dispatch (Response 0 o)
         (dispatch Ready (script_loaded 0 (sample_page [])))) in
  failed NetworkFailure /\
  failed (HttpResponse 199 (Some {| result := Some (str "success");
                                     error_type := None;
                                     conversion_rates :=
                                       Some sample_rates |})) /\
  failed (HttpResponse 300 (Some {| result := Some (str "success");
                                     error_type := None;
                                     conversion_rates :=
                                       Some sample_rates |})) /\
  failed (HttpResponse 200 None) /\
  failed (HttpNull 200) /\
  failed (HttpResponse 200 (Some {| result := Some (str "error");
                                     error_type := None;
                                     conversion_rates :=
                                       Some sample_rates |})) /\
  failed (HttpResponse 200 (Some {| result := None; error_type := None;
                                     conversion_rates :=
                                       Some sample_rates |})) /\
  failed (HttpResponse 200 (Some {| result := Some (str "success");
                                     error_type := None;
                                     conversion_rates := None |})).
Proof.
  assert (Hq : find_request 0
                 (dispatch Ready (script_loaded 0 (sample_page []))) =
    Some {| req_id := 0; req_url := latest_url (str "USD");
            req_cont := LoadCurrencies |})
    by (vm_compute; reflexivity).
  pose (final := fun o Ho =>
    proj1 (proj2 (proj2 (proj2 (proj2 (proj2 (proj2 (proj2
      (failed_start_up_is_final
         (dispatch Ready (script_loaded 0 (sample_page []))) 0 _ o
         (reach_step Ready _ (reach_loaded 0 (sample_page [])))
         Hq eq_refl Ho))))))))).
  split; [|split; [|split; [|split; [|split; [|split; [|split]]]]]].
  - exact (final NetworkFailure I).
  - apply final. left. reflexivity.
  - apply final. left. reflexivity.
  - apply final. right. exact I.
  - exact (final (HttpNull 200) I).
  - apply final. right. left. reflexivity.
  - apply final. right. left. reflexivity.
  - apply final. right. right. reflexivity.
Defined.

End FailedStartUp.

(** ** What holds of every page *)

Section EveryPage.

(** X10: once the listeners are registered, the catalogue is loaded,
    both dropdowns list its codes in ascending order, each dropdown
    holds the placeholder or a code of the catalogue, and the request
    for the catalogue is no longer in flight. *)
Theorem listening_page_offers_catalogue
    (w : World) (Hw : reachable w) (Hl : listeners (rt w) = true) :
  initialized (rt w) = true /\
  Forall (fun q => req_cont q <> LoadCurrencies) (inflight (rt w)) /\
  exists rates,
    currencies (app w) = Some rates /\
    sel_options (fromCurrency (dom w)) = sorted_keys rates /\
    sel_options (toCurrency (dom w)) = sorted_keys rates /\
    (sel_value (fromCurrency (dom w)) = [] \/
     is_Some (rates !! sel_value (fromCurrency (dom w)))) /\
    (sel_value (toCurrency (dom w)) = [] \/
     is_Some (rates !! sel_value (toCurrency (dom w)))).
Proof.
  pose proof (reachable_catalog_inv w Hw) as [H1 H2 H3 H4].
  pose proof (reachable_flow_inv w Hw) as Hflow.
  split.
  { destruct (initialized (rt w)) eqn:Hi; [done|].
    destruct (fi_before w Hflow Hi) as [Hl' _]. congruence. }
  split.
  { eapply Forall_impl; [exact H4|]. intros q Hq Hk.
    specialize (Hq Hk). congruence. }
  destruct (H1 Hl) as (rates & Hr & Hfo & Hto).
  exists rates. split; [done|]. split; [done|]. split; [done|]. split.
  - destruct (H2 Hl) as [Hv|Hv]; [by left|right].
    apply sorted_keys_elem. by rewrite <- Hfo.
  - destruct (H3 Hl) as [Hv|Hv]; [by left|right].
    apply sorted_keys_elem. by rewrite <- Hto.
Qed.

Lemma listening_page_offers_catalogue_witness :
  initialized (rt (sample_ready [])) = true.
Proof.
  refine (proj1 (listening_page_offers_catalogue (sample_ready [])
                   (sample_ready_reachable []) _)).
  vm_compute. reflexivity.
Defined.

(** X11: every request in flight is the one for the catalogue, sent to
    the [latest/USD] address, or a request for the rates of a source
    currency sent to the address of that currency, to convert an amount
    above zero between two different codes of the loaded catalogue. *)
Theorem requests_are_well_formed (w : World) (Hw : reachable w) :
  Forall (well_formed_request w) (inflight (rt w)).
Proof.
  change (request_inv w).
  induction Hw as [t0 page|ev w Hw IH].
  - by apply request_inv_idle.
  - apply request_inv_dispatch;
      [by apply reachable_flow_inv | by apply reachable_catalog_inv
      | exact IH].
Qed.

Lemma requests_are_well_formed_witness :
  Forall (well_formed_request sample_loading)
    (inflight (rt sample_loading)).
Proof.
  exact (requests_are_well_formed sample_loading
           sample_loading_reachable).
Defined.

(** X16: at most one timer to dismiss the error is pending, and it is
    the one whose handle [AppState.errorTimeout] holds; the pending
    timers have pairwise different handles, all handed out before. *)
Theorem one_dismissal_pending (w : World) (Hw : reachable w) :
  (length (hide_timers w) <= 1)%nat /\
  Forall (fun t => errorTimeout (app w) = Some (timer_id t))
    (hide_timers w) /\
  NoDup (map timer_id (timers (rt w))) /\
  Forall (fun t => (timer_id t < next_timer (rt w))%positive)
    (timers (rt w)).
Proof.
  pose proof (reachable_timer_inv w Hw) as Hinv.
  split; [by apply timer_inv_one_hide_timer|].
  destruct Hinv as [Hfresh Hnd Hown].
  split; [|by split].
  unfold hide_timers. apply Forall_forall. intros t Ht.
  apply list_elem_of_In, filter_In in Ht as [Hin Hh].
  rewrite Forall_forall in Hown.
  by apply Hown; [apply list_elem_of_In|].
Qed.

Lemma one_dismissal_pending_witness :
  (length (hide_timers (dispatch Click (sample_ready []))) <= 1)%nat.
Proof.
  exact (proj1 (one_dismissal_pending _
                  (reach_step Click _ (sample_ready_reachable [])))).
Defined.

End EveryPage.

(** ** The button and the loading state *)

Section ButtonInvariant.

Lemma button_busy (w : World) :
  textContent (btnText (dom (setLoadingState true w))) =
    str "Converting..." /\
  ~ hidden (btnLoader (dom (setLoadingState true w))).
Proof.
  split; [reflexivity|]. unfold hidden. cbn.
  rewrite elem_of_difference, elem_of_singleton. tauto.
Qed.

Lemma ui_inv_idle (w : World) :
  textContent (btnText (dom w)) = str "Convert" ->
  hidden (btnLoader (dom w)) -> isLoading (app w) = false ->
  ui_inv w.
Proof. intros Ht Hh Hl. split; rewrite Hl; done. Qed.

Lemma ui_inv_busy (w : World) :
  textContent (btnText (dom w)) = str "Converting..." ->
  ~ hidden (btnLoader (dom w)) -> isLoading (app w) = true ->
  length (inflight (rt w)) = 1%nat ->
  ui_inv w.
Proof. intros Ht Hh Hl Hq. split; rewrite Hl; done. Qed.

Lemma ui_inv_before (w : World) :
  initialized (rt w) = false -> isLoading (app w) = false -> ui_inv w.
Proof. intros Hi Hl. split; rewrite ?Hi, ?Hl; done. Qed.

Lemma ui_inv_view (w w' : World) :
  button_view w' = button_view w -> flow_view w' = flow_view w ->
  ui_inv w -> ui_inv w'.
Proof.
  intros [Hbt Hbl]%button_view_same Hf [H1 H2 H3].
  unfold flow_view in Hf. injection Hf as Hq _ Hl Hi _ _ _ _ _.
  split; rewrite ?Hbt, ?Hbl, ?Hq, ?Hl, ?Hi; done.
Qed.

(** Sending a request from an idle page. *)
Lemma ui_inv_fetch (url : jsstring) (k : Continuation) (w : World) :
  inflight (rt w) = [] ->
  ui_inv (fetch url k (setLoadingState true w)).
Proof.
  intros Hq. destruct (button_busy w) as [Ht Hh].
  apply ui_inv_busy; [exact Ht | exact Hh | reflexivity |].
  change (inflight (rt (fetch url k (setLoadingState true w))))
    with (inflight (rt (setLoadingState true w)) ++
          [{| req_id := next_request (rt (setLoadingState true w));
              req_url := url; req_cont := k |}]).
  destruct (loading_view_same true w _
              (flow_view_setLoadingState true w)) as [-> _].
  by rewrite Hq.
Qed.

Lemma ui_inv_handleConversionRequest (w : World) :
  inflight (rt w) = [] -> ui_inv w -> ui_inv (handleConversionRequest w).
Proof.
  intros Hq Hinv.
  destruct (handleConversionRequest_cases w)
    as [[_ ->]|(_ & Hf & Hb)]; [|by apply (ui_inv_view w)].
  apply ui_inv_fetch.
  by destruct (flow_view_same _ _ (flow_view_hideError w)) as [-> _].
Qed.

(** Both chains of a conversion end in [setLoadingState(false)]. *)
Lemma conversion_settled_idle
    (a : number) (from to : jsstring) (o : FetchOutcome) (w : World) :
  exists x, conversion_settled a from to o w = setLoadingState false x.
Proof.
  unfold conversion_settled, conversion_succeeded, conversion_failed.
  destruct (fetchExchangeRate_settle to o) as [rate|e]; [|by eexists].
  destruct (displayConversionResults _ _ _ _ _) as [w' [e|]];
    by eexists.
Qed.

Lemma ui_inv_setLoadingState_false (w : World) :
  ui_inv (setLoadingState false w).
Proof.
  destruct (button_idle w) as [Ht Hh]. by apply ui_inv_idle.
Qed.

Lemma ui_inv_load_settled (o : FetchOutcome) (w : World) :
  timer_inv w -> ui_inv (load_settled o w).
Proof.
  intros Hinv. destruct (outcome_cases o) as [Hf|Hs].
  - destruct (load_settled_failed o w Hf)
      as (e & w0 & -> & _ & Ht0 & _).
    destruct (load_failed_effect e w0 (timer_inv_view w w0 Ht0 Hinv))
      as (_ & _ & _ & _ & Hv & Hbt & Hbl).
    apply ui_inv_idle; [done..|]. by apply loading_view_flag in Hv.
  - destruct Hs as (status & data & rates & -> & Hok & Hr & Hc).
    destruct (load_settled_loaded w status data rates Hok Hr Hc)
      as (_ & Hflow & _ & _ & _ & _ & Hbt & Hbl).
    apply ui_inv_idle; [done..|].
    by apply listening_view_flag in Hflow as [? _].
Qed.

(** Every event keeps the button in step with the loading state. *)
Lemma ui_inv_dispatch (ev : Event) (w : World) :
  flow_inv w -> timer_inv w -> ui_inv w -> ui_inv (dispatch ev w).
Proof.
  intros Hflow Htim Hinv. destruct ev; cbn [dispatch].
  - destruct (initialized (rt w)) eqn:Hi; [done|].
    destruct (fi_before w Hflow Hi) as [_ Hld].
    unfold initializeApp, loadAvailableCurrencies.
    apply ui_inv_fetch. exact (fi_idle w Hflow Hld).
  - destruct (btn_disabled _) eqn:Hb; [done|].
    destruct (listeners _) eqn:Hl; [|done].
    apply ui_inv_handleConversionRequest; [|done].
    by destruct (flow_inv_enabled_idle w Hflow Hl (or_introl Hb))
      as (_ & ? & _).
  - destruct (in_disabled _) eqn:Hb; [done|].
    destruct (listeners _) eqn:Hl; [|done].
    unfold on_keypress. destruct (str_eqb _ _); [|done].
    apply ui_inv_handleConversionRequest; [|done].
    by destruct (flow_inv_enabled_idle w Hflow Hl (or_intror Hb))
      as (_ & ? & _).
  - destruct (in_disabled _); [done|]. cbn.
    destruct (listeners _); [|by apply (ui_inv_view w)].
    unfold handleAmountInput.
    match goal with
    | |- ui_inv (hideError ?x) =>
        apply (ui_inv_view x);
          [apply static_hideError | apply flow_view_hideError |];
        by apply (ui_inv_view w)
    end.
  - destruct (_ || _); [done|].
    change (listeners (rt (upd_dom ?f w))) with (listeners (rt w)).
    destruct (listeners (rt w)); [|by apply (ui_inv_view w)].
    match goal with
    | |- ui_inv (resetResults ?x) =>
        apply (ui_inv_view x);
          [apply static_resetResults | apply flow_view_resetResults |];
        by apply (ui_inv_view w)
    end.
  - destruct (_ || _); [done|].
    change (listeners (rt (upd_dom ?f w))) with (listeners (rt w)).
    destruct (listeners (rt w)); [|by apply (ui_inv_view w)].
    match goal with
    | |- ui_inv (resetResults ?x) =>
        apply (ui_inv_view x);
          [apply static_resetResults | apply flow_view_resetResults |];
        by apply (ui_inv_view w)
    end.
  - destruct (find_request id w) as [q|] eqn:Hq; [|done].
    destruct (req_cont q) as [|a from to].
    + apply ui_inv_load_settled.
      apply (timer_inv_view w); [apply timer_view_remove_request | done].
    + destruct (conversion_settled_idle a from to o
                  (remove_request id w)) as [x ->].
      apply ui_inv_setLoadingState_false.
  - apply (ui_inv_view w);
      [apply static_elapse | apply flow_view_elapse | done].
  - unfold on_error, console_error.
    apply (ui_inv_view w); [|by rewrite flow_view_displayError|done].
    by destruct (static_displayError
      (str "An unexpected error occurred. Please refresh the page.")
      (emit (ConsoleError (str "Uncaught error:") e) w)) as [_ ->].
  - unfold on_unhandledrejection, console_error.
    apply (ui_inv_view w); [|by rewrite flow_view_displayError|done].
    by destruct (static_displayError
      (str "An unexpected error occurred. Please try again.")
      (emit (ConsoleError (str "Unhandled promise rejection:") reason) w))
      as [_ ->].
Qed.

Lemma reachable_ui_inv (w : World) : reachable w -> ui_inv w.
Proof.
  induction 1 as [t0 page|ev w Hw IH].
  - by apply ui_inv_before.
  - apply ui_inv_dispatch;
      [by apply reachable_flow_inv | by apply reachable_timer_inv | done].
Qed.

(** X13: once [initializeApp] has run, the button reads
    "Converting..." and shows its spinner exactly while [isLoading]
    holds, and reads "Convert" with the spinner hidden otherwise; all
    four controls are disabled exactly while it holds; and it holds
    exactly while a request is in flight, of which there is never more
    than one. *)
Theorem loading_state_is_shown
    (w : World) (Hw : reachable w) (Hi : initialized (rt w) = true) :
  textContent (btnText (dom w)) =
    (if isLoading (app w) then str "Converting..." else str "Convert") /\
  (hidden (btnLoader (dom w)) <-> isLoading (app w) = false) /\
  controls_disabled (isLoading (app w)) (dom w) /\
  length (inflight (rt w)) = (if isLoading (app w) then 1 else 0)%nat.
Proof.
  destruct (reachable_ui_inv w Hw) as [H1 H2 H3].
  pose proof (reachable_flow_inv w Hw) as Hflow.
  split; [by apply H1|]. split; [by apply H2|].
  split; [by apply (fi_controls w Hflow)|].
  destruct (isLoading (app w)) eqn:Hl; [by apply H3|].
  by rewrite (fi_idle w Hflow Hl).
Qed.

Lemma loading_state_is_shown_witness :
  textContent (btnText (dom sample_loading)) =
  (if isLoading (app sample_loading)
   then str "Converting..." else str "Convert").
Proof.
  refine (proj1 (loading_state_is_shown sample_loading
                   sample_loading_reachable _)).
  vm_compute. reflexivity.
Defined.

End ButtonInvariant.

(** ** The animation of the result *)

Section Animation.

Lemma resultAmount_hideError (w : World) :
  resultAmount (dom (hideError w)) = resultAmount (dom w).
Proof. unfold hideError. cbn. by destruct (errorTimeout (app w)). Qed.

(** A timer that fires cancels no animation callback. *)
Lemma animation_due_fire (t_end : N) (t : Timer) (w : World) :
  timer_inv w -> In t (timers (rt w)) ->
  animation_due t_end w -> animation_due t_end (fire t w).
Proof.
  intros [_ Hnd Hown] Hin Hdue. unfold fire.
  destruct (timer_cb t) eqn:Hcb; [|by left].
  rewrite Forall_forall in Hown.
  assert (Het : errorTimeout (app w) = Some (timer_id t)).
  { apply Hown; [by apply list_elem_of_In|].
    unfold is_hide_timer. by rewrite Hcb. }
  destruct Hdue as [Hs|(t0 & Hin0 & Hcb0 & Hle)].
  - left. by rewrite resultAmount_hideError.
  - right. exists t0. split; [|done].
    assert (Hne : negb (Pos.eqb (timer_id t0) (timer_id t)) = true).
    { destruct (Pos.eqb_spec (timer_id t0) (timer_id t)) as [Heq|];
        [|done].
      assert (t0 = t) by by apply (NoDup_map_eq timer_id (timers (rt w))).
      congruence. }
    unfold hideError. cbn. rewrite Het. cbn.
    apply filter_In. split; [|done]. apply filter_In. by split.
Qed.

Lemma animation_due_run_timers (fuel : nat) (t_end : N) (w : World) :
  timer_inv w ->
  animation_due t_end w -> animation_due t_end (run_timers fuel t_end w).
Proof.
  revert w. induction fuel as [|fuel IH]; intros w Hinv Hdue; [done|].
  cbn [run_timers]. destruct (next_due _) as [t|] eqn:Hn; [|done].
  destruct (timer_due t <=? t_end); [|done].
  apply IH.
  - apply timer_inv_fire. by apply (timer_inv_view w).
  - apply animation_due_fire;
      [by apply (timer_inv_view w) | by apply next_due_In | done].
Qed.

(** Once the time a pending animation callback is due has passed, the
    result is animated. *)
Lemma animation_due_elapse (dt : N) (w : World) :
  timer_inv w -> animation_due (now (rt w) + dt) w ->
  style_animation (resultAmount (dom (elapse dt w))) =
    str "slideDown 0.3s ease".
Proof.
  intros Hinv Hdue.
  pose proof (elapse_complete dt w) as Hall.
  apply (animation_due_run_timers (length (timers (rt w)))) in Hdue;
    [|done].
  unfold elapse in *.
  change (dom (upd_rt ?f ?x)) with (dom x).
  change (timers (rt (upd_rt (set_now ?n) ?x))) with (timers (rt x))
    in Hall.
  destruct Hdue as [Hs|(t & Hin & _ & Hle)]; [done|].
  rewrite Forall_forall in Hall.
  apply list_elem_of_In, Hall in Hin. lia.
Qed.

(** What a displayed conversion leaves pending. *)
Lemma conversion_succeeded_animation
    (a r : number) (from to : jsstring) (w : World) :
  let w' := conversion_succeeded a (Some r) from to w in
  style_animation (resultAmount (dom w')) = str "none" /\
  timers (rt w') =
    timers (rt w) ++
    [{| timer_id := next_timer (rt w); timer_due := now (rt w) + 10;
        timer_cb := AnimationCallback |}] /\
  now (rt w') = now (rt w).
Proof. by unfold conversion_succeeded, displayConversionResults. Qed.

(** X14: a conversion that is displayed stops the animation of the
    result and sets a callback due 10 ms later; once 10 ms or more have
    passed the result is animated with "slideDown 0.3s ease", whatever
    other timers were pending. *)
Theorem displayed_result_is_animated
    (w : World) (id : N) (q : Request) (a : number) (from to : jsstring)
    (status : N) (data : Payload) (rates : gmap jsstring number)
    (r : number)
    (Hw : reachable w)
    (Hq : find_request id w = Some q)
    (Hk : req_cont q = Convert a from to)
    (Hok : response_ok status = true)
    (Hresult : not_success data = false)
    (Hrates : conversion_rates data = Some rates)
    (Hrate : rates !! to = Some r) :
  let w' := dispatch (Response id (HttpResponse status (Some data))) w in
  style_animation (resultAmount (dom w')) = str "none" /\
  In {| timer_id := next_timer (rt w); timer_due := now (rt w) + 10;
        timer_cb := AnimationCallback |} (timers (rt w')) /\
  forall dt, 10 <= dt ->
    style_animation (resultAmount (dom (elapse dt w'))) =
      str "slideDown 0.3s ease".
Proof.
  intros w'.
  assert (Hinv : timer_inv w')
    by (apply reachable_timer_inv; by constructor).
  revert Hinv. unfold w'. cbn [dispatch]. rewrite Hq, Hk.
  unfold conversion_settled.
  rewrite (fetchExchangeRate_resolved to status data rates Hok Hresult
             Hrates), Hrate.
  destruct (conversion_succeeded_animation a r from to
              (remove_request id w)) as (Hs & Ht & Hnow).
  change (timers (rt (remove_request id w))) with (timers (rt w)) in Ht.
  change (next_timer (rt (remove_request id w)))
    with (next_timer (rt w)) in Ht.
  change (now (rt (remove_request id w))) with (now (rt w)) in Ht, Hnow.
  generalize dependent (conversion_succeeded a (Some r) from to
                          (remove_request id w)).
  intros x Hs Ht Hnow Hinv.
  split; [exact Hs|]. split.
  { rewrite Ht. apply in_or_app. right. by left. }
  intros dt Hdt. apply animation_due_elapse; [done|]. right.
  eexists. split; [rewrite Ht; apply in_or_app; right; by left|].
  split; [done|]. cbn. lia.
Qed.

Lemma displayed_result_is_animated_witness :
  style_animation
    (resultAmount
       (dom (dispatch (Response 1 (success sample_rates))
               sample_loading))) = str "none".
Proof.
  refine (proj1
    (displayed_result_is_animated sample_loading 1
       {| req_id := 1; req_url := latest_url (str "USD");
          req_cont := Convert (parseFloat (str "100")) (str "USD")
                        (str "EUR") |}
       (parseFloat (str "100")) (str "USD") (str "EUR") 200
       {| result := Some (str "success"); error_type := None;
          conversion_rates := Some sample_rates |}
       sample_rates rate_0_9 sample_loading_reachable
       _ eq_refl eq_refl eq_refl eq_refl _));
    vm_compute; reflexivity.
Defined.

End Animation.

(** ** The global handlers *)

Section GlobalHandlers.

(** What [displayError] leaves alone. *)
Lemma displayError_frame (message : jsstring) (w : World) :
  form_view (displayError message w) = form_view w /\
  resultAmount (dom (displayError message w)) = resultAmount (dom w) /\
  exchangeRate (dom (displayError message w)) = exchangeRate (dom w) /\
  currentExchangeRate (app (displayError message w)) =
    currentExchangeRate (app w).
Proof.
  unfold form_view, displayError. cbn.
  by destruct (errorTimeout (app w)).
Qed.

(** A handler logs the error and shows its message; nothing else. *)
Lemma report_effect
    (label message : jsstring) (e : Exn) (w : World) :
  timer_inv w ->
  let w' := displayError message (console_error label e w) in
  textContent (errorMessage (dom w')) = message /\
  ~ hidden (errorMessage (dom w')) /\
  hide_timers w' =
    [hide_timer (next_timer (rt w))
       (now (rt w) + ERROR_DISPLAY_DURATION CONFIG)] /\
  log (rt w') =
    log (rt w) ++ [ConsoleError label e; CallDisplayError message] /\
  flow_view w' = flow_view w /\ form_view w' = form_view w /\
  catalog_view w' = catalog_view w /\ button_view w' = button_view w /\
  resultAmount (dom w') = resultAmount (dom w) /\
  exchangeRate (dom w') = exchangeRate (dom w) /\
  currentExchangeRate (app w') = currentExchangeRate (app w).
Proof.
  intros Hinv w'. unfold w', console_error.
  assert (Hinv1 : timer_inv (emit (ConsoleError label e) w))
    by by apply (timer_inv_view w).
  destruct (displayError_sets message _ Hinv1) as (Hh & _ & Ht & Hv).
  destruct (displayError_frame message (emit (ConsoleError label e) w))
    as (Hform & Hres & Hrate & Hcur).
  destruct (static_displayError message (emit (ConsoleError label e) w))
    as [Hcat Hbtn].
  split; [exact Ht|]. split; [exact Hv|]. split; [exact Hh|].
  split.
  { rewrite log_displayError. cbn [emit upd_rt rt log set_log].
    by rewrite <- app_assoc. }
  split; [by rewrite flow_view_displayError|].
  split; [exact Hform|]. split; [exact Hcat|]. split; [exact Hbtn|].
  by repeat split.
Qed.

(** X15: the two global handlers log the error, then show their
    message in place of whatever was shown, with one timer to dismiss
    it; they leave the loading state, the controls, the requests in
    flight, the form, the catalogue and the last result as they
    are. *)
Theorem global_handlers_only_report
    (w : World) (e : Exn) (Hw : reachable w) :
  let report (label message : jsstring) (w' : World) :=
    textContent (errorMessage (dom w')) = message /\
    ~ hidden (errorMessage (dom w')) /\
    hide_timers w' =
      [hide_timer (next_timer (rt w))
         (now (rt w) + ERROR_DISPLAY_DURATION CONFIG)] /\
    log (rt w') =
      log (rt w) ++ [ConsoleError label e; CallDisplayError message] /\
    flow_view w' = flow_view w /\ form_view w' = form_view w /\
    catalog_view w' = catalog_view w /\ button_view w' = button_view w /\
    resultAmount (dom w') = resultAmount (dom w) /\
    exchangeRate (dom w') = exchangeRate (dom w) /\
    currentExchangeRate (app w') = currentExchangeRate (app w) in
  report (str "Uncaught error:")
    (str "An unexpected error occurred. Please refresh the page.")
    (dispatch (UncaughtError e) w) /\
  report (str "Unhandled promise rejection:")
    (str "An unexpected error occurred. Please try again.")
    (dispatch (UnhandledRejection e) w).
Proof.
  pose proof (reachable_timer_inv w Hw) as Hinv.
  split; by apply report_effect.
Qed.

Lemma global_handlers_only_report_witness :
  textContent
    (errorMessage (dom (dispatch (UncaughtError TypeError)
                          sample_loading))) =
  str "An unexpected error occurred. Please refresh the page.".
Proof.
  exact (proj1 (proj1 (global_handlers_only_report sample_loading
                         TypeError sample_loading_reachable))).
Defined.

End GlobalHandlers.
